(** * Solid-Hexagon: the physics core, embedded and verified

    A shallow embedding of the three modules that make up the physics core of
    the bouncing-ball demo:

    - [src/physics/Vector2D.ts]     (class [Vector2D]),
    - [src/utils/hexagon.ts]        ([createHexagon], [distanceToEdge],
                                     [circleHexagonCollision], ...),
    - [src/physics/PhysicsEngine.ts] (class [PhysicsEngine]).

    Modelling conventions.

    - A JavaScript [number] is modelled as a real number ([R]): [+ - * /],
      [Math.sqrt], [Math.cos], [Math.sin], [Math.PI], [Math.min], [Math.max]
      and [Math.abs] are the real operations.  Rounding, overflow and NaN are
      outside the model.  The only division of the core whose divisor is not
      guarded against zero is the one of [limitVelocity] (reached with a zero
      divisor only when [maxVelocity < 0] and the ball is at rest); every
      statement about the clamp below is made where the divisor is non-zero
      or the branch is not taken.
    - [Infinity], the initial value of [closestDistance], is a constructor of
      its own ([Distance]).
    - [Math.random()] reads a global generator: the generator is an explicit
      [RandomSource] threaded through the methods that draw from it.
    - A class instance is a record and a method is a function from the record
      to the updated record.  The vectors of the ball state are never shared
      with another object (the constructor, [setBallPosition] and
      [setBallVelocity] copy, [getState] clones), so in-place mutation through
      [set] is modelled by replacing the field. *)

From Stdlib Require Import Reals Lra Psatz List Bool Arith Lia.
From Stdlib Require String.
Import ListNotations.

Open Scope R_scope.

(** ** Comparisons of numbers as booleans *)

Definition ltb (a b : R) : bool := if Rlt_dec a b then true else false.
Definition leb (a b : R) : bool := if Rle_dec a b then true else false.
Definition gtb (a b : R) : bool := ltb b a.
Definition geb (a b : R) : bool := leb b a.
Definition eqb (a b : R) : bool := if Req_dec_T a b then true else false.

(** ** [Vector2D] *)

Module Vector2D.

Record t : Type := mk { x : R; y : R }.

Definition add (this other : t) : t :=
  mk (x this + x other) (y this + y other).

Definition subtract (this other : t) : t :=
  mk (x this - x other) (y this - y other).

Definition multiply (this : t) (scalar : R) : t :=
  mk (x this * scalar) (y this * scalar).

Definition divide (this : t) (scalar : R) : t :=
  mk (x this / scalar) (y this / scalar).

Definition dot (this other : t) : R :=
  x this * x other + y this * y other.

Definition magnitude (this : t) : R :=
  sqrt (x this * x this + y this * y this).

Definition magnitudeSquared (this : t) : R :=
  x this * x this + y this * y this.

Definition normalize (this : t) : t :=
  let mag := magnitude this in
  if eqb mag 0 then mk 0 0 else divide this mag.

Definition clone (this : t) : t := mk (x this) (y this).

(** [set] overwrites both coordinates; the receiver is unshared, so the
    updated object is the new value. *)
Definition set (this : t) (x' y' : R) : t := mk x' y'.

Definition distance (this other : t) : R :=
  let dx := x this - x other in
  let dy := y this - y other in
  sqrt (dx * dx + dy * dy).

Definition rotate (this : t) (angle : R) : t :=
  let c := cos angle in
  let s := sin angle in
  mk (x this * c - y this * s) (x this * s + y this * c).

Definition reflect (this normal : t) : t :=
  let dotProduct := dot this normal in
  mk (x this - 2 * dotProduct * x normal)
     (y this - 2 * dotProduct * y normal).

End Vector2D.

Abbreviation Vector2D := Vector2D.t.
Abbreviation vec := Vector2D.mk.

(** ** Hexagon geometry *)

Record HexagonEdge : Type := mkEdge {
  start : Vector2D;
  end_ : Vector2D;
  normal : Vector2D
}.

Record Hexagon : Type := mkHexagon {
  center : Vector2D;
  radius : R;
  vertices : list Vector2D;
  edges : list HexagonEdge;
  rotation : R
}.

(** The vertex pushed at iteration [i] of the first loop of [createHexagon]. *)
Definition hexVertex (center : Vector2D) (radius rotation : R) (i : nat)
  : Vector2D :=
  let angle := (INR i * PI) / 3 + rotation in
  vec (Vector2D.x center + radius * cos angle)
      (Vector2D.y center + radius * sin angle).

(** The edge pushed at iteration [i] of the second loop.  [vertices[i]] and
    [vertices[(i + 1) % 6]] are always in range there; [nth]'s default stands
    for the [undefined] that an out-of-range read would give. *)
Definition hexEdge (vertices : list Vector2D) (i : nat) : HexagonEdge :=
  let start := nth i vertices (vec 0 0) in
  let end_ := nth ((i + 1) mod 6) vertices (vec 0 0) in
  let edgeVector := Vector2D.subtract end_ start in
  let normal :=
    Vector2D.normalize
      (vec (- Vector2D.y edgeVector) (Vector2D.x edgeVector)) in
  mkEdge start end_ normal.

Definition createHexagon (center : Vector2D) (radius rotation : R) : Hexagon :=
  let vertices := map (hexVertex center radius rotation) (seq 0 6) in
  let edges := map (hexEdge vertices) (seq 0 6) in
  mkHexagon center radius vertices edges rotation.

Definition rotateHexagon (hexagon : Hexagon) (deltaRotation : R) : Hexagon :=
  createHexagon (center hexagon) (radius hexagon)
                (rotation hexagon + deltaRotation).

Definition rayIntersectsEdge (point edgeStart edgeEnd : Vector2D) : bool :=
  if Bool.eqb (gtb (Vector2D.y edgeStart) (Vector2D.y point))
              (gtb (Vector2D.y edgeEnd) (Vector2D.y point))
  then false
  else
    let intersectionX :=
      Vector2D.x edgeStart
      + (Vector2D.y point - Vector2D.y edgeStart)
        * (Vector2D.x edgeEnd - Vector2D.x edgeStart)
        / (Vector2D.y edgeEnd - Vector2D.y edgeStart) in
    gtb intersectionX (Vector2D.x point).

Definition isPointInsideHexagon (point : Vector2D) (hexagon : Hexagon) : bool :=
  let intersections :=
    fold_left
      (fun n edge =>
         if rayIntersectsEdge point (start edge) (end_ edge) then S n else n)
      (edges hexagon) 0%nat in
  Nat.eqb (intersections mod 2) 1.

Record EdgeDistance : Type := mkEdgeDistance {
  distance : R;
  closestPoint : Vector2D;
  isOnSegment : bool
}.

Definition distanceToEdge (point edgeStart edgeEnd : Vector2D) : EdgeDistance :=
  let edgeVector := Vector2D.subtract edgeEnd edgeStart in
  let pointVector := Vector2D.subtract point edgeStart in
  let edgeLengthSquared := Vector2D.magnitudeSquared edgeVector in
  if eqb edgeLengthSquared 0 then
    let distance := Vector2D.distance point edgeStart in
    mkEdgeDistance distance edgeStart true
  else
    let t :=
      Rmax 0 (Rmin 1 (Vector2D.dot pointVector edgeVector / edgeLengthSquared))
    in
    let closestPoint :=
      Vector2D.add edgeStart (Vector2D.multiply edgeVector t) in
    let distance := Vector2D.distance point closestPoint in
    mkEdgeDistance distance closestPoint (geb t 0 && leb t 1).

(** [closestDistance] starts at [Infinity]. *)
Inductive Distance : Type :=
| Infinity
| Finite (d : R).

(** [d < closestDistance]. *)
Definition ltDistance (d : R) (closestDistance : Distance) : bool :=
  match closestDistance with
  | Infinity => true
  | Finite c => ltb d c
  end.

(** The three loop variables of [circleHexagonCollision]. *)
Record Closest : Type := mkClosest {
  closestEdge : option HexagonEdge;
  closestDistance : Distance;
  closestPoint_ : option Vector2D
}.

Definition closestStep (circleCenter : Vector2D) (acc : Closest)
  (edge : HexagonEdge) : Closest :=
  let result := distanceToEdge circleCenter (start edge) (end_ edge) in
  if ltDistance (distance result) (closestDistance acc) then
    mkClosest (Some edge) (Finite (distance result))
              (Some (closestPoint result))
  else acc.

Definition closestScan (circleCenter : Vector2D) (edges : list HexagonEdge)
  : Closest :=
  fold_left (closestStep circleCenter) edges (mkClosest None Infinity None).

Record Collision : Type := mkCollision {
  isColliding : bool;
  collisionEdge : option HexagonEdge;
  collisionPoint : option Vector2D;
  penetrationDepth : option R
}.

Definition circleHexagonCollision (circleCenter : Vector2D) (radius : R)
  (hexagon : Hexagon) : Collision :=
  let scan := closestScan circleCenter (edges hexagon) in
  match closestEdge scan, closestPoint_ scan, closestDistance scan with
  | Some closestEdge, Some closestPoint, Finite closestDistance =>
      if leb closestDistance radius then
        mkCollision true (Some closestEdge) (Some closestPoint)
                    (Some (radius - closestDistance))
      else mkCollision false None None None
  | _, _, _ => mkCollision false None None None
  end.

(** ** The physics engine *)

Record PhysicsConfig : Type := mkConfig {
  gravity : R;
  friction : R;
  restitution : R;
  rotationSpeed : R;
  ballRadius : R;
  maxVelocity : R
}.

(** [Partial<PhysicsConfig>]: every field may be absent. *)
Record PartialConfig : Type := mkPartialConfig {
  gravity_opt : option R;
  friction_opt : option R;
  restitution_opt : option R;
  rotationSpeed_opt : option R;
  ballRadius_opt : option R;
  maxVelocity_opt : option R
}.

Record BallState : Type := mkBall {
  position : Vector2D;
  velocity : Vector2D;
  acceleration : Vector2D
}.

(** The global generator behind [Math.random()]: the sequence of numbers it
    will return and how many of them have been consumed. *)
Record RandomSource : Type := mkRandom {
  draws : nat -> R;
  cursor : nat
}.

Definition Math_random (rs : RandomSource) : R * RandomSource :=
  (draws rs (cursor rs), mkRandom (draws rs) (S (cursor rs))).

Module PhysicsEngine.

Record t : Type := mk {
  config : PhysicsConfig;
  ballState : BallState;
  hexagon : Hexagon;
  isRunning : bool
}.

Definition withBall (this : t) (b : BallState) : t :=
  mk (config this) b (hexagon this) (isRunning this).

(** [new PhysicsEngine(config, hexagon)]; the two components of the initial
    velocity are drawn in source order. *)
Definition constructor (config : PhysicsConfig) (hexagon : Hexagon)
  (rs : RandomSource) : t * RandomSource :=
  let (r1, rs1) := Math_random rs in
  let (r2, rs2) := Math_random rs1 in
  (mk config
      (mkBall (vec (Vector2D.x (center hexagon)) (Vector2D.y (center hexagon)))
              (vec ((r1 - 0.5) * 200) ((r2 - 0.5) * 200))
              (vec 0 0))
      hexagon
      false,
   rs2).

Definition applyGravity (this : t) : t :=
  let b := ballState this in
  withBall this
    (mkBall (position b) (velocity b)
            (vec (Vector2D.x (acceleration b))
                 (Vector2D.y (acceleration b) + gravity (config this)))).

Definition applyFriction (deltaTime : R) (this : t) : t :=
  let b := ballState this in
  let frictionForce := friction (config this) * deltaTime in
  withBall this
    (mkBall (position b)
            (vec (Vector2D.x (velocity b) * (1 - frictionForce))
                 (Vector2D.y (velocity b) * (1 - frictionForce)))
            (acceleration b)).

Definition updateVelocity (deltaTime : R) (this : t) : t :=
  let b := ballState this in
  withBall this
    (mkBall (position b)
            (vec (Vector2D.x (velocity b)
                  + Vector2D.x (acceleration b) * deltaTime)
                 (Vector2D.y (velocity b)
                  + Vector2D.y (acceleration b) * deltaTime))
            (Vector2D.set (acceleration b) 0 0)).

Definition limitVelocity (this : t) : t :=
  let b := ballState this in
  let speed := Vector2D.magnitude (velocity b) in
  if gtb speed (maxVelocity (config this)) then
    let scale := maxVelocity (config this) / speed in
    withBall this
      (mkBall (position b)
              (vec (Vector2D.x (velocity b) * scale)
                   (Vector2D.y (velocity b) * scale))
              (acceleration b))
  else this.

Definition updatePosition (deltaTime : R) (this : t) : t :=
  let b := ballState this in
  withBall this
    (mkBall (vec (Vector2D.x (position b)
                  + Vector2D.x (velocity b) * deltaTime)
                 (Vector2D.y (position b)
                  + Vector2D.y (velocity b) * deltaTime))
            (velocity b)
            (acceleration b)).

(** Step 2 of [resolveCollision]: the velocity assigned to the ball before
    the random perturbation of step 4. *)
Definition reflectedVelocity (restitution : R) (normal : Vector2D)
  (incidentVelocity : Vector2D) : Vector2D :=
  let dotProduct := Vector2D.dot incidentVelocity normal in
  vec (Vector2D.x incidentVelocity
       - 2 * dotProduct * Vector2D.x normal * restitution)
      (Vector2D.y incidentVelocity
       - 2 * dotProduct * Vector2D.y normal * restitution).

Definition resolveCollision (edge : HexagonEdge) (penetrationDepth : R)
  (this : t) (rs : RandomSource) : t * RandomSource :=
  let b := ballState this in
  let separationVector := Vector2D.multiply (normal edge) penetrationDepth in
  let position' := Vector2D.add (position b) separationVector in
  let velocity' :=
    reflectedVelocity (restitution (config this)) (normal edge) (velocity b)
  in
  if ltb (Rabs (Vector2D.x velocity')) 10
     && ltb (Rabs (Vector2D.y velocity')) 10
  then
    let (r1, rs1) := Math_random rs in
    let (r2, rs2) := Math_random rs1 in
    (withBall this
       (mkBall position'
               (vec (Vector2D.x velocity' + (r1 - 0.5) * 50)
                    (Vector2D.y velocity' + (r2 - 0.5) * 50))
               (acceleration b)),
     rs2)
  else
    (withBall this (mkBall position' velocity' (acceleration b)), rs).

Definition handleCollisions (this : t) (rs : RandomSource)
  : t * RandomSource :=
  let collision :=
    circleHexagonCollision (position (ballState this))
                           (ballRadius (config this)) (hexagon this) in
  match isColliding collision, collisionEdge collision,
        collisionPoint collision with
  | true, Some edge, Some _ =>
      resolveCollision edge
        (match penetrationDepth collision with
         | Some d => d
         | None => 0
         end)
        this rs
  | _, _, _ => (this, rs)
  end.

Definition updateHexagonRotation (deltaTime : R) (this : t) : t :=
  mk (config this) (ballState this)
     (rotateHexagon (hexagon this) (rotationSpeed (config this) * deltaTime))
     (isRunning this).

Definition update (deltaTime : R) (this : t) (rs : RandomSource)
  : t * RandomSource :=
  if negb (isRunning this) then (this, rs)
  else
    let deltaTime := Rmin deltaTime 0.016 in
    let this := applyGravity this in
    let this := applyFriction deltaTime this in
    let this := updateVelocity deltaTime this in
    let this := limitVelocity this in
    let this := updatePosition deltaTime this in
    let (this, rs) := handleCollisions this rs in
    (updateHexagonRotation deltaTime this, rs).

Definition start (this : t) : t :=
  mk (config this) (ballState this) (hexagon this) true.

Definition stop (this : t) : t :=
  mk (config this) (ballState this) (hexagon this) false.

Definition reset (this : t) (rs : RandomSource) : t * RandomSource :=
  let b := ballState this in
  let position' :=
    Vector2D.set (position b) (Vector2D.x (center (hexagon this)))
                 (Vector2D.y (center (hexagon this))) in
  let (r1, rs1) := Math_random rs in
  let (r2, rs2) := Math_random rs1 in
  let velocity' :=
    Vector2D.set (velocity b) ((r1 - 0.5) * 200) ((r2 - 0.5) * 200) in
  let acceleration' := Vector2D.set (acceleration b) 0 0 in
  (withBall this (mkBall position' velocity' acceleration'), rs2).

Definition getState (this : t) : BallState :=
  mkBall (Vector2D.clone (position (ballState this)))
         (Vector2D.clone (velocity (ballState this)))
         (Vector2D.clone (acceleration (ballState this))).

Definition getHexagon (this : t) : Hexagon := hexagon this.

Definition merged (old : R) (new : option R) : R :=
  match new with
  | Some v => v
  | None => old
  end.

Definition updateConfig (newConfig : PartialConfig) (this : t) : t :=
  let c := config this in
  mk (mkConfig (merged (gravity c) (gravity_opt newConfig))
               (merged (friction c) (friction_opt newConfig))
               (merged (restitution c) (restitution_opt newConfig))
               (merged (rotationSpeed c) (rotationSpeed_opt newConfig))
               (merged (ballRadius c) (ballRadius_opt newConfig))
               (merged (maxVelocity c) (maxVelocity_opt newConfig)))
     (ballState this) (hexagon this) (isRunning this).

Definition getConfig (this : t) : PhysicsConfig := config this.

Definition setBallPosition (position : Vector2D) (this : t) : t :=
  let b := ballState this in
  withBall this
    (mkBall (Vector2D.clone position) (velocity b) (acceleration b)).

Definition setBallVelocity (velocity : Vector2D) (this : t) : t :=
  let b := ballState this in
  withBall this
    (mkBall (position b) (Vector2D.clone velocity) (acceleration b)).

Definition getKineticEnergy (this : t) : R :=
  let speed := Vector2D.magnitude (velocity (ballState this)) in
  0.5 * speed * speed.

Definition getVelocity (this : t) : R :=
  Vector2D.magnitude (velocity (ballState this)).

End PhysicsEngine.

Abbreviation PhysicsEngine := PhysicsEngine.t.

(** ** Closed forms used in the statements *)

(** The polar angle of vertex [i] of a hexagon rotated by [theta]. *)
Definition vertexAngle (theta : R) (i : nat) : R := (INR i * PI) / 3 + theta.

(** The unit normal of edge [i], in closed form: the direction at
    [vertexAngle theta i + 30 degrees], reversed. *)
Definition edgeNormal (theta : R) (i : nat) : Vector2D :=
  let a := vertexAngle theta i in
  vec (sin a / 2 - cos a * sqrt 3 / 2) (- cos a / 2 - sin a * sqrt 3 / 2).

(** The inradius (apothem) of a regular hexagon of circumradius [r]. *)
Definition inradius (r : R) : R := r * sqrt 3 / 2.

(** The midpoint of an edge. *)
Definition midpoint (e : HexagonEdge) : Vector2D :=
  vec ((Vector2D.x (start e) + Vector2D.x (end_ e)) / 2)
      ((Vector2D.y (start e) + Vector2D.y (end_ e)) / 2).

(** The direction of an edge, from [start] to [end_]. *)
Definition edgeVector (e : HexagonEdge) : Vector2D :=
  Vector2D.subtract (end_ e) (start e).

(** The parameter of the orthogonal projection of [p] onto the line through
    [a] and [b], before any clamping: [0] at [a] and [1] at [b]. *)
Definition projectionParameter (p a b : Vector2D) : R :=
  Vector2D.dot (Vector2D.subtract p a) (Vector2D.subtract b a)
  / Vector2D.magnitudeSquared (Vector2D.subtract b a).

(** The distance from [p] to an edge, as [circleHexagonCollision] measures
    it. *)
Definition edgeDistance (p : Vector2D) (e : HexagonEdge) : R :=
  distance (distanceToEdge p (start e) (end_ e)).

(** Edge [i] of [createHexagon c r theta] for a positive [r], in closed
    form (see [edges_createHexagon]). *)
Definition hexEdgeAt (c : Vector2D) (r theta : R) (i : nat) : HexagonEdge :=
  mkEdge (hexVertex c r theta i) (hexVertex c r theta ((i + 1) mod 6))
         (edgeNormal theta i).

(** ** The engine as the demo component sets it up

    [BouncingBall.tsx] builds the hexagon with [createHexagon(center, 200)]
    at the center of an 800 x 600 canvas and passes the configuration below
    to the engine. *)

Definition demoConfig : PhysicsConfig :=
  mkConfig 500 0.02 0.8 1 12 800.

Definition demoHexagon : Hexagon := createHexagon (vec 400 300) 200 0.

(** A generator that returns [u] at every call. *)
Definition constantRandom (u : R) : RandomSource := mkRandom (fun _ => u) 0.

(** A running engine over the demo hexagon with the given configuration and
    ball position and velocity, reached through the public interface. *)
Definition runningEngine (cfg : PhysicsConfig) (p v : Vector2D)
  : PhysicsEngine :=
  PhysicsEngine.start
    (PhysicsEngine.setBallVelocity v
       (PhysicsEngine.setBallPosition p
          (fst (PhysicsEngine.constructor cfg demoHexagon
                  (constantRandom 0.75))))).

(** ** Steps 1 to 5 of [update]

    The engine after the clamp of [dt], gravity, friction, velocity
    integration, speed clamp and position integration, and the collision
    query that [handleCollisions] then makes. *)

Definition integrated (dt : R) (this : PhysicsEngine) : PhysicsEngine :=
  let deltaTime := Rmin dt 0.016 in
  PhysicsEngine.updatePosition deltaTime
    (PhysicsEngine.limitVelocity
       (PhysicsEngine.updateVelocity deltaTime
          (PhysicsEngine.applyFriction deltaTime
             (PhysicsEngine.applyGravity this)))).

Definition collisionAfterIntegration (dt : R) (this : PhysicsEngine)
  : Collision :=
  circleHexagonCollision
    (position (PhysicsEngine.ballState (integrated dt this)))
    (ballRadius (PhysicsEngine.config (integrated dt this)))
    (PhysicsEngine.hexagon (integrated dt this)).

(** The velocity after drag and integration of the acceleration, before the
    speed clamp: [(vx (1 - friction dt) + ax dt,
                   vy (1 - friction dt) + (ay + gravity) dt)]. *)
Definition unclampedVelocity (cfg : PhysicsConfig) (b : BallState) (dt : R)
  : Vector2D :=
  vec (Vector2D.x (velocity b) * (1 - friction cfg * dt)
       + Vector2D.x (acceleration b) * dt)
      (Vector2D.y (velocity b) * (1 - friction cfg * dt)
       + (Vector2D.y (acceleration b) + gravity cfg) * dt).

(** The loop state of [circleHexagonCollision] right after the edge [e] has
    been recorded as the closest one to [p]. *)
Definition recordedClosest (p : Vector2D) (e : HexagonEdge) : Closest :=
  mkClosest (Some e) (Finite (edgeDistance p e))
            (Some (closestPoint (distanceToEdge p (start e) (end_ e)))).

(** ** Further code of the core and of its caller

    [getHexagonBounds] (hexagon.ts) folds [Math.min] and [Math.max] from
    [Infinity] and [-Infinity]; its accumulators are numbers extended with
    the two infinities. *)

Inductive Extended : Type :=
| MinusInfinity
| Number (x : R)
| PlusInfinity.

Definition Math_min (a b : Extended) : Extended :=
  match a, b with
  | MinusInfinity, _ | _, MinusInfinity => MinusInfinity
  | PlusInfinity, other | other, PlusInfinity => other
  | Number x, Number y => Number (Rmin x y)
  end.

Definition Math_max (a b : Extended) : Extended :=
  match a, b with
  | PlusInfinity, _ | _, PlusInfinity => PlusInfinity
  | MinusInfinity, other | other, MinusInfinity => other
  | Number x, Number y => Number (Rmax x y)
  end.

Record Bounds : Type := mkBounds {
  minX : Extended;
  maxX : Extended;
  minY : Extended;
  maxY : Extended
}.

Definition boundsStep (acc : Bounds) (vertex : Vector2D) : Bounds :=
  mkBounds (Math_min (minX acc) (Number (Vector2D.x vertex)))
           (Math_max (maxX acc) (Number (Vector2D.x vertex)))
           (Math_min (minY acc) (Number (Vector2D.y vertex)))
           (Math_max (maxY acc) (Number (Vector2D.y vertex))).

Definition getHexagonBounds (hexagon : Hexagon) : Bounds :=
  fold_left boundsStep (vertices hexagon)
    (mkBounds PlusInfinity MinusInfinity PlusInfinity MinusInfinity).

(** The frame loop of [BouncingBall.tsx]: the timestep handed to
    [engine.update], the trail of past positions and the particle system. *)

Definition frameDeltaTime (currentTime lastTime : R) : R :=
  Rmin ((currentTime - lastTime) / 1000) 0.016.

Definition maxTrails : nat := 50.

(** [[...prev, state.position.clone()].slice(-maxTrails)]: the last
    [maxTrails] elements. *)
Definition updateTrails (prev : list Vector2D) (position : Vector2D)
  : list Vector2D :=
  let newTrails := prev ++ [Vector2D.clone position] in
  skipn (length newTrails - maxTrails) newTrails.

Module Particle.

Record t : Type := mk {
  position : Vector2D;
  velocity : Vector2D;
  life : R;
  maxLife : R;
  size : R;
  color : String.string
}.

End Particle.

Definition particleStep (deltaTime : R) (particle : Particle.t) : Particle.t :=
  Particle.mk
    (Vector2D.add (Particle.position particle)
       (Vector2D.multiply (Particle.velocity particle) deltaTime))
    (Vector2D.multiply (Particle.velocity particle) 0.98)
    (Particle.life particle - deltaTime)
    (Particle.maxLife particle)
    (Particle.size particle)
    (Particle.color particle).

Definition updateParticles (deltaTime : R) (prev : list Particle.t)
  : list Particle.t :=
  filter (fun particle => gtb (Particle.life particle) 0)
         (map (particleStep deltaTime) prev).

(** Statement-level notions for the properties of this code. *)

(** The point of the segment from [a] to [b] at parameter [t]. *)
Definition segmentPoint (a b : Vector2D) (t : R) : Vector2D :=
  Vector2D.add a (Vector2D.multiply (Vector2D.subtract b a) t).

(** Every number the generator will return is in [[0, 1)], as
    [Math.random()] promises. *)
Definition unitDraws (rs : RandomSource) : Prop :=
  forall n : nat, 0 <= draws rs n < 1.

(** [x0], [x1], [y0], [y1] are the least and greatest coordinates among the
    vectors of [s]. *)
Definition tightBounds (s : list Vector2D) (x0 x1 y0 y1 : R) : Prop :=
  (forall v : Vector2D, In v s ->
     x0 <= Vector2D.x v <= x1 /\ y0 <= Vector2D.y v <= y1) /\
  (exists v : Vector2D, In v s /\ Vector2D.x v = x0) /\
  (exists v : Vector2D, In v s /\ Vector2D.x v = x1) /\
  (exists v : Vector2D, In v s /\ Vector2D.y v = y0) /\
  (exists v : Vector2D, In v s /\ Vector2D.y v = y1).

(** * Verification *)

(** ** Numbers *)

Lemma ltb_true (a b : R) : ltb a b = true <-> a < b.
Proof. unfold ltb; destruct (Rlt_dec a b); split; intros; try easy. Qed.

Lemma ltb_false (a b : R) : ltb a b = false <-> b <= a.
Proof.
  unfold ltb; destruct (Rlt_dec a b); split; intros; try easy; lra.
Qed.

Lemma leb_true (a b : R) : leb a b = true <-> a <= b.
Proof. unfold leb; destruct (Rle_dec a b); split; intros; try easy. Qed.

Lemma leb_false (a b : R) : leb a b = false <-> b < a.
Proof.
  unfold leb; destruct (Rle_dec a b); split; intros; try easy; lra.
Qed.

Lemma eqb_true (a b : R) : eqb a b = true <-> a = b.
Proof. unfold eqb; destruct (Req_dec_T a b); split; intros; try easy. Qed.

Lemma eqb_false (a b : R) : eqb a b = false <-> a <> b.
Proof. unfold eqb; destruct (Req_dec_T a b); split; intros; try easy. Qed.

Lemma sqrt_sq_eq (a b : R) : 0 <= b -> a = b * b -> sqrt a = b.
Proof. intros Hb ->. now apply sqrt_square. Qed.

Lemma sum_sq_nonneg (a b : R) : 0 <= a * a + b * b.
Proof.
  pose proof (Rle_0_sqr a) as Ha. pose proof (Rle_0_sqr b) as Hb.
  unfold Rsqr in Ha, Hb. lra.
Qed.

(** The clamped parameter always lies in [[0, 1]]. *)
Lemma clamp_range (u : R) : 0 <= Rmax 0 (Rmin 1 u) <= 1.
Proof.
  unfold Rmax, Rmin.
  destruct (Rle_dec 1 u); destruct (Rle_dec 0 _); lra.
Qed.

Lemma Rmin_clamped (dt : R) : 0.016 <= dt -> Rmin dt 0.016 = 0.016.
Proof. intros H. apply Rmin_right. exact H. Qed.

Lemma Rmin_unclamped (dt : R) : dt <= 0.016 -> Rmin dt 0.016 = dt.
Proof. intros H. apply Rmin_left. exact H. Qed.

Lemma Rmin_zero_dt : Rmin 0 0.016 = 0.
Proof. apply Rmin_unclamped. lra. Qed.

Lemma sqrt3_sq : sqrt 3 * sqrt 3 = 3.
Proof. apply sqrt_sqrt. lra. Qed.

Lemma sqrt3_pos : 0 < sqrt 3.
Proof. apply sqrt_lt_R0. lra. Qed.

Lemma sqrt3_bounds : 1.7 < sqrt 3 < 1.8.
Proof.
  split.
  - rewrite <- (sqrt_square 1.7) by lra. apply sqrt_lt_1; lra.
  - rewrite <- (sqrt_square 1.8) by lra. apply sqrt_lt_1; lra.
Qed.

Lemma cos_sin_sq (a : R) : cos a * cos a + sin a * sin a = 1.
Proof. pose proof (sin2_cos2 a) as H. unfold Rsqr in H. lra. Qed.

Lemma cos_shift (a : R) : cos (a + PI / 3) = cos a / 2 - sin a * sqrt 3 / 2.
Proof. rewrite cos_plus, cos_PI3, sin_PI3. lra. Qed.

Lemma sin_shift (a : R) : sin (a + PI / 3) = sin a / 2 + cos a * sqrt 3 / 2.
Proof. rewrite sin_plus, cos_PI3, sin_PI3. lra. Qed.

Lemma list_eq_dec_nil {A : Type} (l : list A) : {l = []} + {l <> []}.
Proof. destruct l; [now left | right; discriminate]. Qed.

(** ** Vectors *)

Lemma magnitude_nonneg (v : Vector2D) : 0 <= Vector2D.magnitude v.
Proof. apply sqrt_pos. Qed.

Lemma magnitude_sq (v : Vector2D) :
  Vector2D.magnitude v * Vector2D.magnitude v = Vector2D.magnitudeSquared v.
Proof.
  unfold Vector2D.magnitude, Vector2D.magnitudeSquared.
  apply sqrt_sqrt. nra.
Qed.

Lemma magnitude_as_sqrt (v : Vector2D) :
  Vector2D.magnitude v = sqrt (Vector2D.magnitudeSquared v).
Proof. reflexivity. Qed.

Lemma magnitudeSquared_nonneg (v : Vector2D) :
  0 <= Vector2D.magnitudeSquared v.
Proof. unfold Vector2D.magnitudeSquared. nra. Qed.

Lemma magnitude_scale (v : Vector2D) (k : R) :
  0 <= k ->
  Vector2D.magnitude (vec (Vector2D.x v * k) (Vector2D.y v * k))
  = k * Vector2D.magnitude v.
Proof.
  intros Hk. unfold Vector2D.magnitude at 1. cbn.
  apply sqrt_sq_eq.
  - apply Rmult_le_pos; [exact Hk | apply magnitude_nonneg].
  - pose proof (magnitude_sq v) as H. unfold Vector2D.magnitudeSquared in H.
    nra.
Qed.

Lemma magnitude_le (v : Vector2D) (bound : R) :
  0 <= bound ->
  Vector2D.x v * Vector2D.x v + Vector2D.y v * Vector2D.y v <= bound * bound ->
  Vector2D.magnitude v <= bound.
Proof.
  intros Hb Hsq. unfold Vector2D.magnitude.
  rewrite <- (sqrt_square bound) by lra.
  apply sqrt_le_1; [apply sum_sq_nonneg | nra | exact Hsq].
Qed.

Lemma magnitude_known (v : Vector2D) (m : R) :
  0 <= m ->
  Vector2D.x v * Vector2D.x v + Vector2D.y v * Vector2D.y v = m * m ->
  Vector2D.magnitude v = m.
Proof. intros Hm Hsq. unfold Vector2D.magnitude. now apply sqrt_sq_eq. Qed.

Lemma unit_of_magnitude (n : Vector2D) :
  Vector2D.magnitude n = 1 ->
  Vector2D.x n * Vector2D.x n + Vector2D.y n * Vector2D.y n = 1.
Proof.
  intros Hu. pose proof (magnitude_sq n) as H. rewrite Hu in H.
  unfold Vector2D.magnitudeSquared in H. lra.
Qed.

Lemma distance_as_magnitude (p q : Vector2D) :
  Vector2D.distance p q = Vector2D.magnitude (Vector2D.subtract p q).
Proof. reflexivity. Qed.

Lemma magnitude_subtract_sym (p q : Vector2D) :
  Vector2D.magnitude (Vector2D.subtract p q)
  = Vector2D.magnitude (Vector2D.subtract q p).
Proof.
  unfold Vector2D.magnitude, Vector2D.subtract; cbn [Vector2D.x Vector2D.y].
  f_equal. ring.
Qed.

Lemma distance_lt (p q : Vector2D) (bound : R) :
  0 < bound ->
  (Vector2D.x p - Vector2D.x q) * (Vector2D.x p - Vector2D.x q)
  + (Vector2D.y p - Vector2D.y q) * (Vector2D.y p - Vector2D.y q)
  < bound * bound ->
  Vector2D.distance p q < bound.
Proof.
  intros Hb Hsq. unfold Vector2D.distance. cbv zeta.
  rewrite <- (sqrt_square bound) by lra.
  apply sqrt_lt_1; [apply sum_sq_nonneg | nra | exact Hsq].
Qed.

Lemma magnitudeSquared_zero (a b : Vector2D) :
  Vector2D.magnitudeSquared (Vector2D.subtract b a) = 0 <-> a = b.
Proof.
  destruct a as [ax ay], b as [bx by_].
  unfold Vector2D.magnitudeSquared, Vector2D.subtract;
    cbn [Vector2D.x Vector2D.y].
  split.
  - intros H.
    destruct (Rplus_sqr_eq_0 (bx - ax) (by_ - ay)) as [Hx Hy];
      [unfold Rsqr; exact H|].
    f_equal; lra.
  - intros H. injection H as H1 H2. subst. ring.
Qed.

Lemma normalize_known (v : Vector2D) (m : R) :
  0 < m ->
  Vector2D.x v * Vector2D.x v + Vector2D.y v * Vector2D.y v = m * m ->
  Vector2D.normalize v = vec (Vector2D.x v / m) (Vector2D.y v / m).
Proof.
  intros Hm Hsq. unfold Vector2D.normalize.
  assert (Hmag : Vector2D.magnitude v = m).
  { unfold Vector2D.magnitude. apply sqrt_sq_eq; lra. }
  rewrite Hmag.
  destruct (eqb m 0) eqn:E.
  - apply eqb_true in E. lra.
  - reflexivity.
Qed.

Lemma dot_le_magnitude (n w : Vector2D) :
  Vector2D.x n * Vector2D.x n + Vector2D.y n * Vector2D.y n = 1 ->
  Vector2D.dot n w <= Vector2D.magnitude w.
Proof.
  intros Hn. unfold Vector2D.dot, Vector2D.magnitude.
  destruct n as [nx ny], w as [wx wy]; cbn [Vector2D.x Vector2D.y] in *.
  destruct (Rle_dec (nx * wx + ny * wy) 0) as [Hneg | Hpos].
  - pose proof (sqrt_pos (wx * wx + wy * wy)). lra.
  - rewrite <- (sqrt_square (nx * wx + ny * wy)) by lra.
    apply sqrt_le_1; try nra.
    pose proof (Rle_0_sqr (nx * wy - ny * wx)) as Hsq. unfold Rsqr in Hsq.
    nra.
Qed.

(** ** Shape of [createHexagon] *)

Section RegularHexagon.

Variables (c : Vector2D) (r theta : R).

Lemma vertices_createHexagon (i : nat) :
  (i < 6)%nat ->
  nth i (vertices (createHexagon c r theta)) (vec 0 0)
  = hexVertex c r theta i.
Proof.
  intros Hi. unfold createHexagon; cbn [vertices].
  do 6 (destruct i as [|i]; [reflexivity|]). lia.
Qed.

(** The successor vertex, modulo 6, sits 60 degrees further. *)
Lemma next_vertex (i : nat) :
  (i < 6)%nat ->
  hexVertex c r theta ((i + 1) mod 6)
  = vec (Vector2D.x c + r * cos (vertexAngle theta i + PI / 3))
        (Vector2D.y c + r * sin (vertexAngle theta i + PI / 3)).
Proof.
  intros Hi. unfold hexVertex, vertexAngle.
  do 5 (destruct i as [|i];
        [ cbn [Nat.modulo Nat.add]; simpl; do 4 f_equal; try lra; field |]).
  destruct i as [|i]; [|lia].
  replace ((5 + 1) mod 6)%nat with 0%nat by reflexivity.
  replace (INR 5 * PI / 3 + theta + PI / 3)
    with ((INR 0 * PI / 3 + theta) + 2 * INR 1 * PI) by (simpl; lra).
  now rewrite cos_period, sin_period.
Qed.

Hypothesis radius_pos : 0 < r.

Lemma hexEdge_createHexagon (i : nat) :
  (i < 6)%nat ->
  hexEdge (vertices (createHexagon c r theta)) i
  = mkEdge (hexVertex c r theta i)
           (hexVertex c r theta ((i + 1) mod 6))
           (edgeNormal theta i).
Proof.
  intros Hi. unfold hexEdge.
  rewrite (vertices_createHexagon i Hi).
  rewrite (vertices_createHexagon ((i + 1) mod 6))
    by (apply Nat.mod_upper_bound; lia).
  f_equal.
  rewrite (next_vertex i Hi).
  unfold hexVertex at 1 2. fold (vertexAngle theta i).
  rewrite cos_shift, sin_shift.
  unfold Vector2D.subtract; cbn [Vector2D.x Vector2D.y].
  pose proof (cos_sin_sq (vertexAngle theta i)) as Hcs.
  pose proof sqrt3_sq as H3.
  rewrite (normalize_known _ r radius_pos).
  - unfold edgeNormal; cbn [Vector2D.x Vector2D.y]. f_equal; field; lra.
  - cbn [Vector2D.x Vector2D.y]. nra.
Qed.

Lemma edges_createHexagon (i : nat) (d : HexagonEdge) :
  (i < 6)%nat ->
  nth i (edges (createHexagon c r theta)) d
  = mkEdge (hexVertex c r theta i)
           (hexVertex c r theta ((i + 1) mod 6))
           (edgeNormal theta i).
Proof.
  intros Hi. rewrite <- (hexEdge_createHexagon i Hi).
  unfold createHexagon at 1; cbn [edges].
  do 6 (destruct i as [|i]; [reflexivity|]). lia.
Qed.

End RegularHexagon.

Lemma edgeNormal_unit (theta : R) (i : nat) :
  Vector2D.magnitude (edgeNormal theta i) = 1.
Proof.
  unfold Vector2D.magnitude, edgeNormal; cbn [Vector2D.x Vector2D.y].
  pose proof (cos_sin_sq (vertexAngle theta i)) as Hcs.
  pose proof sqrt3_sq as H3.
  apply sqrt_sq_eq; [lra | nra].
Qed.

Lemma hexVertex_distance (c : Vector2D) (r theta : R) (i : nat) :
  0 < r -> Vector2D.distance (hexVertex c r theta i) c = r.
Proof.
  intros Hr. unfold Vector2D.distance, hexVertex; cbn [Vector2D.x Vector2D.y].
  pose proof (cos_sin_sq (INR i * PI / 3 + theta)) as Hcs.
  apply sqrt_sq_eq; [lra | nra].
Qed.

(** C4. For every center [c], radius [r > 0] and rotation [theta],
    [createHexagon c r theta] has exactly 6 vertices, vertex [k] being the
    point at distance [r] from [c] at angle [theta + k * 60 degrees], and
    exactly 6 edges, edge [i] going from vertex [i] to vertex [(i + 1) mod 6]
    with a normal that has unit length, is perpendicular to the edge
    direction and points toward [c]: its dot product with
    [c - midpoint(edge)] is positive. *)
Theorem createHexagon_regular (c : Vector2D) (r theta : R) :
  0 < r ->
  let h := createHexagon c r theta in
  length (vertices h) = 6%nat /\
  length (edges h) = 6%nat /\
  (forall k : nat, (k < 6)%nat ->
     let v := nth k (vertices h) (vec 0 0) in
     v = vec (Vector2D.x c + r * cos (theta + INR k * (PI / 3)))
             (Vector2D.y c + r * sin (theta + INR k * (PI / 3))) /\
     Vector2D.distance v c = r) /\
  (forall (i : nat) (d : HexagonEdge), (i < 6)%nat ->
     let e := nth i (edges h) d in
     start e = nth i (vertices h) (vec 0 0) /\
     end_ e = nth ((i + 1) mod 6) (vertices h) (vec 0 0) /\
     Vector2D.magnitude (normal e) = 1 /\
     Vector2D.dot (normal e) (edgeVector e) = 0 /\
     0 < Vector2D.dot (normal e) (Vector2D.subtract c (midpoint e))).
Proof.
  intros Hr h. subst h.
  split; [reflexivity|]. split; [reflexivity|]. split.
  - intros k Hk v. subst v. rewrite (vertices_createHexagon c r theta k Hk).
    split.
    + unfold hexVertex. do 2 f_equal; f_equal; f_equal; lra.
    + now apply hexVertex_distance.
  - intros i d Hi e. subst e.
    rewrite (edges_createHexagon c r theta Hr i d Hi).
    rewrite (vertices_createHexagon c r theta i Hi).
    rewrite (vertices_createHexagon c r theta ((i + 1) mod 6))
      by (apply Nat.mod_upper_bound; lia).
    cbn [start end_ normal].
    split; [reflexivity|]. split; [reflexivity|].
    split; [apply edgeNormal_unit|].
    unfold edgeVector, midpoint; cbn [start end_].
    rewrite (next_vertex c r theta i Hi).
    unfold hexVertex, edgeNormal. fold (vertexAngle theta i).
    rewrite cos_shift, sin_shift.
    unfold Vector2D.dot, Vector2D.subtract; cbn [Vector2D.x Vector2D.y].
    pose proof (cos_sin_sq (vertexAngle theta i)) as Hcs.
    pose proof sqrt3_sq as H3. pose proof sqrt3_pos as H3p.
    set (C := cos (vertexAngle theta i)) in *.
    set (S := sin (vertexAngle theta i)) in *.
    set (s := sqrt 3) in *.
    split.
    + nra.
    + match goal with
      | |- 0 < ?inward =>
          replace inward with (r * s / 2 * (C * C + S * S)) by field
      end.
      rewrite Hcs. nra.
Qed.

(** The hexagon of the demo: radius 200 around [(400, 300)]. *)
Lemma createHexagon_regular_witness :
  let h := createHexagon (vec 400 300) 200 0 in
  0 < 200 /\
  length (vertices h) = 6%nat /\
  length (edges h) = 6%nat /\
  (forall k : nat, (k < 6)%nat ->
     Vector2D.distance (nth k (vertices h) (vec 0 0)) (vec 400 300) = 200) /\
  (forall (i : nat) (d : HexagonEdge), (i < 6)%nat ->
     Vector2D.magnitude (normal (nth i (edges h) d)) = 1 /\
     0 < Vector2D.dot (normal (nth i (edges h) d))
           (Vector2D.subtract (vec 400 300) (midpoint (nth i (edges h) d)))).
Proof.
  assert (Hr : 0 < 200) by lra.
  pose proof (createHexagon_regular (vec 400 300) 200 0 Hr) as H.
  cbv zeta in *. destruct H as (Hv & He & Hvert & Hedge).
  split; [exact Hr|]. split; [exact Hv|]. split; [exact He|]. split.
  - intros k Hk. exact (proj2 (Hvert k Hk)).
  - intros i d Hi. destruct (Hedge i d Hi) as (_ & _ & Hu & _ & Hin).
    split; assumption.
Defined.

(** ** [distanceToEdge] *)

(** The parts of the contract of [distanceToEdge] that hold: the closest
    point is [a + (b - a) * t] for the projection parameter clamped to
    [[0, 1]], the distance is measured to that point, and a zero-length
    segment gives the distance to [a]. *)
Lemma distanceToEdge_closest (p a b : Vector2D) :
  let res := distanceToEdge p a b in
  distance res = Vector2D.distance p (closestPoint res) /\
  (a = b -> closestPoint res = a /\ distance res = Vector2D.distance p a) /\
  (a <> b ->
   let t := Rmax 0 (Rmin 1 (projectionParameter p a b)) in
   0 <= t <= 1 /\
   closestPoint res
   = Vector2D.add a (Vector2D.multiply (Vector2D.subtract b a) t)).
Proof.
  unfold distanceToEdge, projectionParameter.
  destruct (eqb (Vector2D.magnitudeSquared (Vector2D.subtract b a)) 0) eqn:E;
    cbn [distance closestPoint].
  - apply eqb_true, magnitudeSquared_zero in E.
    repeat split; try reflexivity; intros; contradiction.
  - apply eqb_false in E.
    split; [reflexivity|]. split.
    + intros Heq. apply magnitudeSquared_zero in Heq. contradiction.
    + intros _. split; [apply clamp_range | reflexivity].
Qed.

(** The flag is computed from the clamped parameter, so it never is false. *)
Lemma distanceToEdge_isOnSegment (p a b : Vector2D) :
  isOnSegment (distanceToEdge p a b) = true.
Proof.
  unfold distanceToEdge.
  destruct (eqb _ 0); cbn [isOnSegment]; [reflexivity|].
  pose proof (clamp_range
    (Vector2D.dot (Vector2D.subtract p a) (Vector2D.subtract b a)
     / Vector2D.magnitudeSquared (Vector2D.subtract b a))) as [H0 H1].
  apply andb_true_iff; split; apply leb_true; assumption.
Qed.

(** C3. [distanceToEdge] at the point [(3, 1)] and the segment from [(0, 0)]
    to [(1, 0)]: the projection of the point onto the line has parameter [3],
    outside [[0, 1]], so the unclamped projection misses the segment; the
    closest point [(1, 0)] and the distance [sqrt 5] are those of the clamped
    parameter, but the code reports [isOnSegment = true], because the flag is
    computed from the parameter after clamping. *)
Theorem distanceToEdge_flag_after_clamp :
  let p := vec 3 1 in
  let a := vec 0 0 in
  let b := vec 1 0 in
  projectionParameter p a b = 3 /\
  ~ (0 <= projectionParameter p a b <= 1) /\
  closestPoint (distanceToEdge p a b) = vec 1 0 /\
  distance (distanceToEdge p a b) = sqrt 5 /\
  isOnSegment (distanceToEdge p a b) = true.
Proof.
  cbv zeta.
  assert (Hp : projectionParameter (vec 3 1) (vec 0 0) (vec 1 0) = 3).
  { unfold projectionParameter, Vector2D.dot, Vector2D.magnitudeSquared,
      Vector2D.subtract; cbn [Vector2D.x Vector2D.y]. field. }
  split; [exact Hp|]. split; [rewrite Hp; lra|].
  pose proof (distanceToEdge_closest (vec 3 1) (vec 0 0) (vec 1 0)) as H.
  cbv zeta in H. destruct H as (Hd & _ & Hne).
  destruct Hne as [_ Hc]; [intros H; injection H; lra|].
  rewrite Hp in Hc.
  replace (Rmax 0 (Rmin 1 3)) with 1 in Hc
    by (unfold Rmax, Rmin; destruct (Rle_dec 1 3); destruct (Rle_dec 0 _); lra).
  assert (Hc' : closestPoint (distanceToEdge (vec 3 1) (vec 0 0) (vec 1 0))
                = vec 1 0).
  { rewrite Hc. unfold Vector2D.add, Vector2D.multiply, Vector2D.subtract;
      cbn [Vector2D.x Vector2D.y]. f_equal; ring. }
  split; [exact Hc'|]. split.
  - rewrite Hd, Hc'. unfold Vector2D.distance; cbn [Vector2D.x Vector2D.y].
    f_equal. ring.
  - apply distanceToEdge_isOnSegment.
Qed.

(** ** The scan of [circleHexagonCollision] *)

Section Scan.

Variable p : Vector2D.

Lemma closestStep_recorded (e0 e : HexagonEdge) :
  closestStep p (recordedClosest p e0) e
  = if ltb (edgeDistance p e) (edgeDistance p e0)
    then recordedClosest p e
    else recordedClosest p e0.
Proof. reflexivity. Qed.

(** Once an edge is recorded, the scan of the remaining edges ends on a
    recorded edge that is nearest among the recorded one and the rest. *)
Lemma scan_from_recorded (l : list HexagonEdge) :
  forall e0 : HexagonEdge,
  exists e : HexagonEdge,
    fold_left (closestStep p) l (recordedClosest p e0) = recordedClosest p e /\
    (e = e0 \/ In e l) /\
    edgeDistance p e <= edgeDistance p e0 /\
    (forall e' : HexagonEdge,
       In e' l -> edgeDistance p e <= edgeDistance p e').
Proof.
  induction l as [|a l IH]; intros e0.
  - exists e0. cbn. repeat split; auto; try lra. intros e' [].
  - cbn [fold_left]. rewrite closestStep_recorded.
    destruct (ltb (edgeDistance p a) (edgeDistance p e0)) eqn:E.
    + apply ltb_true in E.
      destruct (IH a) as (e & Hf & Hin & Hle & Hmin).
      exists e. split; [exact Hf|]. split.
      * right. destruct Hin as [-> | Hin]; [now left | now right].
      * split; [lra|]. intros e' [<- | He']; [exact Hle | now apply Hmin].
    + apply ltb_false in E.
      destruct (IH e0) as (e & Hf & Hin & Hle & Hmin).
      exists e. split; [exact Hf|]. split.
      * destruct Hin as [-> | Hin]; [now left | right; now right].
      * split; [exact Hle|]. intros e' [<- | He']; [lra | now apply Hmin].
Qed.

(** A later edge replaces the recorded one only when strictly nearer: among
    equally near edges the first one scanned is reported. *)
Lemma scan_keeps_first (l : list HexagonEdge) (e0 : HexagonEdge) :
  (forall e' : HexagonEdge,
     In e' l -> edgeDistance p e0 <= edgeDistance p e') ->
  fold_left (closestStep p) l (recordedClosest p e0) = recordedClosest p e0.
Proof.
  induction l as [|a l IH]; intros Hall; [reflexivity|].
  cbn [fold_left]. rewrite closestStep_recorded.
  replace (ltb (edgeDistance p a) (edgeDistance p e0)) with false.
  - apply IH. intros e' He'. apply Hall. now right.
  - symmetry. apply ltb_false. apply Hall. now left.
Qed.

(** With at least one edge, the scan ends on a nearest edge. *)
Lemma closestScan_nearest (l : list HexagonEdge) :
  l <> [] ->
  exists e : HexagonEdge,
    closestScan p l = recordedClosest p e /\
    In e l /\
    (forall e' : HexagonEdge,
       In e' l -> edgeDistance p e <= edgeDistance p e').
Proof.
  destruct l as [|e0 l]; [congruence|]. intros _.
  unfold closestScan. cbn [fold_left].
  change (closestStep p (mkClosest None Infinity None) e0)
    with (recordedClosest p e0).
  destruct (scan_from_recorded l e0) as (e & Hf & Hin & Hle & Hmin).
  exists e. split; [exact Hf|]. split.
  - destruct Hin as [-> | Hin]; [now left | now right].
  - intros e' [<- | He']; [exact Hle | now apply Hmin].
Qed.

End Scan.

(** The result of [circleHexagonCollision] in terms of a nearest edge. *)
Lemma collision_of_nearest (p : Vector2D) (rad : R) (h : Hexagon) :
  edges h <> [] ->
  exists e : HexagonEdge,
    In e (edges h) /\
    (forall e' : HexagonEdge,
       In e' (edges h) -> edgeDistance p e <= edgeDistance p e') /\
    closestScan p (edges h) = recordedClosest p e /\
    circleHexagonCollision p rad h
    = if leb (edgeDistance p e) rad
      then mkCollision true (Some e)
             (Some (closestPoint (distanceToEdge p (start e) (end_ e))))
             (Some (rad - edgeDistance p e))
      else mkCollision false None None None.
Proof.
  intros Hne.
  destruct (closestScan_nearest p (edges h) Hne) as (e & Hscan & Hin & Hmin).
  exists e. repeat split; try assumption.
  unfold circleHexagonCollision. rewrite Hscan.
  cbn [closestEdge closestPoint_ closestDistance]. reflexivity.
Qed.

(** C5. For every circle center [p], radius [rad] and hexagon [h] with its 6
    edges, there is an edge [e] of [h] whose distance from [p] (as
    [distanceToEdge] measures it) is the minimum over all edges, such that
    [circleHexagonCollision p rad h] reports [isColliding = true] if and only
    if that minimum is at most [rad]; when it is, the result carries [e], the
    closest point on [e] and the penetration depth [rad - minimum]; when it
    is not, the result carries nothing else. *)
Theorem circleHexagonCollision_min_edge (p : Vector2D) (rad : R) (h : Hexagon) :
  length (edges h) = 6%nat ->
  exists e : HexagonEdge,
    In e (edges h) /\
    (forall e' : HexagonEdge,
       In e' (edges h) -> edgeDistance p e <= edgeDistance p e') /\
    (isColliding (circleHexagonCollision p rad h) = true
     <-> edgeDistance p e <= rad) /\
    (edgeDistance p e <= rad ->
     circleHexagonCollision p rad h
     = mkCollision true (Some e)
         (Some (closestPoint (distanceToEdge p (start e) (end_ e))))
         (Some (rad - edgeDistance p e))) /\
    (rad < edgeDistance p e ->
     circleHexagonCollision p rad h = mkCollision false None None None).
Proof.
  intros Hlen.
  assert (Hne : edges h <> []).
  { intros E. rewrite E in Hlen. discriminate. }
  destruct (collision_of_nearest p rad h Hne) as (e & Hin & Hmin & _ & Hres).
  exists e. split; [exact Hin|]. split; [exact Hmin|].
  rewrite Hres.
  destruct (leb (edgeDistance p e) rad) eqn:E.
  - apply leb_true in E. cbn [isColliding].
    split; [split; intros; [exact E | reflexivity]|].
    split; intros; [reflexivity | lra].
  - apply leb_false in E. cbn [isColliding].
    split; [split; intros; [discriminate | lra]|].
    split; intros; [lra | reflexivity].
Qed.

(** The hexagon of the demo has its 6 edges, so the scan applies to it. *)
Lemma circleHexagonCollision_min_edge_witness :
  length (edges (createHexagon (vec 400 300) 200 0)) = 6%nat /\
  exists e : HexagonEdge,
    In e (edges (createHexagon (vec 400 300) 200 0)) /\
    (isColliding
       (circleHexagonCollision (vec 400 300) 12
          (createHexagon (vec 400 300) 200 0)) = true
     <-> edgeDistance (vec 400 300) e <= 12).
Proof.
  split; [reflexivity|].
  destruct (circleHexagonCollision_min_edge (vec 400 300) 12
              (createHexagon (vec 400 300) 200 0) eq_refl)
    as (e & Hin & _ & Hiff & _).
  exists e. split; assumption.
Defined.

Lemma no_collision_far (p : Vector2D) (rad : R) (h : Hexagon) :
  (forall e : HexagonEdge, In e (edges h) -> rad < edgeDistance p e) ->
  circleHexagonCollision p rad h = mkCollision false None None None.
Proof.
  intros Hfar. destruct (list_eq_dec_nil (edges h)) as [El | Hne].
  - unfold circleHexagonCollision. rewrite El. reflexivity.
  - destruct (collision_of_nearest p rad h Hne) as (e & Hin & _ & _ & Hres).
    rewrite Hres.
    replace (leb (edgeDistance p e) rad) with false; [reflexivity|].
    symmetry. apply leb_false. apply Hfar. exact Hin.
Qed.

(** ** Distances to the edges of a regular hexagon *)

Section RegularHexagonDistances.

Variables (c : Vector2D) (r theta : R).
Hypothesis radius_pos : 0 < r.

Lemma In_edges_createHexagon (e : HexagonEdge) :
  In e (edges (createHexagon c r theta)) ->
  exists i : nat, (i < 6)%nat /\ e = hexEdgeAt c r theta i.
Proof.
  intros Hin. destruct (In_nth _ _ e Hin) as (i & Hi & Hnth).
  change (length (edges (createHexagon c r theta))) with 6%nat in Hi.
  exists i. split; [exact Hi|].
  rewrite <- Hnth. now apply edges_createHexagon.
Qed.

Lemma hexEdgeAt_In (i : nat) :
  (i < 6)%nat -> In (hexEdgeAt c r theta i) (edges (createHexagon c r theta)).
Proof.
  intros Hi. unfold hexEdgeAt.
  rewrite <- (edges_createHexagon c r theta radius_pos i (mkEdge c c c) Hi).
  apply nth_In. exact Hi.
Qed.

Lemma hexEdgeAt_ends_differ (i : nat) :
  (i < 6)%nat ->
  hexVertex c r theta i <> hexVertex c r theta ((i + 1) mod 6).
Proof.
  intros Hi Heq. rewrite (next_vertex c r theta i Hi) in Heq.
  unfold hexVertex in Heq. fold (vertexAngle theta i) in Heq.
  rewrite cos_shift, sin_shift in Heq.
  pose proof (cos_sin_sq (vertexAngle theta i)) as Hcs.
  pose proof sqrt3_sq as H3.
  injection Heq as Hx Hy.
  assert (Hx' : cos (vertexAngle theta i)
                = cos (vertexAngle theta i) / 2
                  - sin (vertexAngle theta i) * sqrt 3 / 2) by nra.
  assert (Hy' : sin (vertexAngle theta i)
                = sin (vertexAngle theta i) / 2
                  + cos (vertexAngle theta i) * sqrt 3 / 2) by nra.
  nra.
Qed.

(** Seen from any point [p], every edge is at least as far as the inradius
    plus the component of [p - c] along the edge's normal. *)
Lemma edgeDistance_lower (p : Vector2D) (i : nat) :
  (i < 6)%nat ->
  inradius r + Vector2D.dot (edgeNormal theta i) (Vector2D.subtract p c)
  <= edgeDistance p (hexEdgeAt c r theta i).
Proof.
  intros Hi. unfold edgeDistance, hexEdgeAt; cbn [start end_].
  pose proof (distanceToEdge_closest p (hexVertex c r theta i)
                (hexVertex c r theta ((i + 1) mod 6))) as H.
  cbv zeta in H. destruct H as (Hd & _ & Hne).
  destruct (Hne (hexEdgeAt_ends_differ i Hi)) as [_ Hc]. clear Hne.
  rewrite Hd, Hc. clear Hd Hc.
  generalize (Rmax 0 (Rmin 1 (projectionParameter p (hexVertex c r theta i)
                (hexVertex c r theta ((i + 1) mod 6))))).
  intros t.
  rewrite distance_as_magnitude.
  eapply Rle_trans; [|apply (dot_le_magnitude (edgeNormal theta i))].
  - rewrite (next_vertex c r theta i Hi).
    unfold hexVertex, edgeNormal, inradius. fold (vertexAngle theta i).
    rewrite cos_shift, sin_shift.
    unfold Vector2D.dot, Vector2D.subtract, Vector2D.add, Vector2D.multiply;
      cbn [Vector2D.x Vector2D.y].
    pose proof (cos_sin_sq (vertexAngle theta i)) as Hcs.
    pose proof sqrt3_sq as H3.
    set (C := cos (vertexAngle theta i)) in *.
    set (S := sin (vertexAngle theta i)) in *.
    set (s := sqrt 3) in *.
    apply Req_le.
    replace (r * s / 2) with (r * s / 2 * (C * C + S * S))
      by (rewrite Hcs; ring).
    field.
  - apply unit_of_magnitude, edgeNormal_unit.
Qed.

End RegularHexagonDistances.

Lemma normal_unit_createHexagon (c : Vector2D) (r theta : R) (e : HexagonEdge) :
  0 < r ->
  In e (edges (createHexagon c r theta)) ->
  Vector2D.x (normal e) * Vector2D.x (normal e)
  + Vector2D.y (normal e) * Vector2D.y (normal e) = 1.
Proof.
  intros Hr Hin.
  destruct (In_edges_createHexagon c r theta Hr e Hin) as (i & Hi & ->).
  cbn [hexEdgeAt normal]. apply unit_of_magnitude, edgeNormal_unit.
Qed.

(** A ball that fits between its center's offset and the inradius touches
    no edge. *)
Lemma no_collision_inside
  (c : Vector2D) (r theta : R) (p : Vector2D) (rad : R) :
  0 < r ->
  Vector2D.distance p c + rad < inradius r ->
  forall e : HexagonEdge,
    In e (edges (createHexagon c r theta)) -> rad < edgeDistance p e.
Proof.
  intros Hr Hfit e Hin.
  destruct (In_edges_createHexagon c r theta Hr e Hin) as (i & Hi & ->).
  pose proof (edgeDistance_lower c r theta Hr p i Hi) as Hlow.
  pose proof (dot_le_magnitude (edgeNormal theta i) (Vector2D.subtract c p)
                (unit_of_magnitude _ (edgeNormal_unit theta i))) as Hcs.
  rewrite magnitude_subtract_sym, <- distance_as_magnitude in Hcs.
  assert (Hneg : Vector2D.dot (edgeNormal theta i) (Vector2D.subtract p c)
                 = - Vector2D.dot (edgeNormal theta i) (Vector2D.subtract c p)).
  { unfold Vector2D.dot, Vector2D.subtract; cbn [Vector2D.x Vector2D.y]. ring. }
  lra.
Qed.

(** When edge [j] is within reach and every other edge is provably farther
    than edge [j], the query reports edge [j]. *)
Lemma collision_with_edge
  (c : Vector2D) (r theta : R) (p : Vector2D) (rad : R) (j : nat) :
  0 < r ->
  (j < 6)%nat ->
  edgeDistance p (hexEdgeAt c r theta j) <= rad ->
  (forall k : nat, (k < 6)%nat -> k <> j ->
     edgeDistance p (hexEdgeAt c r theta j)
     < inradius r
       + Vector2D.dot (edgeNormal theta k) (Vector2D.subtract p c)) ->
  circleHexagonCollision p rad (createHexagon c r theta)
  = mkCollision true (Some (hexEdgeAt c r theta j))
      (Some (closestPoint (distanceToEdge p (start (hexEdgeAt c r theta j))
                             (end_ (hexEdgeAt c r theta j)))))
      (Some (rad - edgeDistance p (hexEdgeAt c r theta j))).
Proof.
  intros Hr Hj Hreach Hothers.
  assert (Hne : edges (createHexagon c r theta) <> []) by discriminate.
  destruct (collision_of_nearest p rad (createHexagon c r theta) Hne)
    as (e & Hin & Hmin & _ & Hres).
  destruct (In_edges_createHexagon c r theta Hr e Hin) as (k & Hk & ->).
  destruct (Nat.eq_dec k j) as [-> | Hkj].
  - rewrite Hres.
    replace (leb _ rad) with true by (symmetry; apply leb_true; exact Hreach).
    reflexivity.
  - exfalso.
    pose proof (Hmin _ (hexEdgeAt_In c r theta Hr j Hj)) as Hle.
    pose proof (edgeDistance_lower c r theta Hr p k Hk) as Hlow.
    pose proof (Hothers k Hk Hkj) as Hlt.
    lra.
Qed.

Section CenteredCircle.

Variables (c : Vector2D) (r theta : R).
Hypothesis radius_pos : 0 < r.

Lemma inradius_pos : 0 < inradius r.
Proof. unfold inradius. pose proof sqrt3_pos. nra. Qed.

(** From the center, every edge is at the inradius, its closest point being
    its midpoint. *)
Lemma center_distanceToEdge (i : nat) :
  (i < 6)%nat ->
  distanceToEdge c (hexVertex c r theta i) (hexVertex c r theta ((i + 1) mod 6))
  = mkEdgeDistance (inradius r) (midpoint (hexEdgeAt c r theta i)) true.
Proof.
  intros Hi.
  pose proof (distanceToEdge_closest c (hexVertex c r theta i)
                (hexVertex c r theta ((i + 1) mod 6))) as H.
  pose proof (distanceToEdge_isOnSegment c (hexVertex c r theta i)
                (hexVertex c r theta ((i + 1) mod 6))) as Hflag.
  cbv zeta in H. destruct H as (Hd & _ & Hne).
  destruct (Hne (hexEdgeAt_ends_differ c r theta radius_pos i Hi))
    as [_ Hc].
  clear Hne.
  destruct (distanceToEdge c (hexVertex c r theta i)
              (hexVertex c r theta ((i + 1) mod 6))) as [d q f].
  cbn [distance closestPoint isOnSegment] in *. subst f d.
  pose proof (cos_sin_sq (vertexAngle theta i)) as Hcs.
  pose proof sqrt3_sq as H3. pose proof sqrt3_pos as H3p.
  assert (Hq : q = midpoint (hexEdgeAt c r theta i)).
  { rewrite Hc.
    unfold projectionParameter, midpoint, hexEdgeAt; cbn [start end_].
    rewrite (next_vertex c r theta i Hi).
    unfold hexVertex. fold (vertexAngle theta i).
    rewrite cos_shift, sin_shift.
    unfold Vector2D.dot, Vector2D.magnitudeSquared, Vector2D.subtract,
      Vector2D.add, Vector2D.multiply; cbn [Vector2D.x Vector2D.y].
    set (C := cos (vertexAngle theta i)) in *.
    set (S := sin (vertexAngle theta i)) in *.
    set (s := sqrt 3) in *.
    match goal with
    | |- context [Rmax 0 (Rmin 1 (?n / ?d))] =>
        replace d with (r * r) by nra; replace n with (r * r / 2) by nra
    end.
    replace (r * r / 2 / (r * r)) with (1 / 2) by (field; lra).
    replace (Rmax 0 (Rmin 1 (1 / 2))) with (1 / 2).
    - f_equal; field.
    - unfold Rmax, Rmin. destruct (Rle_dec 1 (1 / 2)); [lra|].
      destruct (Rle_dec 0 (1 / 2)); lra. }
  f_equal; [|exact Hq].
  rewrite Hq. unfold midpoint, hexEdgeAt; cbn [start end_].
  rewrite (next_vertex c r theta i Hi).
  unfold hexVertex, Vector2D.distance, inradius. fold (vertexAngle theta i).
  rewrite cos_shift, sin_shift. cbn [Vector2D.x Vector2D.y].
  set (C := cos (vertexAngle theta i)) in *.
  set (S := sin (vertexAngle theta i)) in *.
  set (s := sqrt 3) in *.
  apply sqrt_sq_eq; nra.
Qed.

Lemma center_edgeDistance (e : HexagonEdge) :
  In e (edges (createHexagon c r theta)) ->
  edgeDistance c e = inradius r /\
  closestPoint (distanceToEdge c (start e) (end_ e)) = midpoint e.
Proof.
  intros Hin.
  destruct (In_edges_createHexagon c r theta radius_pos e Hin) as (i & Hi & ->).
  unfold edgeDistance. unfold hexEdgeAt at 1 2 3 4; cbn [start end_].
  rewrite (center_distanceToEdge i Hi). split; reflexivity.
Qed.

End CenteredCircle.

(** C6. For every hexagon built by [createHexagon c r theta] with [r > 0]:
    a circle centered exactly at [c] with radius strictly below the inradius
    [r * sqrt 3 / 2] is reported as not colliding, and one with radius
    strictly above the inradius is reported as colliding with some edge of
    the hexagon, with a strictly positive penetration depth. *)
Theorem centered_circle_collision (c : Vector2D) (r theta rad : R) :
  0 < r ->
  let h := createHexagon c r theta in
  (rad < r * sqrt 3 / 2 ->
   isColliding (circleHexagonCollision c rad h) = false) /\
  (r * sqrt 3 / 2 < rad ->
   exists (e : HexagonEdge) (d : R),
     In e (edges h) /\
     isColliding (circleHexagonCollision c rad h) = true /\
     collisionEdge (circleHexagonCollision c rad h) = Some e /\
     penetrationDepth (circleHexagonCollision c rad h) = Some d /\
     0 < d).
Proof.
  intros Hr h.
  assert (Hne : edges h <> []) by discriminate.
  destruct (collision_of_nearest c rad h Hne) as (e & Hin & _ & _ & Hres).
  destruct (center_edgeDistance c r theta Hr e Hin) as [Hd _].
  rewrite Hd in Hres. unfold inradius in Hres. rewrite Hres.
  split; intros Hrad.
  - replace (leb (r * sqrt 3 / 2) rad) with false
      by (symmetry; apply leb_false; exact Hrad).
    reflexivity.
  - replace (leb (r * sqrt 3 / 2) rad) with true
      by (symmetry; apply leb_true; lra).
    exists e, (rad - r * sqrt 3 / 2). cbn.
    repeat split; try reflexivity; [exact Hin | lra].
Qed.

(** The hexagon of the demo (inradius about 173.2) and its 12-pixel ball:
    no collision at the center. *)
Lemma centered_circle_collision_witness :
  0 < 200 /\
  12 < 200 * sqrt 3 / 2 /\
  isColliding
    (circleHexagonCollision (vec 400 300) 12
       (createHexagon (vec 400 300) 200 0)) = false.
Proof.
  assert (Hr : 0 < 200) by lra.
  assert (Hrad : 12 < 200 * sqrt 3 / 2)
    by (pose proof sqrt3_bounds; lra).
  split; [exact Hr|]. split; [exact Hrad|].
  exact (proj1 (centered_circle_collision (vec 400 300) 200 0 12 Hr) Hrad).
Defined.

(** ** The hexagon of the demo, edge by edge *)

Lemma vertexAngle_0_0 : vertexAngle 0 0 = 0.
Proof. unfold vertexAngle. simpl INR. lra. Qed.

Lemma edgeNormal_0_0 : edgeNormal 0 0 = vec (- sqrt 3 / 2) (- 1 / 2).
Proof.
  unfold edgeNormal. rewrite vertexAngle_0_0, cos_0, sin_0. f_equal; lra.
Qed.

Lemma vertexAngle_succ (theta : R) (k : nat) :
  vertexAngle theta (S k) = vertexAngle theta k + PI / 3.
Proof. unfold vertexAngle. rewrite S_INR. field. Qed.

Lemma unrotated_directions :
  (cos (vertexAngle 0 0) = 1 /\ sin (vertexAngle 0 0) = 0) /\
  (cos (vertexAngle 0 1) = 1 / 2 /\ sin (vertexAngle 0 1) = sqrt 3 / 2) /\
  (cos (vertexAngle 0 2) = - 1 / 2 /\ sin (vertexAngle 0 2) = sqrt 3 / 2) /\
  (cos (vertexAngle 0 3) = - 1 /\ sin (vertexAngle 0 3) = 0) /\
  (cos (vertexAngle 0 4) = - 1 / 2 /\ sin (vertexAngle 0 4) = - sqrt 3 / 2) /\
  (cos (vertexAngle 0 5) = 1 / 2 /\ sin (vertexAngle 0 5) = - sqrt 3 / 2).
Proof.
  pose proof sqrt3_sq as H3.
  assert (H0 : cos (vertexAngle 0 0) = 1 /\ sin (vertexAngle 0 0) = 0).
  { rewrite vertexAngle_0_0, cos_0, sin_0. split; reflexivity. }
  assert (H1 : cos (vertexAngle 0 1) = 1 / 2
               /\ sin (vertexAngle 0 1) = sqrt 3 / 2).
  { rewrite vertexAngle_succ, cos_shift, sin_shift.
    destruct H0 as [-> ->]. split; lra. }
  assert (H2 : cos (vertexAngle 0 2) = - 1 / 2
               /\ sin (vertexAngle 0 2) = sqrt 3 / 2).
  { rewrite vertexAngle_succ, cos_shift, sin_shift.
    destruct H1 as [-> ->]. split; nra. }
  assert (H3' : cos (vertexAngle 0 3) = - 1 /\ sin (vertexAngle 0 3) = 0).
  { rewrite vertexAngle_succ, cos_shift, sin_shift.
    destruct H2 as [-> ->]. split; nra. }
  assert (H4 : cos (vertexAngle 0 4) = - 1 / 2
               /\ sin (vertexAngle 0 4) = - sqrt 3 / 2).
  { rewrite vertexAngle_succ, cos_shift, sin_shift.
    destruct H3' as [-> ->]. split; lra. }
  assert (H5 : cos (vertexAngle 0 5) = 1 / 2
               /\ sin (vertexAngle 0 5) = - sqrt 3 / 2).
  { rewrite vertexAngle_succ, cos_shift, sin_shift.
    destruct H4 as [-> ->]. split; nra. }
  repeat split; tauto.
Qed.

(** The vertical components of the six normals of an unrotated hexagon: only
    edge 1 faces straight up the screen. *)
Lemma unrotated_normals_y (k : nat) :
  (k < 6)%nat ->
  Vector2D.y (edgeNormal 0 k)
  = match k with
    | 0%nat => - 1 / 2
    | 1%nat => - 1
    | 2%nat => - 1 / 2
    | 3%nat => 1 / 2
    | 4%nat => 1
    | _ => 1 / 2
    end.
Proof.
  intros Hk. pose proof sqrt3_sq as H3.
  destruct unrotated_directions
    as ((C0 & S0) & (C1 & S1) & (C2 & S2) & (C3 & S3) & (C4 & S4) & (C5 & S5)).
  unfold edgeNormal; cbn [Vector2D.y].
  do 6 (destruct k as [|k];
        [ first [ rewrite C0, S0 | rewrite C1, S1 | rewrite C2, S2
                | rewrite C3, S3 | rewrite C4, S4 | rewrite C5, S5 ]; nra |]).
  lia.
Qed.

Lemma unrotated_normal_1 : edgeNormal 0 1 = vec 0 (- 1).
Proof.
  pose proof sqrt3_sq as H3.
  destruct unrotated_directions as (_ & (C1 & S1) & _).
  unfold edgeNormal. rewrite C1, S1. f_equal; nra.
Qed.

(** In the demo hexagon (inradius about 173.2), a ball of radius at most 20
    whose center is within 150 of the hexagon's center touches no edge. *)
Lemma demo_no_collision (p : Vector2D) (rad : R) :
  rad <= 20 ->
  (Vector2D.x p - 400) * (Vector2D.x p - 400)
  + (Vector2D.y p - 300) * (Vector2D.y p - 300) < 150 * 150 ->
  circleHexagonCollision p rad demoHexagon
  = mkCollision false None None None.
Proof.
  intros Hrad Hnear. apply no_collision_far. unfold demoHexagon.
  apply no_collision_inside; [lra|].
  assert (Hd : Vector2D.distance p (vec 400 300) < 150)
    by (apply distance_lt; [lra | exact Hnear]).
  unfold inradius. pose proof sqrt3_bounds. lra.
Qed.

(** The ball 170 below the center of the demo hexagon, measured against the
    bottom edge (edge 1, from [(500, 300 + 100 sqrt 3)] to
    [(300, 300 + 100 sqrt 3)]). *)
Lemma demo_bottom_edge :
  hexEdgeAt (vec 400 300) 200 0 1
  = mkEdge (vec 500 (300 + 100 * sqrt 3)) (vec 300 (300 + 100 * sqrt 3))
           (vec 0 (- 1)).
Proof.
  destruct unrotated_directions as (_ & (C1 & S1) & (C2 & S2) & _).
  unfold hexEdgeAt. rewrite unrotated_normal_1.
  change ((1 + 1) mod 6)%nat with 2%nat.
  unfold hexVertex. fold (vertexAngle 0 1). fold (vertexAngle 0 2).
  rewrite C1, S1, C2, S2. cbn [Vector2D.x Vector2D.y].
  f_equal; f_equal; lra.
Qed.

Lemma demo_bottom_edge_distance :
  distanceToEdge (vec 400 470) (vec 500 (300 + 100 * sqrt 3))
                 (vec 300 (300 + 100 * sqrt 3))
  = mkEdgeDistance (100 * sqrt 3 - 170) (vec 400 (300 + 100 * sqrt 3)) true.
Proof.
  pose proof sqrt3_bounds as Hs.
  set (p := vec 400 470).
  set (a := vec 500 (300 + 100 * sqrt 3)).
  set (b := vec 300 (300 + 100 * sqrt 3)).
  pose proof (distanceToEdge_closest p a b) as H.
  pose proof (distanceToEdge_isOnSegment p a b) as Hflag.
  cbv zeta in H. destruct H as (Hd & _ & Hne).
  destruct Hne as [_ Hc];
    [unfold a, b; intros Heq; injection Heq as Hx; lra|].
  assert (Hproj : projectionParameter p a b = 1 / 2).
  { unfold projectionParameter, Vector2D.dot, Vector2D.magnitudeSquared,
      Vector2D.subtract, p, a, b; cbn [Vector2D.x Vector2D.y].
    match goal with
    | |- ?n / ?d = _ =>
        replace d with 40000 by ring; replace n with 20000 by ring
    end.
    lra. }
  rewrite Hproj in Hc.
  replace (Rmax 0 (Rmin 1 (1 / 2))) with (1 / 2) in Hc.
  2:{ unfold Rmax, Rmin. destruct (Rle_dec 1 (1 / 2)); [lra|].
      destruct (Rle_dec 0 (1 / 2)); lra. }
  assert (Hq : closestPoint (distanceToEdge p a b)
               = vec 400 (300 + 100 * sqrt 3)).
  { rewrite Hc. unfold Vector2D.add, Vector2D.multiply, Vector2D.subtract,
      a, b; cbn [Vector2D.x Vector2D.y]. f_equal; lra. }
  assert (Hd' : distance (distanceToEdge p a b) = 100 * sqrt 3 - 170).
  { rewrite Hd, Hq. unfold Vector2D.distance, p; cbn [Vector2D.x Vector2D.y].
    cbv zeta. apply sqrt_sq_eq; [lra | ring]. }
  clear Hd Hc.
  destruct (distanceToEdge p a b) as [d q f].
  cbn [distance closestPoint isOnSegment] in Hd', Hq, Hflag.
  rewrite Hd', Hq, Hflag. reflexivity.
Qed.

(** The collision query for that ball: the bottom edge, penetration
    [12 - (100 sqrt 3 - 170)]. *)
Lemma demo_bottom_collision :
  circleHexagonCollision (vec 400 470) 12 demoHexagon
  = mkCollision true
      (Some (mkEdge (vec 500 (300 + 100 * sqrt 3))
                    (vec 300 (300 + 100 * sqrt 3)) (vec 0 (- 1))))
      (Some (vec 400 (300 + 100 * sqrt 3)))
      (Some (12 - (100 * sqrt 3 - 170))).
Proof.
  pose proof sqrt3_bounds as Hs.
  assert (Hr : 0 < 200) by lra.
  assert (Hdist : edgeDistance (vec 400 470) (hexEdgeAt (vec 400 300) 200 0 1)
                  = 100 * sqrt 3 - 170).
  { rewrite demo_bottom_edge. unfold edgeDistance; cbn [start end_].
    rewrite demo_bottom_edge_distance. reflexivity. }
  unfold demoHexagon.
  rewrite (collision_with_edge (vec 400 300) 200 0 (vec 400 470) 12 1 Hr).
  - rewrite Hdist, demo_bottom_edge. cbn [start end_].
    rewrite demo_bottom_edge_distance. reflexivity.
  - lia.
  - rewrite Hdist. lra.
  - intros k Hk Hk1. rewrite Hdist.
    unfold inradius, Vector2D.dot, Vector2D.subtract;
      cbn [Vector2D.x Vector2D.y].
    rewrite (unrotated_normals_y k Hk).
    do 6 (destruct k as [|k]; [try congruence; lra|]). lia.
Qed.

(** ** Reflection on a unit normal *)

Lemma reflectedVelocity_sq (rho : R) (n v : Vector2D) :
  Vector2D.x n * Vector2D.x n + Vector2D.y n * Vector2D.y n = 1 ->
  Vector2D.magnitudeSquared (PhysicsEngine.reflectedVelocity rho n v)
  = Vector2D.magnitudeSquared v
    - 4 * rho * (1 - rho) * (Vector2D.dot v n * Vector2D.dot v n).
Proof.
  intros Hn. destruct n as [nx ny], v as [vx vy].
  unfold PhysicsEngine.reflectedVelocity, Vector2D.magnitudeSquared,
    Vector2D.dot; cbn [Vector2D.x Vector2D.y] in *.
  replace (4 * rho * (1 - rho) * ((vx * nx + vy * ny) * (vx * nx + vy * ny)))
    with (4 * rho * (vx * nx + vy * ny) * (vx * nx + vy * ny)
          - 4 * rho * rho * (vx * nx + vy * ny) * (vx * nx + vy * ny)
            * (nx * nx + ny * ny))
    by (rewrite Hn; ring).
  ring.
Qed.

(** [resolveCollision] assigns the reflected velocity, and adds the random
    perturbation only when both of its components are below 10 in absolute
    value. *)
Lemma resolveCollision_velocity (e : HexagonEdge) (d : R)
  (this : PhysicsEngine) (rs : RandomSource) :
  let v' :=
    PhysicsEngine.reflectedVelocity
      (restitution (PhysicsEngine.config this)) (normal e)
      (velocity (PhysicsEngine.ballState this)) in
  velocity (PhysicsEngine.ballState
              (fst (PhysicsEngine.resolveCollision e d this rs)))
  = if ltb (Rabs (Vector2D.x v')) 10 && ltb (Rabs (Vector2D.y v')) 10
    then vec (Vector2D.x v' + (draws rs (cursor rs) - 0.5) * 50)
             (Vector2D.y v' + (draws rs (S (cursor rs)) - 0.5) * 50)
    else v'.
Proof.
  cbv zeta. unfold PhysicsEngine.resolveCollision, Math_random.
  destruct (_ && _); reflexivity.
Qed.

(** C2 (amended). For every edge of a hexagon built by [createHexagon] with a
    positive radius, every incident velocity [v] and every restitution with
    [0 <= restitution <= 1], the velocity assigned by the reflection step of
    [resolveCollision], [v - 2 * restitution * (v . n) * n], has a magnitude
    at most that of [v]. *)
Theorem reflection_keeps_speed_bounded
  (c : Vector2D) (r theta rho : R) (e : HexagonEdge) (v : Vector2D) :
  0 < r ->
  In e (edges (createHexagon c r theta)) ->
  0 <= rho <= 1 ->
  Vector2D.magnitude (PhysicsEngine.reflectedVelocity rho (normal e) v)
  <= Vector2D.magnitude v.
Proof.
  intros Hr Hin Hrho.
  pose proof (normal_unit_createHexagon c r theta e Hr Hin) as Hn.
  rewrite !magnitude_as_sqrt.
  pose proof (reflectedVelocity_sq rho (normal e) v Hn) as Hsq.
  pose proof (magnitudeSquared_nonneg
                (PhysicsEngine.reflectedVelocity rho (normal e) v)) as H0.
  apply sqrt_le_1; [exact H0 | apply magnitudeSquared_nonneg |].
  rewrite Hsq.
  assert (0 <= Vector2D.dot v (normal e) * Vector2D.dot v (normal e)) by nra.
  assert (0 <= rho * (1 - rho)) by nra.
  nra.
Qed.

(** An elastic bounce ([restitution = 1]) in the hexagon of the demo. *)
Lemma reflection_keeps_speed_bounded_witness :
  Vector2D.magnitude
    (PhysicsEngine.reflectedVelocity 1
       (normal (hexEdgeAt (vec 400 300) 200 0 1)) (vec 30 40))
  <= Vector2D.magnitude (vec 30 40).
Proof.
  assert (Hr : 0 < 200) by lra.
  apply (reflection_keeps_speed_bounded (vec 400 300) 200 0 1
           (hexEdgeAt (vec 400 300) 200 0 1) (vec 30 40) Hr).
  - apply hexEdgeAt_In; [exact Hr | lia].
  - lra.
Defined.

(** C2 (counterexample). In the hexagon of radius 200 around the origin,
    with [restitution = -1] (which is [<= 1]), the reflection of the velocity
    [(0, -2)] on edge 0 has magnitude [sqrt 12], above the incident
    magnitude [2]. *)
Lemma reflection_gains_speed_when_restitution_negative :
  let h := createHexagon (vec 0 0) 200 0 in
  let e := nth 0 (edges h) (mkEdge (vec 0 0) (vec 0 0) (vec 0 0)) in
  let v := vec 0 (- 2) in
  In e (edges h) /\
  -1 <= 1 /\
  PhysicsEngine.reflectedVelocity (-1) (normal e) v = vec (- sqrt 3) (- 3) /\
  Vector2D.magnitude v = 2 /\
  Vector2D.magnitude (PhysicsEngine.reflectedVelocity (-1) (normal e) v)
  = sqrt 12 /\
  ~ (Vector2D.magnitude (PhysicsEngine.reflectedVelocity (-1) (normal e) v)
     <= Vector2D.magnitude v).
Proof.
  cbv zeta.
  assert (Hr : 0 < 200) by lra.
  split; [apply nth_In; cbn; lia|].
  split; [lra|].
  rewrite (edges_createHexagon (vec 0 0) 200 0 Hr 0) by lia.
  cbn [normal]. rewrite edgeNormal_0_0.
  assert (Hv : PhysicsEngine.reflectedVelocity (-1)
                 (vec (- sqrt 3 / 2) (- 1 / 2)) (vec 0 (- 2))
               = vec (- sqrt 3) (- 3)).
  { unfold PhysicsEngine.reflectedVelocity, Vector2D.dot;
      cbn [Vector2D.x Vector2D.y]. f_equal; field. }
  rewrite Hv.
  assert (H2 : Vector2D.magnitude (vec 0 (- 2)) = 2).
  { unfold Vector2D.magnitude; cbn [Vector2D.x Vector2D.y].
    apply sqrt_sq_eq; lra. }
  assert (H12 : Vector2D.magnitude (vec (- sqrt 3) (- 3)) = sqrt 12).
  { unfold Vector2D.magnitude; cbn [Vector2D.x Vector2D.y].
    f_equal. pose proof sqrt3_sq. nra. }
  repeat split; try assumption.
  rewrite H2, H12. intros Hle.
  assert (Hlt : sqrt 4 < sqrt 12) by (apply sqrt_lt_1; lra).
  replace (sqrt 4) with 2 in Hlt by (symmetry; apply sqrt_sq_eq; lra).
  lra.
Qed.

(** ** The engine: frame conditions, run state and [reset] *)

Lemma limitVelocity_frame (this : PhysicsEngine) :
  PhysicsEngine.config (PhysicsEngine.limitVelocity this)
  = PhysicsEngine.config this /\
  PhysicsEngine.hexagon (PhysicsEngine.limitVelocity this)
  = PhysicsEngine.hexagon this /\
  PhysicsEngine.isRunning (PhysicsEngine.limitVelocity this)
  = PhysicsEngine.isRunning this.
Proof.
  unfold PhysicsEngine.limitVelocity.
  destruct (gtb _ _); repeat split; reflexivity.
Qed.

Lemma resolveCollision_frame (e : HexagonEdge) (d : R) (this : PhysicsEngine)
  (rs : RandomSource) :
  PhysicsEngine.config (fst (PhysicsEngine.resolveCollision e d this rs))
  = PhysicsEngine.config this /\
  PhysicsEngine.hexagon (fst (PhysicsEngine.resolveCollision e d this rs))
  = PhysicsEngine.hexagon this /\
  PhysicsEngine.isRunning (fst (PhysicsEngine.resolveCollision e d this rs))
  = PhysicsEngine.isRunning this.
Proof.
  unfold PhysicsEngine.resolveCollision.
  destruct (_ && _); repeat split; reflexivity.
Qed.

Lemma handleCollisions_frame (this : PhysicsEngine) (rs : RandomSource) :
  PhysicsEngine.config (fst (PhysicsEngine.handleCollisions this rs))
  = PhysicsEngine.config this /\
  PhysicsEngine.hexagon (fst (PhysicsEngine.handleCollisions this rs))
  = PhysicsEngine.hexagon this /\
  PhysicsEngine.isRunning (fst (PhysicsEngine.handleCollisions this rs))
  = PhysicsEngine.isRunning this.
Proof.
  unfold PhysicsEngine.handleCollisions.
  destruct (isColliding _); [|repeat split; reflexivity].
  destruct (collisionEdge _); [|repeat split; reflexivity].
  destruct (collisionPoint _); [|repeat split; reflexivity].
  apply resolveCollision_frame.
Qed.

Lemma update_isRunning (dt : R) (this : PhysicsEngine) (rs : RandomSource) :
  PhysicsEngine.isRunning (fst (PhysicsEngine.update dt this rs))
  = PhysicsEngine.isRunning this.
Proof.
  unfold PhysicsEngine.update.
  destruct (PhysicsEngine.isRunning this) eqn:E; cbn [negb]; [|exact E].
  destruct (PhysicsEngine.handleCollisions _ rs) as [this' rs'] eqn:Hc.
  cbn [fst PhysicsEngine.updateHexagonRotation PhysicsEngine.isRunning].
  pose proof (handleCollisions_frame
    (PhysicsEngine.updatePosition (Rmin dt 0.016)
       (PhysicsEngine.limitVelocity
          (PhysicsEngine.updateVelocity (Rmin dt 0.016)
             (PhysicsEngine.applyFriction (Rmin dt 0.016)
                (PhysicsEngine.applyGravity this))))) rs) as (_ & _ & Hrun).
  rewrite Hc in Hrun. cbn [fst] in Hrun. rewrite Hrun.
  cbn [PhysicsEngine.updatePosition PhysicsEngine.withBall
       PhysicsEngine.isRunning].
  destruct (limitVelocity_frame
    (PhysicsEngine.updateVelocity (Rmin dt 0.016)
       (PhysicsEngine.applyFriction (Rmin dt 0.016)
          (PhysicsEngine.applyGravity this)))) as (_ & _ & Hl).
  rewrite Hl. cbn. exact E.
Qed.

(** C9. For every engine in the Stopped state and every [dt], [update dt]
    changes nothing: ball state, hexagon, config and run-state flag are the
    ones before the call (and nothing is drawn from the random generator).
    Stopped is the initial state; [stop] enters it, [start] leaves it, and no
    other operation changes the flag. *)
Theorem update_stopped_noop :
  (forall (dt : R) (this : PhysicsEngine) (rs : RandomSource),
     PhysicsEngine.isRunning this = false ->
     PhysicsEngine.update dt this rs = (this, rs)) /\
  (forall (cfg : PhysicsConfig) (h : Hexagon) (rs : RandomSource),
     PhysicsEngine.isRunning (fst (PhysicsEngine.constructor cfg h rs))
     = false) /\
  (forall this : PhysicsEngine,
     PhysicsEngine.isRunning (PhysicsEngine.start this) = true /\
     PhysicsEngine.isRunning (PhysicsEngine.stop this) = false) /\
  (forall (this : PhysicsEngine) (rs : RandomSource) (dt : R)
          (partial : PartialConfig) (v : Vector2D),
     PhysicsEngine.isRunning (fst (PhysicsEngine.update dt this rs))
     = PhysicsEngine.isRunning this /\
     PhysicsEngine.isRunning (fst (PhysicsEngine.reset this rs))
     = PhysicsEngine.isRunning this /\
     PhysicsEngine.isRunning (PhysicsEngine.updateConfig partial this)
     = PhysicsEngine.isRunning this /\
     PhysicsEngine.isRunning (PhysicsEngine.setBallPosition v this)
     = PhysicsEngine.isRunning this /\
     PhysicsEngine.isRunning (PhysicsEngine.setBallVelocity v this)
     = PhysicsEngine.isRunning this).
Proof.
  split; [|split; [|split]].
  - intros dt this rs Hstop. unfold PhysicsEngine.update.
    rewrite Hstop. reflexivity.
  - reflexivity.
  - intros this. split; reflexivity.
  - intros this rs dt partial v.
    split; [|repeat split; reflexivity].
    apply update_isRunning.
Qed.

(** A freshly constructed engine is Stopped, so [update] leaves it alone. *)
Lemma update_stopped_noop_witness :
  let this :=
    fst (PhysicsEngine.constructor demoConfig demoHexagon (constantRandom 0.75))
  in
  PhysicsEngine.isRunning this = false /\
  PhysicsEngine.update 1 this (constantRandom 0.25)
  = (this, constantRandom 0.25).
Proof.
  cbv zeta. split; [reflexivity|].
  apply (proj1 update_stopped_noop). reflexivity.
Defined.

(** C8. For every engine, Running or Stopped, and every prior ball state,
    [reset] puts the ball exactly at the center of the stored hexagon, sets
    the acceleration to [(0, 0)], assigns a velocity computed from two fresh
    draws of the random generator (and from nothing else), and leaves the
    config, the stored hexagon (so its rotation too) and the run-state flag
    unchanged. *)
Theorem reset_recenters_ball (this : PhysicsEngine) (rs : RandomSource) :
  let this' := fst (PhysicsEngine.reset this rs) in
  let rs' := snd (PhysicsEngine.reset this rs) in
  position (PhysicsEngine.ballState this')
  = center (PhysicsEngine.hexagon this) /\
  acceleration (PhysicsEngine.ballState this') = vec 0 0 /\
  velocity (PhysicsEngine.ballState this')
  = vec ((draws rs (cursor rs) - 0.5) * 200)
        ((draws rs (S (cursor rs)) - 0.5) * 200) /\
  rs' = mkRandom (draws rs) (S (S (cursor rs))) /\
  PhysicsEngine.config this' = PhysicsEngine.config this /\
  PhysicsEngine.hexagon this' = PhysicsEngine.hexagon this /\
  rotation (PhysicsEngine.hexagon this')
  = rotation (PhysicsEngine.hexagon this) /\
  PhysicsEngine.isRunning this' = PhysicsEngine.isRunning this.
Proof.
  cbv zeta. unfold PhysicsEngine.reset, Math_random, Vector2D.set.
  cbn [fst snd draws cursor PhysicsEngine.withBall PhysicsEngine.ballState
       PhysicsEngine.config PhysicsEngine.hexagon PhysicsEngine.isRunning
       position velocity acceleration].
  repeat split.
  destruct (center (PhysicsEngine.hexagon this)); reflexivity.
Qed.

(** ** One step of [update] *)

Lemma integrated_frame (dt : R) (this : PhysicsEngine) :
  PhysicsEngine.config (integrated dt this) = PhysicsEngine.config this /\
  PhysicsEngine.hexagon (integrated dt this) = PhysicsEngine.hexagon this /\
  PhysicsEngine.isRunning (integrated dt this) = PhysicsEngine.isRunning this.
Proof.
  unfold integrated.
  cbn [PhysicsEngine.updatePosition PhysicsEngine.withBall
       PhysicsEngine.config PhysicsEngine.hexagon PhysicsEngine.isRunning].
  destruct (limitVelocity_frame
    (PhysicsEngine.updateVelocity (Rmin dt 0.016)
       (PhysicsEngine.applyFriction (Rmin dt 0.016)
          (PhysicsEngine.applyGravity this)))) as (Hc & Hh & Hr).
  rewrite Hc, Hh, Hr. repeat split; reflexivity.
Qed.

Lemma update_running (dt : R) (this : PhysicsEngine) (rs : RandomSource) :
  PhysicsEngine.isRunning this = true ->
  PhysicsEngine.update dt this rs
  = let (this', rs') :=
      PhysicsEngine.handleCollisions (integrated dt this) rs in
    (PhysicsEngine.updateHexagonRotation (Rmin dt 0.016) this', rs').
Proof.
  intros Hrun. unfold PhysicsEngine.update. rewrite Hrun. reflexivity.
Qed.

Lemma handleCollisions_none (this : PhysicsEngine) (rs : RandomSource) :
  isColliding
    (circleHexagonCollision (position (PhysicsEngine.ballState this))
       (ballRadius (PhysicsEngine.config this)) (PhysicsEngine.hexagon this))
  = false ->
  PhysicsEngine.handleCollisions this rs = (this, rs).
Proof.
  intros H. unfold PhysicsEngine.handleCollisions. rewrite H. reflexivity.
Qed.

(** Without a collision, the ball state after [update] is the integrated
    one. *)
Lemma update_no_collision (dt : R) (this : PhysicsEngine) (rs : RandomSource) :
  PhysicsEngine.isRunning this = true ->
  isColliding (collisionAfterIntegration dt this) = false ->
  PhysicsEngine.update dt this rs
  = (PhysicsEngine.updateHexagonRotation (Rmin dt 0.016) (integrated dt this),
     rs).
Proof.
  intros Hrun Hno. rewrite (update_running dt this rs Hrun).
  rewrite (handleCollisions_none (integrated dt this) rs Hno). reflexivity.
Qed.

Lemma update_collision (dt : R) (this : PhysicsEngine) (rs : RandomSource)
  (e : HexagonEdge) (q : Vector2D) (d : R) :
  PhysicsEngine.isRunning this = true ->
  collisionAfterIntegration dt this
  = mkCollision true (Some e) (Some q) (Some d) ->
  PhysicsEngine.update dt this rs
  = let (this', rs') :=
      PhysicsEngine.resolveCollision e d (integrated dt this) rs in
    (PhysicsEngine.updateHexagonRotation (Rmin dt 0.016) this', rs').
Proof.
  intros Hrun Hcol. rewrite (update_running dt this rs Hrun).
  unfold PhysicsEngine.handleCollisions.
  unfold collisionAfterIntegration in Hcol. rewrite Hcol.
  reflexivity.
Qed.

(** The ball state after steps 1 to 5, by cases on the speed clamp. *)
Lemma integrated_ballState (dt : R) (this : PhysicsEngine) :
  let cfg := PhysicsEngine.config this in
  let b := PhysicsEngine.ballState this in
  let dt_e := Rmin dt 0.016 in
  let u := unclampedVelocity cfg b dt_e in
  let v' :=
    if gtb (Vector2D.magnitude u) (maxVelocity cfg)
    then vec (Vector2D.x u * (maxVelocity cfg / Vector2D.magnitude u))
             (Vector2D.y u * (maxVelocity cfg / Vector2D.magnitude u))
    else u in
  PhysicsEngine.ballState (integrated dt this)
  = mkBall (vec (Vector2D.x (position b) + Vector2D.x v' * dt_e)
                (Vector2D.y (position b) + Vector2D.y v' * dt_e))
           v' (vec 0 0).
Proof.
  cbv zeta. unfold integrated, PhysicsEngine.limitVelocity.
  cbn [PhysicsEngine.updateVelocity PhysicsEngine.applyFriction
       PhysicsEngine.applyGravity PhysicsEngine.withBall
       PhysicsEngine.ballState PhysicsEngine.config
       position velocity acceleration Vector2D.x Vector2D.y Vector2D.set].
  fold (unclampedVelocity (PhysicsEngine.config this)
          (PhysicsEngine.ballState this) (Rmin dt 0.016)).
  destruct (gtb _ _); reflexivity.
Qed.

Lemma integrated_within_cap (dt : R) (this : PhysicsEngine) :
  let cfg := PhysicsEngine.config this in
  let b := PhysicsEngine.ballState this in
  let dt_e := Rmin dt 0.016 in
  let u := unclampedVelocity cfg b dt_e in
  Vector2D.magnitude u <= maxVelocity cfg ->
  PhysicsEngine.ballState (integrated dt this)
  = mkBall (vec (Vector2D.x (position b) + Vector2D.x u * dt_e)
                (Vector2D.y (position b) + Vector2D.y u * dt_e))
           u (vec 0 0).
Proof.
  cbv zeta. intros Hcap.
  pose proof (integrated_ballState dt this) as H. cbv zeta in H.
  replace (gtb _ _) with false in H
    by (symmetry; apply ltb_false; exact Hcap).
  exact H.
Qed.

Lemma integrated_over_cap (dt : R) (this : PhysicsEngine) :
  let cfg := PhysicsEngine.config this in
  let b := PhysicsEngine.ballState this in
  let dt_e := Rmin dt 0.016 in
  let u := unclampedVelocity cfg b dt_e in
  let scale := maxVelocity cfg / Vector2D.magnitude u in
  maxVelocity cfg < Vector2D.magnitude u ->
  PhysicsEngine.ballState (integrated dt this)
  = mkBall (vec (Vector2D.x (position b) + Vector2D.x u * scale * dt_e)
                (Vector2D.y (position b) + Vector2D.y u * scale * dt_e))
           (vec (Vector2D.x u * scale) (Vector2D.y u * scale))
           (vec 0 0).
Proof.
  cbv zeta. intros Hcap.
  pose proof (integrated_ballState dt this) as H. cbv zeta in H.
  replace (gtb _ _) with true in H
    by (symmetry; apply ltb_true; exact Hcap).
  exact H.
Qed.

Lemma runningEngine_fields (cfg : PhysicsConfig) (p v : Vector2D) :
  PhysicsEngine.config (runningEngine cfg p v) = cfg /\
  PhysicsEngine.ballState (runningEngine cfg p v)
  = mkBall (vec (Vector2D.x p) (Vector2D.y p))
           (vec (Vector2D.x v) (Vector2D.y v)) (vec 0 0) /\
  PhysicsEngine.hexagon (runningEngine cfg p v) = demoHexagon /\
  PhysicsEngine.isRunning (runningEngine cfg p v) = true.
Proof. repeat split; reflexivity. Qed.

(** The collision query after integration, for an engine over the demo
    hexagon whose integrated position stays well inside. *)
Lemma demo_no_collision_after (dt : R) (cfg : PhysicsConfig) (p v : Vector2D) :
  let q := position (PhysicsEngine.ballState
                       (integrated dt (runningEngine cfg p v))) in
  ballRadius cfg <= 20 ->
  (Vector2D.x q - 400) * (Vector2D.x q - 400)
  + (Vector2D.y q - 300) * (Vector2D.y q - 300) < 150 * 150 ->
  collisionAfterIntegration dt (runningEngine cfg p v)
  = mkCollision false None None None.
Proof.
  cbv zeta. intros Hrad Hq. unfold collisionAfterIntegration.
  destruct (integrated_frame dt (runningEngine cfg p v)) as (Hc & Hh & _).
  rewrite Hc, Hh.
  apply demo_no_collision; assumption.
Qed.

(** C1 (amended). For every engine in the Running state with
    [maxVelocity >= 0] and every caller-supplied [dt], if no collision is
    detected after position integration, one call to [update dt] works with
    the effective timestep [dt_e = min dt 0.016] and sets the velocity to the
    clamped [u = (vx (1 - friction dt_e) + ax dt_e,
                  vy (1 - friction dt_e) + (ay + gravity) dt_e)]:
    [u] itself when its magnitude is at most [maxVelocity], and otherwise the
    vector of magnitude exactly [maxVelocity] in the direction of [u]
    (a non-negative multiple of [u]); the position becomes
    [position + v' dt_e] for that new velocity [v'] and the stored
    acceleration becomes [(0, 0)]. *)
Theorem update_integrates_clamped
  (dt : R) (this : PhysicsEngine) (rs : RandomSource) :
  PhysicsEngine.isRunning this = true ->
  0 <= maxVelocity (PhysicsEngine.config this) ->
  isColliding (collisionAfterIntegration dt this) = false ->
  let cfg := PhysicsEngine.config this in
  let b := PhysicsEngine.ballState this in
  let dt_e := Rmin dt 0.016 in
  let u := unclampedVelocity cfg b dt_e in
  let b' := PhysicsEngine.ballState (fst (PhysicsEngine.update dt this rs)) in
  (Vector2D.magnitude u <= maxVelocity cfg -> velocity b' = u) /\
  (maxVelocity cfg < Vector2D.magnitude u ->
   Vector2D.magnitude (velocity b') = maxVelocity cfg /\
   exists k : R, 0 <= k /\ velocity b' = Vector2D.multiply u k) /\
  position b'
  = Vector2D.add (position b) (Vector2D.multiply (velocity b') dt_e) /\
  acceleration b' = vec 0 0.
Proof.
  intros Hrun Hmax Hno. cbv zeta.
  rewrite (update_no_collision dt this rs Hrun Hno).
  cbn [fst PhysicsEngine.updateHexagonRotation PhysicsEngine.ballState].
  set (u := unclampedVelocity (PhysicsEngine.config this)
              (PhysicsEngine.ballState this) (Rmin dt 0.016)).
  destruct (Rle_lt_dec (Vector2D.magnitude u)
              (maxVelocity (PhysicsEngine.config this))) as [Hle | Hgt].
  - rewrite (integrated_within_cap dt this Hle). fold u.
    cbn [position velocity acceleration].
    split; [reflexivity|]. split; [intros; lra|].
    split; reflexivity.
  - rewrite (integrated_over_cap dt this Hgt). fold u.
    cbn [position velocity acceleration].
    assert (Hpos : 0 < Vector2D.magnitude u) by lra.
    assert (Hk : 0 <= maxVelocity (PhysicsEngine.config this)
                      / Vector2D.magnitude u).
    { apply Rmult_le_pos; [exact Hmax|].
      left. apply Rinv_0_lt_compat. exact Hpos. }
    split; [intros; lra|]. split; [intros _; split|].
    + rewrite (magnitude_scale u _ Hk). field. lra.
    + exists (maxVelocity (PhysicsEngine.config this) / Vector2D.magnitude u).
      split; [exact Hk | reflexivity].
    + split; [|reflexivity].
      unfold Vector2D.add, Vector2D.multiply; cbn [Vector2D.x Vector2D.y].
      reflexivity.
Qed.

(** The demo engine with the ball at the center moving right at 100 px/s,
    stepped with [dt = 1]: the timestep is clamped to 0.016, the new velocity
    is [(99.968, 8)], within the cap of 800. *)
Lemma update_integrates_clamped_witness :
  let this := runningEngine demoConfig (vec 400 300) (vec 100 0) in
  let b' := PhysicsEngine.ballState
              (fst (PhysicsEngine.update 1 this (constantRandom 0.25))) in
  PhysicsEngine.isRunning this = true /\
  0 <= maxVelocity (PhysicsEngine.config this) /\
  isColliding (collisionAfterIntegration 1 this) = false /\
  velocity b' = vec 99.968 8 /\
  acceleration b' = vec 0 0.
Proof.
  cbv zeta.
  set (this := runningEngine demoConfig (vec 400 300) (vec 100 0)).
  assert (Hrun : PhysicsEngine.isRunning this = true) by reflexivity.
  assert (Hmax : 0 <= maxVelocity (PhysicsEngine.config this))
    by (cbn; lra).
  assert (Hdt : Rmin 1 0.016 = 0.016) by (apply Rmin_clamped; lra).
  assert (Hu : unclampedVelocity (PhysicsEngine.config this)
                 (PhysicsEngine.ballState this) (Rmin 1 0.016)
               = vec 99.968 8).
  { rewrite Hdt. unfold unclampedVelocity. cbn. f_equal; lra. }
  assert (Hcap : Vector2D.magnitude
                   (unclampedVelocity (PhysicsEngine.config this)
                      (PhysicsEngine.ballState this) (Rmin 1 0.016))
                 <= maxVelocity (PhysicsEngine.config this)).
  { rewrite Hu. apply magnitude_le; cbn; lra. }
  assert (Hno : isColliding (collisionAfterIntegration 1 this) = false).
  { unfold this. rewrite demo_no_collision_after; [reflexivity | cbn; lra |].
    fold this. rewrite (integrated_within_cap 1 this Hcap).
    rewrite Hu, Hdt. cbn. lra. }
  pose proof (update_integrates_clamped 1 this (constantRandom 0.25)
                Hrun Hmax Hno) as H.
  cbv zeta in H. destruct H as (Hv & _ & _ & Hacc).
  repeat split; try assumption.
  rewrite (Hv Hcap). exact Hu.
Defined.

(** C1 (counterexample). A Running engine with [maxVelocity = -1], the ball
    at the center of the demo hexagon with velocity [(3, 4)], stepped with
    [dt = 0]: no collision is detected, the speed 5 exceeds [maxVelocity], and
    the clamp multiplies the velocity by [-1 / 5]: the new velocity
    [(-0.6, -0.8)] has magnitude 1, not [maxVelocity], and points opposite to
    the unclamped one. *)
Lemma clamp_reverses_when_maxVelocity_negative :
  let this :=
    runningEngine (mkConfig 0 0 0.8 1 12 (-1)) (vec 400 300) (vec 3 4) in
  let u := unclampedVelocity (PhysicsEngine.config this)
             (PhysicsEngine.ballState this) (Rmin 0 0.016) in
  let v' := velocity (PhysicsEngine.ballState
                        (fst (PhysicsEngine.update 0 this
                                (constantRandom 0.25)))) in
  PhysicsEngine.isRunning this = true /\
  isColliding (collisionAfterIntegration 0 this) = false /\
  u = vec 3 4 /\
  maxVelocity (PhysicsEngine.config this) < Vector2D.magnitude u /\
  v' = vec (-0.6) (-0.8) /\
  Vector2D.magnitude v' = 1 /\
  Vector2D.magnitude v' <> maxVelocity (PhysicsEngine.config this) /\
  ~ (exists k : R, 0 <= k /\ v' = Vector2D.multiply u k).
Proof.
  cbv zeta.
  set (this := runningEngine (mkConfig 0 0 0.8 1 12 (-1)) (vec 400 300)
                 (vec 3 4)).
  assert (Hrun : PhysicsEngine.isRunning this = true) by reflexivity.
  assert (Hdt : Rmin 0 0.016 = 0) by (apply Rmin_unclamped; lra).
  assert (Hu : unclampedVelocity (PhysicsEngine.config this)
                 (PhysicsEngine.ballState this) (Rmin 0 0.016) = vec 3 4).
  { rewrite Hdt. unfold unclampedVelocity. cbn. f_equal; lra. }
  assert (Hmag : Vector2D.magnitude (vec 3 4) = 5)
    by (apply magnitude_known; cbn; lra).
  assert (Hcap : maxVelocity (PhysicsEngine.config this)
                 < Vector2D.magnitude
                     (unclampedVelocity (PhysicsEngine.config this)
                        (PhysicsEngine.ballState this) (Rmin 0 0.016))).
  { rewrite Hu, Hmag. cbn. lra. }
  assert (Hint : PhysicsEngine.ballState (integrated 0 this)
                 = mkBall (vec 400 300) (vec (-0.6) (-0.8)) (vec 0 0)).
  { rewrite (integrated_over_cap 0 this Hcap). rewrite Hu, Hmag, Hdt.
    f_equal; f_equal; cbn; lra. }
  assert (Hno : isColliding (collisionAfterIntegration 0 this) = false).
  { unfold this. rewrite demo_no_collision_after; [reflexivity | cbn; lra |].
    fold this. rewrite Hint. cbn. lra. }
  rewrite (update_no_collision 0 this (constantRandom 0.25) Hrun Hno).
  cbn [fst PhysicsEngine.updateHexagonRotation PhysicsEngine.ballState].
  rewrite Hint, Hu, Hmag. cbn [velocity].
  assert (Hm1 : Vector2D.magnitude (vec (-0.6) (-0.8)) = 1)
    by (apply magnitude_known; cbn; lra).
  repeat split; try assumption; try reflexivity.
  - cbn. lra.
  - rewrite Hm1. cbn. lra.
  - intros (k & Hk & Heq). unfold Vector2D.multiply in Heq.
    cbn in Heq. injection Heq as Hx Hy. lra.
Qed.

(** ** The stored acceleration between calls, and a step without forces *)

Lemma update_acceleration (dt : R) (this : PhysicsEngine) (rs : RandomSource) :
  PhysicsEngine.isRunning this = true ->
  acceleration (PhysicsEngine.ballState (fst (PhysicsEngine.update dt this rs)))
  = vec 0 0.
Proof.
  intros Hrun. rewrite (update_running dt this rs Hrun).
  assert (Hacc : acceleration (PhysicsEngine.ballState (integrated dt this))
                 = vec 0 0).
  { pose proof (integrated_ballState dt this) as H. cbv zeta in H.
    rewrite H. reflexivity. }
  unfold PhysicsEngine.handleCollisions.
  destruct (isColliding _); [|exact Hacc].
  destruct (collisionEdge _); [|exact Hacc].
  destruct (collisionPoint _); [|exact Hacc].
  unfold PhysicsEngine.resolveCollision, Math_random.
  destruct (_ && _); cbn; exact Hacc.
Qed.

(** The stored acceleration is [(0, 0)] after construction, and every public
    operation keeps it so: it is zero whenever [update] is entered. *)
Lemma acceleration_zero_between_calls :
  (forall (cfg : PhysicsConfig) (h : Hexagon) (rs : RandomSource),
     acceleration (PhysicsEngine.ballState
                     (fst (PhysicsEngine.constructor cfg h rs))) = vec 0 0) /\
  (forall (this : PhysicsEngine) (rs : RandomSource) (dt : R)
          (partial : PartialConfig) (v : Vector2D),
     acceleration (PhysicsEngine.ballState this) = vec 0 0 ->
     acceleration (PhysicsEngine.ballState
                     (fst (PhysicsEngine.update dt this rs))) = vec 0 0 /\
     acceleration (PhysicsEngine.ballState
                     (fst (PhysicsEngine.reset this rs))) = vec 0 0 /\
     acceleration (PhysicsEngine.ballState (PhysicsEngine.start this))
     = vec 0 0 /\
     acceleration (PhysicsEngine.ballState (PhysicsEngine.stop this))
     = vec 0 0 /\
     acceleration (PhysicsEngine.ballState
                     (PhysicsEngine.updateConfig partial this)) = vec 0 0 /\
     acceleration (PhysicsEngine.ballState
                     (PhysicsEngine.setBallPosition v this)) = vec 0 0 /\
     acceleration (PhysicsEngine.ballState
                     (PhysicsEngine.setBallVelocity v this)) = vec 0 0).
Proof.
  split; [reflexivity|].
  intros this rs dt partial v Hacc.
  split; [|repeat split; try reflexivity; exact Hacc].
  destruct (PhysicsEngine.isRunning this) eqn:Hrun.
  - now apply update_acceleration.
  - unfold PhysicsEngine.update. rewrite Hrun. exact Hacc.
Qed.

Lemma unclampedVelocity_free (cfg : PhysicsConfig) (b : BallState) (dt : R) :
  gravity cfg = 0 ->
  friction cfg = 0 ->
  acceleration b = vec 0 0 ->
  unclampedVelocity cfg b dt = velocity b.
Proof.
  intros Hg Hf Ha. unfold unclampedVelocity. rewrite Hg, Hf, Ha.
  destruct (velocity b) as [vx vy]; cbn [Vector2D.x Vector2D.y].
  f_equal; ring.
Qed.

(** C7 (amended). For every engine in the Running state with [gravity = 0]
    and [friction = 0], whose ball speed is at most [maxVelocity] (and whose
    stored acceleration is zero, as it is between calls), and every [dt] such
    that no collision is detected after position integration, one call to
    [update dt] yields [position = position0 + velocity * min dt 0.016],
    which is [position0 + velocity * dt] when [dt <= 0.016], and leaves the
    ball's velocity unchanged. *)
Theorem update_without_forces
  (dt : R) (this : PhysicsEngine) (rs : RandomSource) :
  PhysicsEngine.isRunning this = true ->
  gravity (PhysicsEngine.config this) = 0 ->
  friction (PhysicsEngine.config this) = 0 ->
  acceleration (PhysicsEngine.ballState this) = vec 0 0 ->
  Vector2D.magnitude (velocity (PhysicsEngine.ballState this))
  <= maxVelocity (PhysicsEngine.config this) ->
  isColliding (collisionAfterIntegration dt this) = false ->
  let b := PhysicsEngine.ballState this in
  let b' := PhysicsEngine.ballState (fst (PhysicsEngine.update dt this rs)) in
  position b'
  = Vector2D.add (position b)
      (Vector2D.multiply (velocity b) (Rmin dt 0.016)) /\
  (dt <= 0.016 ->
   position b'
   = Vector2D.add (position b) (Vector2D.multiply (velocity b) dt)) /\
  velocity b' = velocity b.
Proof.
  intros Hrun Hg Hf Ha Hcap Hno. cbv zeta.
  rewrite (update_no_collision dt this rs Hrun Hno).
  cbn [fst PhysicsEngine.updateHexagonRotation PhysicsEngine.ballState].
  pose proof (unclampedVelocity_free (PhysicsEngine.config this)
                (PhysicsEngine.ballState this) (Rmin dt 0.016) Hg Hf Ha) as Hu.
  rewrite <- Hu in Hcap.
  rewrite (integrated_within_cap dt this Hcap), Hu.
  cbn [position velocity].
  split; [reflexivity|]. split; [|reflexivity].
  intros Hdt. rewrite (Rmin_unclamped dt Hdt). reflexivity.
Qed.

(** A frictionless, weightless demo engine, the ball leaving the center at
    100 px/s, stepped with [dt = 0.01]: the ball moves by one pixel. *)
Lemma update_without_forces_witness :
  let this :=
    runningEngine (mkConfig 0 0 0.8 1 12 800) (vec 400 300) (vec 100 0) in
  let b' := PhysicsEngine.ballState
              (fst (PhysicsEngine.update 0.01 this (constantRandom 0.25))) in
  PhysicsEngine.isRunning this = true /\
  isColliding (collisionAfterIntegration 0.01 this) = false /\
  position b' = vec 401 300 /\
  velocity b' = vec 100 0.
Proof.
  cbv zeta.
  set (this := runningEngine (mkConfig 0 0 0.8 1 12 800) (vec 400 300)
                 (vec 100 0)).
  assert (Hrun : PhysicsEngine.isRunning this = true) by reflexivity.
  assert (Hg : gravity (PhysicsEngine.config this) = 0) by reflexivity.
  assert (Hf : friction (PhysicsEngine.config this) = 0) by reflexivity.
  assert (Ha : acceleration (PhysicsEngine.ballState this) = vec 0 0)
    by reflexivity.
  assert (Hcap : Vector2D.magnitude (velocity (PhysicsEngine.ballState this))
                 <= maxVelocity (PhysicsEngine.config this))
    by (apply magnitude_le; cbn; lra).
  assert (Hdt : Rmin 0.01 0.016 = 0.01) by (apply Rmin_unclamped; lra).
  assert (Hno : isColliding (collisionAfterIntegration 0.01 this) = false).
  { unfold this. rewrite demo_no_collision_after; [reflexivity | cbn; lra |].
    fold this. rewrite integrated_within_cap.
    - rewrite (unclampedVelocity_free _ _ _ Hg Hf Ha), Hdt. cbn. lra.
    - rewrite (unclampedVelocity_free _ _ _ Hg Hf Ha). exact Hcap. }
  pose proof (update_without_forces 0.01 this (constantRandom 0.25)
                Hrun Hg Hf Ha Hcap Hno) as H.
  cbv zeta in H. destruct H as (_ & Hp & Hv).
  split; [exact Hrun|]. split; [exact Hno|]. split; [|exact Hv].
  rewrite Hp by lra.
  change (PhysicsEngine.ballState this)
    with (mkBall (vec 400 300) (vec 100 0) (vec 0 0)).
  unfold Vector2D.add, Vector2D.multiply;
    cbn [position velocity Vector2D.x Vector2D.y].
  f_equal; lra.
Defined.

(** C7 (counterexample). Two Running engines over the demo hexagon with
    [gravity = 0], [friction = 0] and no collision detected after position
    integration.  In the first, the ball leaves the center at [(100, 0)] and
    [update 1] moves it to [(401.6, 300)], not to
    [position0 + velocity * 1 = (500, 300)]: the timestep is clamped to
    0.016.  In the second, [maxVelocity = 1] and the velocity [(3, 4)] is
    rescaled to [(0.6, 0.8)] by [update 0.01], so the velocity changes and
    the ball ends at [(400.006, 300.008)], not at
    [position0 + velocity * 0.01 = (400.03, 300.04)]. *)
Lemma update_without_forces_not_plain_integration :
  (let this :=
     runningEngine (mkConfig 0 0 0.8 1 12 800) (vec 400 300) (vec 100 0) in
   let b := PhysicsEngine.ballState this in
   let b' := PhysicsEngine.ballState
               (fst (PhysicsEngine.update 1 this (constantRandom 0.25))) in
   PhysicsEngine.isRunning this = true /\
   gravity (PhysicsEngine.config this) = 0 /\
   friction (PhysicsEngine.config this) = 0 /\
   isColliding (collisionAfterIntegration 1 this) = false /\
   position b' = vec 401.6 300 /\
   position b' <> Vector2D.add (position b) (Vector2D.multiply (velocity b) 1))
  /\
  (let this :=
     runningEngine (mkConfig 0 0 0.8 1 12 1) (vec 400 300) (vec 3 4) in
   let b := PhysicsEngine.ballState this in
   let b' := PhysicsEngine.ballState
               (fst (PhysicsEngine.update 0.01 this (constantRandom 0.25))) in
   PhysicsEngine.isRunning this = true /\
   gravity (PhysicsEngine.config this) = 0 /\
   friction (PhysicsEngine.config this) = 0 /\
   isColliding (collisionAfterIntegration 0.01 this) = false /\
   velocity b' = vec 0.6 0.8 /\
   velocity b' <> velocity b /\
   position b' = vec 400.006 300.008 /\
   position b'
   <> Vector2D.add (position b) (Vector2D.multiply (velocity b) 0.01)).
Proof.
  split; cbv zeta.
  - set (this := runningEngine (mkConfig 0 0 0.8 1 12 800) (vec 400 300)
                   (vec 100 0)).
    assert (Hrun : PhysicsEngine.isRunning this = true) by reflexivity.
    assert (Hg : gravity (PhysicsEngine.config this) = 0) by reflexivity.
    assert (Hf : friction (PhysicsEngine.config this) = 0) by reflexivity.
    assert (Ha : acceleration (PhysicsEngine.ballState this) = vec 0 0)
      by reflexivity.
    assert (Hdt : Rmin 1 0.016 = 0.016) by (apply Rmin_clamped; lra).
    assert (Hint : PhysicsEngine.ballState (integrated 1 this)
                   = mkBall (vec 401.6 300) (vec 100 0) (vec 0 0)).
    { rewrite integrated_within_cap;
        rewrite (unclampedVelocity_free _ _ _ Hg Hf Ha).
      - rewrite Hdt. f_equal; f_equal; cbn; lra.
      - apply magnitude_le; cbn; lra. }
    assert (Hno : isColliding (collisionAfterIntegration 1 this) = false).
    { unfold this. rewrite demo_no_collision_after; [reflexivity | cbn; lra |].
      fold this. rewrite Hint. cbn. lra. }
    rewrite (update_no_collision 1 this (constantRandom 0.25) Hrun Hno).
    cbn [fst PhysicsEngine.updateHexagonRotation PhysicsEngine.ballState].
    rewrite Hint. cbn [position].
    repeat split; try assumption; try reflexivity.
    intros Heq. cbn in Heq. injection Heq as Hx Hy. lra.
  - set (this := runningEngine (mkConfig 0 0 0.8 1 12 1) (vec 400 300)
                   (vec 3 4)).
    assert (Hrun : PhysicsEngine.isRunning this = true) by reflexivity.
    assert (Hg : gravity (PhysicsEngine.config this) = 0) by reflexivity.
    assert (Hf : friction (PhysicsEngine.config this) = 0) by reflexivity.
    assert (Ha : acceleration (PhysicsEngine.ballState this) = vec 0 0)
      by reflexivity.
    assert (Hdt : Rmin 0.01 0.016 = 0.01) by (apply Rmin_unclamped; lra).
    assert (Hmag : Vector2D.magnitude (vec 3 4) = 5)
      by (apply magnitude_known; cbn; lra).
    assert (Hint : PhysicsEngine.ballState (integrated 0.01 this)
                   = mkBall (vec 400.006 300.008) (vec 0.6 0.8) (vec 0 0)).
    { rewrite integrated_over_cap;
        rewrite (unclampedVelocity_free _ _ _ Hg Hf Ha).
      - rewrite Hdt. change (velocity (PhysicsEngine.ballState this))
          with (vec 3 4). rewrite Hmag. f_equal; f_equal; cbn; lra.
      - change (velocity (PhysicsEngine.ballState this)) with (vec 3 4).
        rewrite Hmag. cbn. lra. }
    assert (Hno : isColliding (collisionAfterIntegration 0.01 this) = false).
    { unfold this. rewrite demo_no_collision_after; [reflexivity | cbn; lra |].
      fold this. rewrite Hint. cbn. lra. }
    rewrite (update_no_collision 0.01 this (constantRandom 0.25) Hrun Hno).
    cbn [fst PhysicsEngine.updateHexagonRotation PhysicsEngine.ballState].
    rewrite Hint. cbn [position velocity].
    repeat split; try assumption; try reflexivity.
    + intros Heq. cbn in Heq. injection Heq as Hx Hy. lra.
    + intros Heq. cbn in Heq. injection Heq as Hx Hy. lra.
Qed.

(** ** [update] with a zero timestep *)

Lemma unclampedVelocity_zero_dt (cfg : PhysicsConfig) (b : BallState) :
  unclampedVelocity cfg b 0 = velocity b.
Proof.
  unfold unclampedVelocity.
  destruct (velocity b) as [vx vy]; cbn [Vector2D.x Vector2D.y].
  f_equal; ring.
Qed.

(** With [dt = 0] and the speed within the cap, steps 1 to 5 leave position
    and velocity as they are. *)
Lemma integrated_zero_dt (this : PhysicsEngine) :
  Vector2D.magnitude (velocity (PhysicsEngine.ballState this))
  <= maxVelocity (PhysicsEngine.config this) ->
  PhysicsEngine.ballState (integrated 0 this)
  = mkBall (position (PhysicsEngine.ballState this))
           (velocity (PhysicsEngine.ballState this)) (vec 0 0).
Proof.
  intros Hcap.
  pose proof (unclampedVelocity_zero_dt (PhysicsEngine.config this)
                (PhysicsEngine.ballState this)) as Hu.
  rewrite integrated_within_cap; rewrite Rmin_zero_dt, Hu; [|exact Hcap].
  f_equal.
  destruct (position (PhysicsEngine.ballState this)) as [px py];
    cbn [Vector2D.x Vector2D.y].
  f_equal; ring.
Qed.

(** The universal half of the zero-timestep property. *)
Lemma update_zero_dt_unchanged (this : PhysicsEngine) (rs : RandomSource) :
  PhysicsEngine.isRunning this = true ->
  Vector2D.magnitude (velocity (PhysicsEngine.ballState this))
  <= maxVelocity (PhysicsEngine.config this) ->
  (forall e : HexagonEdge,
     In e (edges (PhysicsEngine.hexagon this)) ->
     ballRadius (PhysicsEngine.config this)
     < edgeDistance (position (PhysicsEngine.ballState this)) e) ->
  position (PhysicsEngine.ballState (fst (PhysicsEngine.update 0 this rs)))
  = position (PhysicsEngine.ballState this) /\
  velocity (PhysicsEngine.ballState (fst (PhysicsEngine.update 0 this rs)))
  = velocity (PhysicsEngine.ballState this).
Proof.
  intros Hrun Hcap Hfar.
  pose proof (integrated_zero_dt this Hcap) as Hint.
  assert (Hno : isColliding (collisionAfterIntegration 0 this) = false).
  { unfold collisionAfterIntegration.
    destruct (integrated_frame 0 this) as (Hc & Hh & _).
    rewrite Hc, Hh, Hint. cbn [position].
    rewrite (no_collision_far _ _ _ Hfar). reflexivity. }
  rewrite (update_no_collision 0 this rs Hrun Hno).
  cbn [fst PhysicsEngine.updateHexagonRotation PhysicsEngine.ballState].
  rewrite Hint. split; reflexivity.
Qed.

(** The speed clamp runs with [dt = 0]: a ball at the center of the demo
    hexagon, far from every edge, with velocity [(3, 4)] and
    [maxVelocity = 1], leaves [update 0] with velocity [(0.6, 0.8)]. *)
Lemma update_zero_dt_clamps :
  let this :=
    runningEngine (mkConfig 500 0.02 0.8 1 12 1) (vec 400 300) (vec 3 4) in
  PhysicsEngine.isRunning this = true /\
  (forall e : HexagonEdge,
     In e (edges (PhysicsEngine.hexagon this)) ->
     ballRadius (PhysicsEngine.config this)
     < edgeDistance (position (PhysicsEngine.ballState this)) e) /\
  maxVelocity (PhysicsEngine.config this)
  < Vector2D.magnitude (velocity (PhysicsEngine.ballState this)) /\
  velocity (PhysicsEngine.ballState
              (fst (PhysicsEngine.update 0 this (constantRandom 0.25))))
  = vec 0.6 0.8.
Proof.
  cbv zeta.
  set (this := runningEngine (mkConfig 500 0.02 0.8 1 12 1) (vec 400 300)
                 (vec 3 4)).
  assert (Hrun : PhysicsEngine.isRunning this = true) by reflexivity.
  assert (Hmag : Vector2D.magnitude (vec 3 4) = 5)
    by (apply magnitude_known; cbn; lra).
  assert (Hu : unclampedVelocity (PhysicsEngine.config this)
                 (PhysicsEngine.ballState this) (Rmin 0 0.016) = vec 3 4).
  { rewrite Rmin_zero_dt, unclampedVelocity_zero_dt. reflexivity. }
  assert (Hint : PhysicsEngine.ballState (integrated 0 this)
                 = mkBall (vec 400 300) (vec 0.6 0.8) (vec 0 0)).
  { rewrite integrated_over_cap; rewrite Hu, Hmag.
    - rewrite Rmin_zero_dt. f_equal; f_equal; cbn; lra.
    - cbn. lra. }
  assert (Hno : isColliding (collisionAfterIntegration 0 this) = false).
  { unfold this. rewrite demo_no_collision_after; [reflexivity | cbn; lra |].
    fold this. rewrite Hint. cbn. lra. }
  split; [exact Hrun|]. split; [|split].
  - change (PhysicsEngine.hexagon this) with demoHexagon.
    change (position (PhysicsEngine.ballState this)) with (vec 400 300).
    change (ballRadius (PhysicsEngine.config this)) with 12.
    unfold demoHexagon. apply no_collision_inside; [lra|].
    assert (Hd : Vector2D.distance (vec 400 300) (vec 400 300) < 1)
      by (apply distance_lt; cbn; lra).
    unfold inradius. pose proof sqrt3_bounds. lra.
  - change (velocity (PhysicsEngine.ballState this)) with (vec 3 4).
    rewrite Hmag. cbn. lra.
  - rewrite (update_no_collision 0 this (constantRandom 0.25) Hrun Hno).
    cbn [fst PhysicsEngine.updateHexagonRotation PhysicsEngine.ballState].
    rewrite Hint. reflexivity.
Qed.

(** Collision resolution runs with [dt = 0]: the demo engine with the ball
    170 below the center, overlapping the bottom edge, falling at 100 px/s
    (within the cap of 800), leaves [update 0] pushed back inside and moving
    up at 60 px/s. *)
Lemma update_zero_dt_bounces :
  let this := runningEngine demoConfig (vec 400 470) (vec 0 100) in
  let b' := PhysicsEngine.ballState
              (fst (PhysicsEngine.update 0 this (constantRandom 0.25))) in
  PhysicsEngine.isRunning this = true /\
  Vector2D.magnitude (velocity (PhysicsEngine.ballState this))
  <= maxVelocity (PhysicsEngine.config this) /\
  (exists e : HexagonEdge,
     In e (edges (PhysicsEngine.hexagon this)) /\
     edgeDistance (position (PhysicsEngine.ballState this)) e
     <= ballRadius (PhysicsEngine.config this)) /\
  velocity b' = vec 0 (- 60) /\
  position b' = vec 400 (288 + 100 * sqrt 3).
Proof.
  cbv zeta. pose proof sqrt3_bounds as Hs.
  set (this := runningEngine demoConfig (vec 400 470) (vec 0 100)).
  assert (Hrun : PhysicsEngine.isRunning this = true) by reflexivity.
  assert (Hcap : Vector2D.magnitude (velocity (PhysicsEngine.ballState this))
                 <= maxVelocity (PhysicsEngine.config this))
    by (apply magnitude_le; cbn; lra).
  pose proof (integrated_zero_dt this Hcap) as Hint.
  change (position (PhysicsEngine.ballState this)) with (vec 400 470) in Hint.
  change (velocity (PhysicsEngine.ballState this)) with (vec 0 100) in Hint.
  assert (Hcol : collisionAfterIntegration 0 this
                 = mkCollision true
                     (Some (mkEdge (vec 500 (300 + 100 * sqrt 3))
                              (vec 300 (300 + 100 * sqrt 3)) (vec 0 (- 1))))
                     (Some (vec 400 (300 + 100 * sqrt 3)))
                     (Some (12 - (100 * sqrt 3 - 170)))).
  { unfold collisionAfterIntegration.
    destruct (integrated_frame 0 this) as (Hc & Hh & _).
    rewrite Hc, Hh, Hint. exact demo_bottom_collision. }
  split; [exact Hrun|]. split; [exact Hcap|]. split.
  - exists (hexEdgeAt (vec 400 300) 200 0 1). split.
    + apply hexEdgeAt_In; [lra | lia].
    + rewrite demo_bottom_edge. unfold edgeDistance; cbn [start end_].
      change (position (PhysicsEngine.ballState this)) with (vec 400 470).
      rewrite demo_bottom_edge_distance. cbn. lra.
  - rewrite (update_collision 0 this (constantRandom 0.25) _ _ _ Hrun Hcol).
    unfold PhysicsEngine.resolveCollision.
    destruct (integrated_frame 0 this) as (Hc & _ & _).
    rewrite Hc, Hint. cbn [position velocity acceleration normal].
    change (restitution (PhysicsEngine.config this)) with 0.8.
    assert (Hv : PhysicsEngine.reflectedVelocity 0.8 (vec 0 (- 1)) (vec 0 100)
                 = vec 0 (- 60)).
    { unfold PhysicsEngine.reflectedVelocity, Vector2D.dot;
        cbn [Vector2D.x Vector2D.y]. f_equal; lra. }
    rewrite Hv. cbn [Vector2D.x Vector2D.y].
    replace (ltb (Rabs (- 60)) 10) with false.
    2:{ symmetry. apply ltb_false. rewrite Rabs_left; lra. }
    rewrite andb_false_r.
    cbn [fst PhysicsEngine.updateHexagonRotation PhysicsEngine.ballState
         PhysicsEngine.withBall velocity position].
    split; [reflexivity|].
    unfold Vector2D.add, Vector2D.multiply; cbn [Vector2D.x Vector2D.y].
    f_equal; lra.
Qed.

(** C10. For every engine in the Running state whose ball speed is at most
    [maxVelocity] and whose ball center is at a distance strictly greater
    than [ballRadius] from every edge of the stored hexagon, [update 0]
    leaves the ball's position and velocity unchanged.  Both hypotheses are
    needed: some Running engine within the speed cap whose ball overlaps an
    edge, and some Running engine clear of every edge whose speed exceeds
    [maxVelocity], leave [update 0] with another velocity, because collision
    resolution and the speed clamp run whatever the timestep. *)
Theorem update_zero_timestep :
  (forall (this : PhysicsEngine) (rs : RandomSource),
     PhysicsEngine.isRunning this = true ->
     Vector2D.magnitude (velocity (PhysicsEngine.ballState this))
     <= maxVelocity (PhysicsEngine.config this) ->
     (forall e : HexagonEdge,
        In e (edges (PhysicsEngine.hexagon this)) ->
        ballRadius (PhysicsEngine.config this)
        < edgeDistance (position (PhysicsEngine.ballState this)) e) ->
     position (PhysicsEngine.ballState (fst (PhysicsEngine.update 0 this rs)))
     = position (PhysicsEngine.ballState this) /\
     velocity (PhysicsEngine.ballState (fst (PhysicsEngine.update 0 this rs)))
     = velocity (PhysicsEngine.ballState this)) /\
  (exists (this : PhysicsEngine) (rs : RandomSource),
     PhysicsEngine.isRunning this = true /\
     Vector2D.magnitude (velocity (PhysicsEngine.ballState this))
     <= maxVelocity (PhysicsEngine.config this) /\
     (exists e : HexagonEdge,
        In e (edges (PhysicsEngine.hexagon this)) /\
        edgeDistance (position (PhysicsEngine.ballState this)) e
        <= ballRadius (PhysicsEngine.config this)) /\
     velocity (PhysicsEngine.ballState (fst (PhysicsEngine.update 0 this rs)))
     <> velocity (PhysicsEngine.ballState this)) /\
  (exists (this : PhysicsEngine) (rs : RandomSource),
     PhysicsEngine.isRunning this = true /\
     (forall e : HexagonEdge,
        In e (edges (PhysicsEngine.hexagon this)) ->
        ballRadius (PhysicsEngine.config this)
        < edgeDistance (position (PhysicsEngine.ballState this)) e) /\
     maxVelocity (PhysicsEngine.config this)
     < Vector2D.magnitude (velocity (PhysicsEngine.ballState this)) /\
     velocity (PhysicsEngine.ballState (fst (PhysicsEngine.update 0 this rs)))
     <> velocity (PhysicsEngine.ballState this)).
Proof.
  split; [exact update_zero_dt_unchanged|]. split.
  - pose proof update_zero_dt_bounces as H. cbv zeta in H.
    destruct H as (Hrun & Hcap & Hover & Hv & _).
    exists (runningEngine demoConfig (vec 400 470) (vec 0 100)),
           (constantRandom 0.25).
    repeat split; try assumption.
    rewrite Hv. intros Heq. cbn in Heq. injection Heq as Hy. lra.
  - pose proof update_zero_dt_clamps as H. cbv zeta in H.
    destruct H as (Hrun & Hfar & Hover & Hv).
    exists (runningEngine (mkConfig 500 0.02 0.8 1 12 1) (vec 400 300)
              (vec 3 4)),
           (constantRandom 0.25).
    repeat split; try assumption.
    rewrite Hv. intros Heq. cbn in Heq. injection Heq as Hx Hy. lra.
Qed.

(** The demo engine with the ball at the center, moving at 50 px/s: a step
    of zero seconds leaves it there. *)
Lemma update_zero_timestep_witness :
  let this := runningEngine demoConfig (vec 400 300) (vec 30 40) in
  let b' := PhysicsEngine.ballState
              (fst (PhysicsEngine.update 0 this (constantRandom 0.25))) in
  PhysicsEngine.isRunning this = true /\
  Vector2D.magnitude (velocity (PhysicsEngine.ballState this))
  <= maxVelocity (PhysicsEngine.config this) /\
  position b' = vec 400 300 /\
  velocity b' = vec 30 40.
Proof.
  cbv zeta.
  set (this := runningEngine demoConfig (vec 400 300) (vec 30 40)).
  assert (Hrun : PhysicsEngine.isRunning this = true) by reflexivity.
  assert (Hcap : Vector2D.magnitude (velocity (PhysicsEngine.ballState this))
                 <= maxVelocity (PhysicsEngine.config this))
    by (apply magnitude_le; cbn; lra).
  assert (Hfar : forall e : HexagonEdge,
            In e (edges (PhysicsEngine.hexagon this)) ->
            ballRadius (PhysicsEngine.config this)
            < edgeDistance (position (PhysicsEngine.ballState this)) e).
  { change (PhysicsEngine.hexagon this) with demoHexagon.
    change (position (PhysicsEngine.ballState this)) with (vec 400 300).
    change (ballRadius (PhysicsEngine.config this)) with 12.
    unfold demoHexagon. apply no_collision_inside; [lra|].
    assert (Hd : Vector2D.distance (vec 400 300) (vec 400 300) < 1)
      by (apply distance_lt; cbn; lra).
    unfold inradius. pose proof sqrt3_bounds. lra. }
  split; [exact Hrun|]. split; [exact Hcap|].
  exact (proj1 update_zero_timestep this (constantRandom 0.25) Hrun Hcap Hfar).
Defined.

(** * Further properties of the code *)

(** ** [Vector2D]: normalisation, rotation, reflection, distance *)

Lemma magnitude_zero_iff (v : Vector2D) :
  Vector2D.magnitude v = 0 <-> v = vec 0 0.
Proof.
  destruct v as [vx vy]. split.
  - intros H. pose proof (magnitude_sq (vec vx vy)) as Hsq.
    rewrite H in Hsq. unfold Vector2D.magnitudeSquared in Hsq.
    cbn [Vector2D.x Vector2D.y] in Hsq.
    destruct (Rplus_sqr_eq_0 vx vy) as [Hx Hy]; [unfold Rsqr; lra|].
    now rewrite Hx, Hy.
  - intros H. injection H as -> ->.
    apply magnitude_known; cbn; lra.
Qed.

Lemma normalize_nonzero (v : Vector2D) :
  v <> vec 0 0 ->
  Vector2D.normalize v = Vector2D.divide v (Vector2D.magnitude v).
Proof.
  intros Hv. unfold Vector2D.normalize.
  destruct (eqb (Vector2D.magnitude v) 0) eqn:E; [|reflexivity].
  apply eqb_true, magnitude_zero_iff in E. contradiction.
Qed.

Lemma normalize_magnitude (v : Vector2D) :
  v <> vec 0 0 -> Vector2D.magnitude (Vector2D.normalize v) = 1.
Proof.
  intros Hv. rewrite (normalize_nonzero v Hv).
  assert (Hm : 0 < Vector2D.magnitude v).
  { pose proof (magnitude_nonneg v) as H0.
    destruct (Req_dec_T (Vector2D.magnitude v) 0) as [E | E]; [|lra].
    apply magnitude_zero_iff in E. contradiction. }
  unfold Vector2D.divide, Rdiv.
  rewrite (magnitude_scale v (/ Vector2D.magnitude v)).
  - field. lra.
  - left. now apply Rinv_0_lt_compat.
Qed.

(** X1. [normalize] of a vector other than [(0, 0)] divides it by its
    magnitude: the result has magnitude 1 and, scaled back by the original
    magnitude, gives the vector again. *)
Theorem normalize_unit (v : Vector2D) :
  v <> vec 0 0 ->
  Vector2D.magnitude (Vector2D.normalize v) = 1 /\
  Vector2D.multiply (Vector2D.normalize v) (Vector2D.magnitude v) = v.
Proof.
  intros Hv. split; [now apply normalize_magnitude|].
  rewrite (normalize_nonzero v Hv).
  assert (Hm : Vector2D.magnitude v <> 0).
  { intros E. apply magnitude_zero_iff in E. contradiction. }
  destruct v as [vx vy].
  unfold Vector2D.multiply, Vector2D.divide; cbn [Vector2D.x Vector2D.y].
  f_equal; field; exact Hm.
Qed.

Lemma normalize_unit_witness :
  vec 3 4 <> vec 0 0 /\
  Vector2D.magnitude (Vector2D.normalize (vec 3 4)) = 1.
Proof.
  assert (H : vec 3 4 <> vec 0 0) by (intros E; injection E; lra).
  split; [exact H | exact (proj1 (normalize_unit (vec 3 4) H))].
Defined.

(** X2. [normalize] is idempotent on every vector: the zero vector is
    returned as it is (the guard on a zero magnitude), and a unit vector is
    not changed by a second normalisation. *)
Theorem normalize_idempotent (v : Vector2D) :
  Vector2D.normalize (Vector2D.normalize v) = Vector2D.normalize v.
Proof.
  destruct (Req_dec_T (Vector2D.magnitude v) 0) as [E | E].
  - assert (Hz : Vector2D.normalize v = vec 0 0).
    { unfold Vector2D.normalize.
      replace (eqb (Vector2D.magnitude v) 0) with true
        by (symmetry; now apply eqb_true).
      reflexivity. }
    rewrite Hz. unfold Vector2D.normalize.
    replace (eqb (Vector2D.magnitude (vec 0 0)) 0) with true; [reflexivity|].
    symmetry. apply eqb_true. now apply magnitude_zero_iff.
  - assert (Hv : v <> vec 0 0).
    { intros Hv. apply E. now apply magnitude_zero_iff. }
    pose proof (normalize_magnitude v Hv) as H1.
    unfold Vector2D.normalize at 1. rewrite H1.
    replace (eqb 1 0) with false by (symmetry; apply eqb_false; lra).
    destruct (Vector2D.normalize v) as [nx ny].
    unfold Vector2D.divide; cbn [Vector2D.x Vector2D.y]. f_equal; field.
Qed.

(** X3. Rotations compose by adding their angles, the rotation by 0 is the
    identity, rotating back by the opposite angle returns the vector, and a
    rotation keeps the magnitude. *)
Theorem rotate_composes (v : Vector2D) (a b : R) :
  Vector2D.rotate (Vector2D.rotate v a) b = Vector2D.rotate v (a + b) /\
  Vector2D.rotate v 0 = v /\
  Vector2D.rotate (Vector2D.rotate v a) (- a) = v /\
  Vector2D.magnitude (Vector2D.rotate v a) = Vector2D.magnitude v.
Proof.
  destruct v as [vx vy].
  assert (Hcomp : forall a b : R,
            Vector2D.rotate (Vector2D.rotate (vec vx vy) a) b
            = Vector2D.rotate (vec vx vy) (a + b)).
  { intros a' b'. unfold Vector2D.rotate; cbn [Vector2D.x Vector2D.y].
    rewrite cos_plus, sin_plus. f_equal; ring. }
  assert (Hid : Vector2D.rotate (vec vx vy) 0 = vec vx vy).
  { unfold Vector2D.rotate; cbn [Vector2D.x Vector2D.y].
    rewrite cos_0, sin_0. f_equal; ring. }
  split; [apply Hcomp|]. split; [exact Hid|]. split.
  - rewrite Hcomp. replace (a + - a) with 0 by ring. exact Hid.
  - unfold Vector2D.rotate, Vector2D.magnitude; cbn [Vector2D.x Vector2D.y].
    f_equal. pose proof (cos_sin_sq a) as Hcs.
    replace ((vx * cos a - vy * sin a) * (vx * cos a - vy * sin a)
             + (vx * sin a + vy * cos a) * (vx * sin a + vy * cos a))
      with ((vx * vx + vy * vy) * (cos a * cos a + sin a * sin a)) by ring.
    rewrite Hcs. ring.
Qed.

(** X4. Reflection about a unit normal is an involution, keeps the
    magnitude, and reverses the component along the normal. *)
Theorem reflect_unit_normal (v n : Vector2D) :
  Vector2D.magnitude n = 1 ->
  Vector2D.reflect (Vector2D.reflect v n) n = v /\
  Vector2D.magnitude (Vector2D.reflect v n) = Vector2D.magnitude v /\
  Vector2D.dot (Vector2D.reflect v n) n = - Vector2D.dot v n.
Proof.
  intros Hu. apply unit_of_magnitude in Hu.
  destruct v as [vx vy], n as [nx ny].
  cbn [Vector2D.x Vector2D.y] in Hu.
  unfold Vector2D.reflect, Vector2D.dot, Vector2D.magnitude;
    cbn [Vector2D.x Vector2D.y].
  assert (Hd : (vx - 2 * (vx * nx + vy * ny) * nx) * nx
               + (vy - 2 * (vx * nx + vy * ny) * ny) * ny
               = - (vx * nx + vy * ny)).
  { replace ((vx - 2 * (vx * nx + vy * ny) * nx) * nx
             + (vy - 2 * (vx * nx + vy * ny) * ny) * ny)
      with ((vx * nx + vy * ny)
            - 2 * (vx * nx + vy * ny) * (nx * nx + ny * ny)) by ring.
    rewrite Hu. ring. }
  split; [|split].
  - rewrite Hd. f_equal; ring.
  - f_equal.
    replace ((vx - 2 * (vx * nx + vy * ny) * nx)
             * (vx - 2 * (vx * nx + vy * ny) * nx)
             + (vy - 2 * (vx * nx + vy * ny) * ny)
               * (vy - 2 * (vx * nx + vy * ny) * ny))
      with (vx * vx + vy * vy
            - 4 * (vx * nx + vy * ny) * (vx * nx + vy * ny)
            + 4 * (vx * nx + vy * ny) * (vx * nx + vy * ny)
              * (nx * nx + ny * ny)) by ring.
    rewrite Hu. ring.
  - exact Hd.
Qed.

Lemma reflect_unit_normal_witness :
  Vector2D.magnitude (vec 0 1) = 1 /\
  Vector2D.reflect (Vector2D.reflect (vec 3 4) (vec 0 1)) (vec 0 1) = vec 3 4.
Proof.
  assert (H : Vector2D.magnitude (vec 0 1) = 1)
    by (apply magnitude_known; cbn; lra).
  split; [exact H | exact (proj1 (reflect_unit_normal (vec 3 4) (vec 0 1) H))].
Defined.

(** X5. With [restitution = 1] the reflection step of [resolveCollision] is
    [Vector2D.reflect] about the edge normal, and on every edge of a hexagon
    built by [createHexagon] with a positive radius it keeps the speed
    exactly. *)
Theorem elastic_bounce_keeps_speed
  (c : Vector2D) (r theta : R) (e : HexagonEdge) (v : Vector2D) :
  0 < r ->
  In e (edges (createHexagon c r theta)) ->
  PhysicsEngine.reflectedVelocity 1 (normal e) v
  = Vector2D.reflect v (normal e) /\
  Vector2D.magnitude (PhysicsEngine.reflectedVelocity 1 (normal e) v)
  = Vector2D.magnitude v.
Proof.
  intros Hr Hin.
  pose proof (normal_unit_createHexagon c r theta e Hr Hin) as Hn.
  split.
  - unfold PhysicsEngine.reflectedVelocity, Vector2D.reflect. f_equal; ring.
  - rewrite !magnitude_as_sqrt, (reflectedVelocity_sq 1 (normal e) v Hn).
    f_equal. ring.
Qed.

Lemma elastic_bounce_keeps_speed_witness :
  Vector2D.magnitude
    (PhysicsEngine.reflectedVelocity 1
       (normal (hexEdgeAt (vec 400 300) 200 0 1)) (vec 30 40))
  = Vector2D.magnitude (vec 30 40).
Proof.
  assert (Hr : 0 < 200) by lra.
  apply (elastic_bounce_keeps_speed (vec 400 300) 200 0
           (hexEdgeAt (vec 400 300) 200 0 1) (vec 30 40) Hr).
  apply hexEdgeAt_In; [exact Hr | lia].
Defined.

Lemma distance_zero_iff (p q : Vector2D) :
  Vector2D.distance p q = 0 <-> p = q.
Proof.
  rewrite distance_as_magnitude, magnitude_zero_iff.
  destruct p as [px py], q as [qx qy].
  unfold Vector2D.subtract; cbn [Vector2D.x Vector2D.y]. split.
  - intros H. injection H as Hx Hy. f_equal; lra.
  - intros H. injection H as -> ->. f_equal; ring.
Qed.

Lemma distance_triangle (p q s : Vector2D) :
  Vector2D.distance p s <= Vector2D.distance p q + Vector2D.distance q s.
Proof.
  pose proof (triangle (Vector2D.x p) (Vector2D.y p)
                (Vector2D.x s) (Vector2D.y s)
                (Vector2D.x q) (Vector2D.y q)) as H.
  unfold dist_euc, Rsqr in H. exact H.
Qed.

Lemma distance_sym (p q : Vector2D) :
  Vector2D.distance p q = Vector2D.distance q p.
Proof. rewrite !distance_as_magnitude. apply magnitude_subtract_sym. Qed.

(** X6. [distance] is a metric: it is symmetric, it is zero exactly between
    equal vectors, never negative, and it satisfies the triangle
    inequality. *)
Theorem distance_metric (p q s : Vector2D) :
  Vector2D.distance p q = Vector2D.distance q p /\
  0 <= Vector2D.distance p q /\
  (Vector2D.distance p q = 0 <-> p = q) /\
  Vector2D.distance p s <= Vector2D.distance p q + Vector2D.distance q s.
Proof.
  split; [apply distance_sym|]. split.
  - rewrite distance_as_magnitude. apply magnitude_nonneg.
  - split; [apply distance_zero_iff | apply distance_triangle].
Qed.

Lemma magnitude_multiply (v : Vector2D) (k : R) :
  Vector2D.magnitude (Vector2D.multiply v k) = Rabs k * Vector2D.magnitude v.
Proof.
  unfold Vector2D.multiply.
  destruct (Rle_lt_dec 0 k) as [Hk | Hk].
  - rewrite (Rabs_right k) by lra. now apply magnitude_scale.
  - rewrite (Rabs_left k) by lra.
    rewrite <- (magnitude_scale v (- k)) by lra.
    unfold Vector2D.magnitude; cbn [Vector2D.x Vector2D.y]. f_equal. ring.
Qed.

(** X7. Scaling a vector by [k] scales its magnitude by [|k|], and for
    [k <> 0] [divide] undoes [multiply] and [multiply] undoes [divide]. *)
Theorem multiply_divide_inverse (v : Vector2D) (k : R) :
  k <> 0 ->
  Vector2D.divide (Vector2D.multiply v k) k = v /\
  Vector2D.multiply (Vector2D.divide v k) k = v /\
  Vector2D.magnitude (Vector2D.multiply v k) = Rabs k * Vector2D.magnitude v.
Proof.
  intros Hk. destruct v as [vx vy].
  split; [|split].
  - unfold Vector2D.divide, Vector2D.multiply; cbn [Vector2D.x Vector2D.y].
    f_equal; field; exact Hk.
  - unfold Vector2D.divide, Vector2D.multiply; cbn [Vector2D.x Vector2D.y].
    f_equal; field; exact Hk.
  - apply magnitude_multiply.
Qed.

Lemma multiply_divide_inverse_witness :
  2 <> 0 /\
  Vector2D.divide (Vector2D.multiply (vec 3 4) 2) 2 = vec 3 4.
Proof.
  assert (H : 2 <> 0) by lra.
  split; [exact H | exact (proj1 (multiply_divide_inverse (vec 3 4) 2 H))].
Defined.

(** ** [rotateHexagon] and the symmetries of [createHexagon] *)

Lemma createHexagon_rotation_eq (c : Vector2D) (r a b : R) :
  a = b -> createHexagon c r a = createHexagon c r b.
Proof. intros ->. reflexivity. Qed.

(** X8. [rotateHexagon] rebuilds the hexagon from the stored center, radius
    and rotation: whatever hexagon it is given, the result keeps center and
    radius, adds the angle to the rotation and has 6 vertices and 6 edges;
    two rotations compose by adding their angles, and rotating a hexagon
    built by [createHexagon] forth and back returns exactly that hexagon. *)
Theorem rotateHexagon_composes (h : Hexagon) (a b : R) :
  center (rotateHexagon h a) = center h /\
  radius (rotateHexagon h a) = radius h /\
  rotation (rotateHexagon h a) = rotation h + a /\
  length (vertices (rotateHexagon h a)) = 6%nat /\
  length (edges (rotateHexagon h a)) = 6%nat /\
  rotateHexagon (rotateHexagon h a) b = rotateHexagon h (a + b) /\
  (forall (c : Vector2D) (r theta : R),
     rotateHexagon (rotateHexagon (createHexagon c r theta) a) (- a)
     = createHexagon c r theta).
Proof.
  repeat split.
  - unfold rotateHexagon. cbn [center radius rotation createHexagon].
    apply createHexagon_rotation_eq. ring.
  - intros c r theta. unfold rotateHexagon.
    cbn [center radius rotation createHexagon].
    apply createHexagon_rotation_eq. ring.
Qed.

Lemma hexVertex_shift (c : Vector2D) (r theta : R) (i : nat) :
  (i < 6)%nat ->
  hexVertex c r (theta + PI / 3) i = hexVertex c r theta ((i + 1) mod 6).
Proof.
  intros Hi. rewrite (next_vertex c r theta i Hi).
  unfold hexVertex, vertexAngle.
  replace (INR i * PI / 3 + (theta + PI / 3))
    with (INR i * PI / 3 + theta + PI / 3) by ring.
  reflexivity.
Qed.

Lemma hexVertex_full_turn (c : Vector2D) (r theta : R) (i : nat) :
  hexVertex c r (theta + 2 * PI) i = hexVertex c r theta i.
Proof.
  unfold hexVertex.
  replace (INR i * PI / 3 + (theta + 2 * PI))
    with (INR i * PI / 3 + theta + 2 * INR 1 * PI) by (simpl INR; ring).
  now rewrite cos_period, sin_period.
Qed.

(** X9. The hexagon built by [createHexagon] has the symmetry of a regular
    hexagon: rotating by 60 degrees moves vertex [(i + 1) mod 6] to position
    [i], and rotating by a full turn gives the same vertices and the same
    edges (only the stored [rotation] differs). *)
Theorem createHexagon_symmetry (c : Vector2D) (r theta : R) :
  (forall i : nat, (i < 6)%nat ->
     nth i (vertices (createHexagon c r (theta + PI / 3))) (vec 0 0)
     = nth ((i + 1) mod 6) (vertices (createHexagon c r theta)) (vec 0 0)) /\
  vertices (createHexagon c r (theta + 2 * PI))
  = vertices (createHexagon c r theta) /\
  edges (createHexagon c r (theta + 2 * PI))
  = edges (createHexagon c r theta).
Proof.
  assert (Hv : vertices (createHexagon c r (theta + 2 * PI))
               = vertices (createHexagon c r theta)).
  { unfold createHexagon; cbn [vertices]. apply map_ext.
    intros i. apply hexVertex_full_turn. }
  split; [|split].
  - intros i Hi.
    rewrite (vertices_createHexagon c r (theta + PI / 3) i Hi).
    rewrite (vertices_createHexagon c r theta ((i + 1) mod 6))
      by (apply Nat.mod_upper_bound; lia).
    now apply hexVertex_shift.
  - exact Hv.
  - unfold createHexagon in *; cbn [vertices edges] in *.
    rewrite Hv. reflexivity.
Qed.

(** ** [getHexagonBounds] *)

Lemma tightBounds_step (s : list Vector2D) (x0 x1 y0 y1 : R) (v : Vector2D) :
  tightBounds s x0 x1 y0 y1 ->
  tightBounds (s ++ [v])
    (Rmin x0 (Vector2D.x v)) (Rmax x1 (Vector2D.x v))
    (Rmin y0 (Vector2D.y v)) (Rmax y1 (Vector2D.y v)).
Proof.
  intros (Hall & (a & Ha & Hax) & (b & Hb & Hbx) & (c & Hc & Hcy)
          & (d & Hd & Hdy)).
  pose proof (Rmin_l x0 (Vector2D.x v)). pose proof (Rmin_r x0 (Vector2D.x v)).
  pose proof (Rmax_l x1 (Vector2D.x v)). pose proof (Rmax_r x1 (Vector2D.x v)).
  pose proof (Rmin_l y0 (Vector2D.y v)). pose proof (Rmin_r y0 (Vector2D.y v)).
  pose proof (Rmax_l y1 (Vector2D.y v)). pose proof (Rmax_r y1 (Vector2D.y v)).
  unfold tightBounds. split; [|repeat split].
  - intros w Hw. apply in_app_or in Hw. destruct Hw as [Hw | [<- | []]].
    + destruct (Hall w Hw) as [[? ?] [? ?]]. lra.
    + lra.
  - destruct (Rle_dec x0 (Vector2D.x v)) as [L | L].
    + exists a. split; [apply in_or_app; now left|].
      rewrite Rmin_left by exact L. exact Hax.
    + exists v. split; [apply in_or_app; right; now left|].
      rewrite Rmin_right by lra. reflexivity.
  - destruct (Rle_dec x1 (Vector2D.x v)) as [L | L].
    + exists v. split; [apply in_or_app; right; now left|].
      rewrite Rmax_right by exact L. reflexivity.
    + exists b. split; [apply in_or_app; now left|].
      rewrite Rmax_left by lra. exact Hbx.
  - destruct (Rle_dec y0 (Vector2D.y v)) as [L | L].
    + exists c. split; [apply in_or_app; now left|].
      rewrite Rmin_left by exact L. exact Hcy.
    + exists v. split; [apply in_or_app; right; now left|].
      rewrite Rmin_right by lra. reflexivity.
  - destruct (Rle_dec y1 (Vector2D.y v)) as [L | L].
    + exists v. split; [apply in_or_app; right; now left|].
      rewrite Rmax_right by exact L. reflexivity.
    + exists d. split; [apply in_or_app; now left|].
      rewrite Rmax_left by lra. exact Hdy.
Qed.

Lemma bounds_fold (l : list Vector2D) :
  forall (s : list Vector2D) (x0 x1 y0 y1 : R),
    tightBounds s x0 x1 y0 y1 ->
    exists x0' x1' y0' y1' : R,
      fold_left boundsStep l
        (mkBounds (Number x0) (Number x1) (Number y0) (Number y1))
      = mkBounds (Number x0') (Number x1') (Number y0') (Number y1') /\
      tightBounds (s ++ l) x0' x1' y0' y1'.
Proof.
  induction l as [|v l IH]; intros s x0 x1 y0 y1 Ht.
  - exists x0, x1, y0, y1. rewrite app_nil_r. split; [reflexivity | exact Ht].
  - cbn [fold_left]. unfold boundsStep at 2.
    cbn [minX maxX minY maxY Math_min Math_max].
    destruct (IH (s ++ [v]) _ _ _ _ (tightBounds_step s x0 x1 y0 y1 v Ht))
      as (x0' & x1' & y0' & y1' & Hf & Ht').
    exists x0', x1', y0', y1'. split; [exact Hf|].
    rewrite <- app_assoc in Ht'. exact Ht'.
Qed.

Lemma tightBounds_single (v : Vector2D) :
  tightBounds [v] (Vector2D.x v) (Vector2D.x v) (Vector2D.y v) (Vector2D.y v).
Proof.
  unfold tightBounds. split; [|repeat split].
  - intros w [<- | []]. lra.
  - exists v. split; [now left | reflexivity].
  - exists v. split; [now left | reflexivity].
  - exists v. split; [now left | reflexivity].
  - exists v. split; [now left | reflexivity].
Qed.

Lemma getHexagonBounds_nonempty (h : Hexagon) :
  vertices h <> [] ->
  exists x0 x1 y0 y1 : R,
    getHexagonBounds h
    = mkBounds (Number x0) (Number x1) (Number y0) (Number y1) /\
    tightBounds (vertices h) x0 x1 y0 y1.
Proof.
  intros Hne. unfold getHexagonBounds.
  destruct (vertices h) as [|v l]; [congruence|].
  cbn [fold_left]. unfold boundsStep at 2.
  cbn [minX maxX minY maxY Math_min Math_max].
  exact (bounds_fold l [v] _ _ _ _ (tightBounds_single v)).
Qed.

(** X10. For a hexagon with at least one vertex, [getHexagonBounds] returns
    four finite numbers that are the least and greatest [x] and [y] among the
    vertices: every vertex lies within them and each is the coordinate of
    some vertex. *)
Theorem getHexagonBounds_tight (h : Hexagon) :
  vertices h <> [] ->
  exists x0 x1 y0 y1 : R,
    getHexagonBounds h
    = mkBounds (Number x0) (Number x1) (Number y0) (Number y1) /\
    tightBounds (vertices h) x0 x1 y0 y1.
Proof. apply getHexagonBounds_nonempty. Qed.

Lemma getHexagonBounds_tight_witness :
  vertices demoHexagon <> [] /\
  exists x0 x1 y0 y1 : R,
    getHexagonBounds demoHexagon
    = mkBounds (Number x0) (Number x1) (Number y0) (Number y1) /\
    tightBounds (vertices demoHexagon) x0 x1 y0 y1.
Proof.
  assert (H : vertices demoHexagon <> []) by discriminate.
  split; [exact H | exact (getHexagonBounds_tight demoHexagon H)].
Defined.

(** X11. Without vertices [getHexagonBounds] returns its initial values,
    [Infinity] for the two minima and [-Infinity] for the two maxima; and the
    bounds of a hexagon built by [createHexagon] lie within [|radius|] of the
    center in both coordinates. *)
Theorem getHexagonBounds_edge_cases :
  (forall h : Hexagon,
     vertices h = [] ->
     getHexagonBounds h
     = mkBounds PlusInfinity MinusInfinity PlusInfinity MinusInfinity) /\
  (forall (c : Vector2D) (r theta : R),
     exists x0 x1 y0 y1 : R,
       getHexagonBounds (createHexagon c r theta)
       = mkBounds (Number x0) (Number x1) (Number y0) (Number y1) /\
       Vector2D.x c - Rabs r <= x0 /\ x1 <= Vector2D.x c + Rabs r /\
       Vector2D.y c - Rabs r <= y0 /\ y1 <= Vector2D.y c + Rabs r).
Proof.
  split.
  - intros h Hv. unfold getHexagonBounds. rewrite Hv. reflexivity.
  - intros c r theta.
    assert (Hne : vertices (createHexagon c r theta) <> []) by discriminate.
    destruct (getHexagonBounds_nonempty _ Hne)
      as (x0 & x1 & y0 & y1 & Hb & _ & (a & Ha & Hax) & (b & Hbi & Hbx)
          & (p & Hp & Hpy) & (d & Hd & Hdy)).
    exists x0, x1, y0, y1. split; [exact Hb|].
    assert (Hvert : forall v : Vector2D,
              In v (vertices (createHexagon c r theta)) ->
              Vector2D.x c - Rabs r <= Vector2D.x v <= Vector2D.x c + Rabs r /\
              Vector2D.y c - Rabs r <= Vector2D.y v <= Vector2D.y c + Rabs r).
    { intros v Hv. unfold createHexagon in Hv; cbn [vertices] in Hv.
      apply in_map_iff in Hv. destruct Hv as (i & <- & _).
      unfold hexVertex; cbn [Vector2D.x Vector2D.y].
      pose proof (COS_bound (INR i * PI / 3 + theta)) as [Hc1 Hc2].
      pose proof (SIN_bound (INR i * PI / 3 + theta)) as [Hs1 Hs2].
      unfold Rabs. destruct (Rcase_abs r); split; split; nra. }
    destruct (Hvert a Ha) as [[? ?] _]. destruct (Hvert b Hbi) as [[? ?] _].
    destruct (Hvert p Hp) as [_ [? ?]]. destruct (Hvert d Hd) as [_ [? ?]].
    repeat split; lra.
Qed.

(** ** [isPointInsideHexagon] *)

Lemma gtb_true (a b : R) : gtb a b = true <-> b < a.
Proof. unfold gtb. apply ltb_true. Qed.

Lemma gtb_false (a b : R) : gtb a b = false <-> a <= b.
Proof. unfold gtb. apply ltb_false. Qed.

(** The crossing of the ray with the line of the edge lies between the
    [x] coordinates of the two endpoints. *)
Lemma intersection_between (py sx sy ex ey : R) :
  (sy <= py < ey \/ ey <= py < sy) ->
  Rmin sx ex <= sx + (py - sy) * (ex - sx) / (ey - sy) <= Rmax sx ex.
Proof.
  intros Hs.
  assert (Hd : ey - sy <> 0) by lra.
  set (t := (py - sy) / (ey - sy)).
  assert (Ht : 0 <= t <= 1).
  { unfold t. destruct Hs as [[H1 H2] | [H1 H2]].
    - split.
      + apply Rmult_le_pos; [lra|]. left. apply Rinv_0_lt_compat. lra.
      + apply Rmult_le_reg_r with (ey - sy); [lra|].
        unfold Rdiv. rewrite Rmult_assoc, Rinv_l by exact Hd. lra.
    - assert (Hneg : 0 < sy - ey) by lra.
      replace ((py - sy) / (ey - sy)) with ((sy - py) / (sy - ey))
        by (field; lra).
      split.
      + apply Rmult_le_pos; [lra|]. left. apply Rinv_0_lt_compat. lra.
      + apply Rmult_le_reg_r with (sy - ey); [lra|].
        unfold Rdiv. rewrite Rmult_assoc, Rinv_l by lra. lra. }
  replace (sx + (py - sy) * (ex - sx) / (ey - sy))
    with (sx + t * (ex - sx)) by (unfold t; field; exact Hd).
  unfold Rmin, Rmax. destruct (Rle_dec sx ex); nra.
Qed.

Lemma straddle_cases (p s e : Vector2D) :
  Bool.eqb (gtb (Vector2D.y s) (Vector2D.y p))
           (gtb (Vector2D.y e) (Vector2D.y p)) = false ->
  Vector2D.y s <= Vector2D.y p < Vector2D.y e
  \/ Vector2D.y e <= Vector2D.y p < Vector2D.y s.
Proof.
  destruct (gtb (Vector2D.y s) (Vector2D.y p)) eqn:A;
    destruct (gtb (Vector2D.y e) (Vector2D.y p)) eqn:B;
    cbn; intros H; try discriminate.
  - apply gtb_true in A. apply gtb_false in B. right. lra.
  - apply gtb_false in A. apply gtb_true in B. left. lra.
Qed.

(** An edge entirely at or left of the point is never crossed. *)
Lemma ray_misses_left_edge (p s e : Vector2D) :
  Vector2D.x s <= Vector2D.x p ->
  Vector2D.x e <= Vector2D.x p ->
  rayIntersectsEdge p s e = false.
Proof.
  intros Hs He. unfold rayIntersectsEdge.
  destruct (Bool.eqb _ _) eqn:E; [reflexivity|].
  apply gtb_false.
  pose proof (intersection_between (Vector2D.y p) (Vector2D.x s)
                (Vector2D.y s) (Vector2D.x e) (Vector2D.y e)
                (straddle_cases p s e E)) as [_ Hup].
  eapply Rle_trans; [exact Hup|].
  unfold Rmax. destruct (Rle_dec _ _); assumption.
Qed.

(** An edge entirely right of the point is crossed exactly when its
    endpoints are on different sides of the ray's line. *)
Lemma ray_meets_right_edge (p s e : Vector2D) :
  Vector2D.x p < Vector2D.x s ->
  Vector2D.x p < Vector2D.x e ->
  rayIntersectsEdge p s e
  = xorb (gtb (Vector2D.y s) (Vector2D.y p))
         (gtb (Vector2D.y e) (Vector2D.y p)).
Proof.
  intros Hs He. unfold rayIntersectsEdge.
  destruct (Bool.eqb _ _) eqn:E.
  - apply eqb_prop in E. rewrite E. now rewrite xorb_nilpotent.
  - pose proof (intersection_between (Vector2D.y p) (Vector2D.x s)
                  (Vector2D.y s) (Vector2D.x e) (Vector2D.y e)
                  (straddle_cases p s e E)) as [Hlow _].
    replace (gtb _ (Vector2D.x p)) with true.
    + destruct (gtb (Vector2D.y s) (Vector2D.y p));
        destruct (gtb (Vector2D.y e) (Vector2D.y p));
        cbn in *; congruence.
    + symmetry. apply gtb_true.
      eapply Rlt_le_trans; [|exact Hlow].
      unfold Rmin. destruct (Rle_dec _ _); assumption.
Qed.

(** An edge whose endpoints are on the same side of the ray's line is not
    crossed. *)
Lemma ray_misses_level_edge (p s e : Vector2D) :
  gtb (Vector2D.y s) (Vector2D.y p) = gtb (Vector2D.y e) (Vector2D.y p) ->
  rayIntersectsEdge p s e = false.
Proof.
  intros H. unfold rayIntersectsEdge. rewrite H, eqb_reflx. reflexivity.
Qed.

(** The edges of [createHexagon] as a cycle through six points. *)
Lemma isPointInsideHexagon_cycle (p c : Vector2D) (r theta : R) :
  let v := hexVertex c r theta in
  isPointInsideHexagon p (createHexagon c r theta)
  = Nat.eqb
      (((if rayIntersectsEdge p (v 0%nat) (v 1%nat) then 1 else 0)
        + (if rayIntersectsEdge p (v 1%nat) (v 2%nat) then 1 else 0)
        + (if rayIntersectsEdge p (v 2%nat) (v 3%nat) then 1 else 0)
        + (if rayIntersectsEdge p (v 3%nat) (v 4%nat) then 1 else 0)
        + (if rayIntersectsEdge p (v 4%nat) (v 5%nat) then 1 else 0)
        + (if rayIntersectsEdge p (v 5%nat) (v 0%nat) then 1 else 0)) mod 2)
      1.
Proof.
  cbv zeta. unfold isPointInsideHexagon, createHexagon.
  cbn [edges vertices map seq fold_left hexEdge nth start end_ Nat.add
       Nat.modulo Nat.divmod fst snd Nat.sub].
  destruct (rayIntersectsEdge p (hexVertex c r theta 0) (hexVertex c r theta 1));
  destruct (rayIntersectsEdge p (hexVertex c r theta 1) (hexVertex c r theta 2));
  destruct (rayIntersectsEdge p (hexVertex c r theta 2) (hexVertex c r theta 3));
  destruct (rayIntersectsEdge p (hexVertex c r theta 3) (hexVertex c r theta 4));
  destruct (rayIntersectsEdge p (hexVertex c r theta 4) (hexVertex c r theta 5));
  destruct (rayIntersectsEdge p (hexVertex c r theta 5) (hexVertex c r theta 0));
  reflexivity.
Qed.

Lemma hexVertex_In (c : Vector2D) (r theta : R) (k : nat) :
  (k < 6)%nat ->
  In (hexVertex c r theta k) (vertices (createHexagon c r theta)).
Proof.
  intros Hk. unfold createHexagon; cbn [vertices].
  apply in_map. apply in_seq. lia.
Qed.

(** X12. A point outside the bounding box that [getHexagonBounds] computes
    for a hexagon built by [createHexagon] (its [x] below [minX] or at least
    [maxX], or its [y] below [minY] or at least [maxY]) is never classified
    as inside by [isPointInsideHexagon]. *)
Theorem outside_bounds_not_inside
  (p c : Vector2D) (r theta x0 x1 y0 y1 : R) :
  getHexagonBounds (createHexagon c r theta)
  = mkBounds (Number x0) (Number x1) (Number y0) (Number y1) ->
  (Vector2D.x p < x0 \/ x1 <= Vector2D.x p
   \/ Vector2D.y p < y0 \/ y1 <= Vector2D.y p) ->
  isPointInsideHexagon p (createHexagon c r theta) = false.
Proof.
  intros Hb Hout.
  assert (Hne : vertices (createHexagon c r theta) <> []) by discriminate.
  destruct (getHexagonBounds_nonempty _ Hne)
    as (a0 & a1 & b0 & b1 & Hb' & Hall & _).
  rewrite Hb in Hb'. injection Hb' as <- <- <- <-.
  assert (H0 := Hall _ (hexVertex_In c r theta 0 ltac:(lia))).
  assert (H1 := Hall _ (hexVertex_In c r theta 1 ltac:(lia))).
  assert (H2 := Hall _ (hexVertex_In c r theta 2 ltac:(lia))).
  assert (H3 := Hall _ (hexVertex_In c r theta 3 ltac:(lia))).
  assert (H4 := Hall _ (hexVertex_In c r theta 4 ltac:(lia))).
  assert (H5 := Hall _ (hexVertex_In c r theta 5 ltac:(lia))).
  pose proof (isPointInsideHexagon_cycle p c r theta) as Hcyc.
  cbv zeta in Hcyc. rewrite Hcyc. clear Hcyc Hall Hb Hne.
  destruct Hout as [Hl | [Hr | [Ha | Hu]]].
  - rewrite !ray_meets_right_edge by lra.
    destruct (gtb (Vector2D.y (hexVertex c r theta 0)) (Vector2D.y p));
    destruct (gtb (Vector2D.y (hexVertex c r theta 1)) (Vector2D.y p));
    destruct (gtb (Vector2D.y (hexVertex c r theta 2)) (Vector2D.y p));
    destruct (gtb (Vector2D.y (hexVertex c r theta 3)) (Vector2D.y p));
    destruct (gtb (Vector2D.y (hexVertex c r theta 4)) (Vector2D.y p));
    destruct (gtb (Vector2D.y (hexVertex c r theta 5)) (Vector2D.y p));
    reflexivity.
  - rewrite !ray_misses_left_edge by lra. reflexivity.
  - assert (Hall : forall k : nat,
              y0 <= Vector2D.y (hexVertex c r theta k) ->
              gtb (Vector2D.y (hexVertex c r theta k)) (Vector2D.y p) = true)
      by (intros k Hk; apply gtb_true; lra).
    rewrite !ray_misses_level_edge by (rewrite !Hall by lra; reflexivity).
    reflexivity.
  - assert (Hall : forall k : nat,
              Vector2D.y (hexVertex c r theta k) <= y1 ->
              gtb (Vector2D.y (hexVertex c r theta k)) (Vector2D.y p) = false)
      by (intros k Hk; apply gtb_false; lra).
    rewrite !ray_misses_level_edge by (rewrite !Hall by lra; reflexivity).
    reflexivity.
Qed.

Lemma outside_bounds_not_inside_witness :
  exists x0 x1 y0 y1 : R,
    getHexagonBounds demoHexagon
    = mkBounds (Number x0) (Number x1) (Number y0) (Number y1) /\
    x1 <= 1000 /\
    isPointInsideHexagon (vec 1000 300) demoHexagon = false.
Proof.
  assert (Hne : vertices demoHexagon <> []) by discriminate.
  destruct (getHexagonBounds_nonempty demoHexagon Hne)
    as (x0 & x1 & y0 & y1 & Hb & _ & _ & (w & Hw & Hwx) & _).
  assert (Hx : x1 <= 1000).
  { unfold demoHexagon, createHexagon in Hw; cbn [vertices] in Hw.
    apply in_map_iff in Hw. destruct Hw as (j & Hj & _).
    rewrite <- Hwx, <- Hj. unfold hexVertex; cbn [Vector2D.x].
    pose proof (COS_bound (INR j * PI / 3 + 0)) as [_ Hc]. lra. }
  exists x0, x1, y0, y1. split; [exact Hb|]. split; [exact Hx|].
  apply (outside_bounds_not_inside (vec 1000 300) (vec 400 300) 200 0
           x0 x1 y0 y1 Hb).
  right. left. cbn [Vector2D.x]. exact Hx.
Defined.

(** The directions of the six vertices in terms of the rotation. *)
Lemma vertex_directions (theta : R) :
  let C := cos theta in
  let S := sin theta in
  let s := sqrt 3 in
  (cos (vertexAngle theta 0) = C /\ sin (vertexAngle theta 0) = S) /\
  (cos (vertexAngle theta 1) = C / 2 - S * s / 2
   /\ sin (vertexAngle theta 1) = S / 2 + C * s / 2) /\
  (cos (vertexAngle theta 2) = - C / 2 - S * s / 2
   /\ sin (vertexAngle theta 2) = - S / 2 + C * s / 2) /\
  (cos (vertexAngle theta 3) = - C /\ sin (vertexAngle theta 3) = - S) /\
  (cos (vertexAngle theta 4) = - C / 2 + S * s / 2
   /\ sin (vertexAngle theta 4) = - S / 2 - C * s / 2) /\
  (cos (vertexAngle theta 5) = C / 2 + S * s / 2
   /\ sin (vertexAngle theta 5) = S / 2 - C * s / 2).
Proof.
  cbv zeta. pose proof sqrt3_sq as H3.
  assert (HC : cos theta * (sqrt 3 * sqrt 3) = 3 * cos theta)
    by (rewrite H3; ring).
  assert (HS : sin theta * (sqrt 3 * sqrt 3) = 3 * sin theta)
    by (rewrite H3; ring).
  assert (E0 : vertexAngle theta 0 = theta)
    by (unfold vertexAngle; simpl INR; lra).
  assert (H0 : cos (vertexAngle theta 0) = cos theta
               /\ sin (vertexAngle theta 0) = sin theta)
    by (rewrite E0; split; reflexivity).
  assert (H1 : cos (vertexAngle theta 1) = cos theta / 2 - sin theta * sqrt 3 / 2
               /\ sin (vertexAngle theta 1)
                  = sin theta / 2 + cos theta * sqrt 3 / 2).
  { rewrite vertexAngle_succ, cos_shift, sin_shift.
    destruct H0 as [-> ->]. split; lra. }
  assert (H2 : cos (vertexAngle theta 2)
               = - cos theta / 2 - sin theta * sqrt 3 / 2
               /\ sin (vertexAngle theta 2)
                  = - sin theta / 2 + cos theta * sqrt 3 / 2).
  { rewrite vertexAngle_succ, cos_shift, sin_shift.
    destruct H1 as [-> ->]. split; lra. }
  assert (H3' : cos (vertexAngle theta 3) = - cos theta
                /\ sin (vertexAngle theta 3) = - sin theta).
  { rewrite vertexAngle_succ, cos_shift, sin_shift.
    destruct H2 as [-> ->]. split; lra. }
  assert (H4 : cos (vertexAngle theta 4)
               = - cos theta / 2 + sin theta * sqrt 3 / 2
               /\ sin (vertexAngle theta 4)
                  = - sin theta / 2 - cos theta * sqrt 3 / 2).
  { rewrite vertexAngle_succ, cos_shift, sin_shift.
    destruct H3' as [-> ->]. split; lra. }
  assert (H5 : cos (vertexAngle theta 5)
               = cos theta / 2 + sin theta * sqrt 3 / 2
               /\ sin (vertexAngle theta 5)
                  = sin theta / 2 - cos theta * sqrt 3 / 2).
  { rewrite vertexAngle_succ, cos_shift, sin_shift.
    destruct H4 as [-> ->]. split; lra. }
  repeat split; tauto.
Qed.

(** Seen from the center, an edge whose end is 60 degrees after its start
    is crossed by the ray exactly when it rises through the ray's line. *)
Lemma ray_from_center (c : Vector2D) (r ca sa cb sb : R) :
  0 < r ->
  sb * ca - cb * sa = sqrt 3 / 2 ->
  rayIntersectsEdge c
    (vec (Vector2D.x c + r * ca) (Vector2D.y c + r * sa))
    (vec (Vector2D.x c + r * cb) (Vector2D.y c + r * sb))
  = negb (gtb sa 0) && gtb sb 0.
Proof.
  intros Hr Hcross. pose proof sqrt3_pos as H3.
  unfold rayIntersectsEdge; cbn [Vector2D.x Vector2D.y].
  assert (Hshift : forall t : R,
            gtb (Vector2D.y c + r * t) (Vector2D.y c) = gtb t 0).
  { intros t. destruct (gtb t 0) eqn:E.
    - apply gtb_true in E. apply gtb_true. nra.
    - apply gtb_false in E. apply gtb_false. nra. }
  rewrite !Hshift.
  destruct (gtb sa 0) eqn:A; destruct (gtb sb 0) eqn:B;
    cbn [negb andb Bool.eqb]; try reflexivity.
  - apply gtb_true in A. apply gtb_false in B. apply gtb_false.
    assert (Hd : sb - sa < 0) by lra.
    replace (Vector2D.x c + r * ca
             + (Vector2D.y c - (Vector2D.y c + r * sa))
               * (Vector2D.x c + r * cb - (Vector2D.x c + r * ca))
               / (Vector2D.y c + r * sb - (Vector2D.y c + r * sa)))
      with (Vector2D.x c + r * (sb * ca - cb * sa) / (sb - sa))
      by (field; repeat split; nra).
    rewrite Hcross.
    assert (Hneg : r * (sqrt 3 / 2) / (sb - sa) < 0).
    { unfold Rdiv at 1. apply Rmult_pos_neg; [nra|].
      apply Rinv_neg. exact Hd. }
    lra.
  - apply gtb_false in A. apply gtb_true in B. apply gtb_true.
    assert (Hd : 0 < sb - sa) by lra.
    replace (Vector2D.x c + r * ca
             + (Vector2D.y c - (Vector2D.y c + r * sa))
               * (Vector2D.x c + r * cb - (Vector2D.x c + r * ca))
               / (Vector2D.y c + r * sb - (Vector2D.y c + r * sa)))
      with (Vector2D.x c + r * (sb * ca - cb * sa) / (sb - sa))
      by (field; repeat split; nra).
    rewrite Hcross.
    assert (Hpos : 0 < r * (sqrt 3 / 2) / (sb - sa)).
    { unfold Rdiv at 1. apply Rmult_lt_0_compat; [nra|].
      apply Rinv_0_lt_compat. exact Hd. }
    lra.
Qed.

Lemma cross_next (theta : R) (k : nat) :
  sin (vertexAngle theta (S k)) * cos (vertexAngle theta k)
  - cos (vertexAngle theta (S k)) * sin (vertexAngle theta k)
  = sqrt 3 / 2.
Proof.
  rewrite <- sin_minus, vertexAngle_succ.
  replace (vertexAngle theta k + PI / 3 - vertexAngle theta k) with (PI / 3)
    by ring.
  apply sin_PI3.
Qed.

Lemma cross_wrap (theta : R) :
  sin (vertexAngle theta 0) * cos (vertexAngle theta 5)
  - cos (vertexAngle theta 0) * sin (vertexAngle theta 5)
  = sqrt 3 / 2.
Proof.
  rewrite <- sin_minus, <- sin_PI3.
  rewrite <- (sin_period (vertexAngle theta 0 - vertexAngle theta 5) 1).
  f_equal. unfold vertexAngle. simpl INR. field.
Qed.

(** X13. The center of every hexagon built by [createHexagon] with a
    positive radius is classified as inside by [isPointInsideHexagon],
    whatever the rotation: the ray from the center crosses exactly one edge
    on its right, also when it passes through a vertex. *)
Theorem center_is_inside (c : Vector2D) (r theta : R) :
  0 < r ->
  isPointInsideHexagon c (createHexagon c r theta) = true.
Proof.
  intros Hr.
  pose proof (isPointInsideHexagon_cycle c c r theta) as Hcyc.
  cbv zeta in Hcyc. rewrite Hcyc. clear Hcyc.
  unfold hexVertex.
  change (INR 0 * PI / 3 + theta) with (vertexAngle theta 0).
  change (INR 1 * PI / 3 + theta) with (vertexAngle theta 1).
  change (INR 2 * PI / 3 + theta) with (vertexAngle theta 2).
  change (INR 3 * PI / 3 + theta) with (vertexAngle theta 3).
  change (INR 4 * PI / 3 + theta) with (vertexAngle theta 4).
  change (INR 5 * PI / 3 + theta) with (vertexAngle theta 5).
  rewrite (ray_from_center c r _ _ _ _ Hr (cross_next theta 0)).
  rewrite (ray_from_center c r _ _ _ _ Hr (cross_next theta 1)).
  rewrite (ray_from_center c r _ _ _ _ Hr (cross_next theta 2)).
  rewrite (ray_from_center c r _ _ _ _ Hr (cross_next theta 3)).
  rewrite (ray_from_center c r _ _ _ _ Hr (cross_next theta 4)).
  rewrite (ray_from_center c r _ _ _ _ Hr (cross_wrap theta)).
  pose proof (vertex_directions theta) as Hdir. cbv zeta in Hdir.
  destruct Hdir
    as ((C0 & S0) & (C1 & S1) & (C2 & S2) & (C3 & S3) & (C4 & S4) & (C5 & S5)).
  rewrite S0, S1, S2, S3, S4, S5.
  pose proof (cos_sin_sq theta) as Hcs.
  pose proof sqrt3_sq as H3. pose proof sqrt3_pos as H3p.
  set (C := cos theta) in *. set (S := sin theta) in *.
  set (s := sqrt 3) in *.
  assert (Hnz : ~ (S = 0 /\ C * s = 0)).
  { intros [HS Hq]. assert (HC : C = 0) by nra. nra. }
  clearbody S. clear C0 S0 C1 S1 C2 S2 C3 S3 C4 S4 C5 S5 Hcs.
  set (q := C * s) in *. clearbody q.
  destruct (gtb S 0) eqn:G0;
    destruct (gtb (S / 2 + q / 2) 0) eqn:G1;
    destruct (gtb (- S / 2 + q / 2) 0) eqn:G2;
    destruct (gtb (- S) 0) eqn:G3;
    destruct (gtb (- S / 2 - q / 2) 0) eqn:G4;
    destruct (gtb (S / 2 - q / 2) 0) eqn:G5;
    try reflexivity; exfalso;
    repeat match goal with
           | H : gtb _ _ = true |- _ => apply gtb_true in H
           | H : gtb _ _ = false |- _ => apply gtb_false in H
           end;
    first [lra | apply Hnz; split; lra].
Qed.

Lemma center_is_inside_witness :
  0 < 200 /\ isPointInsideHexagon (vec 400 300) demoHexagon = true.
Proof.
  assert (Hr : 0 < 200) by lra.
  split; [exact Hr | exact (center_is_inside (vec 400 300) 200 0 Hr)].
Defined.

(** ** [distanceToEdge] returns a nearest point of the segment *)

Lemma distance_sq (p q : Vector2D) :
  Vector2D.distance p q * Vector2D.distance p q
  = (Vector2D.x p - Vector2D.x q) * (Vector2D.x p - Vector2D.x q)
    + (Vector2D.y p - Vector2D.y q) * (Vector2D.y p - Vector2D.y q).
Proof.
  unfold Vector2D.distance. cbv zeta. apply sqrt_sqrt. apply sum_sq_nonneg.
Qed.

Lemma distance_le_of_sq (p q p' q' : Vector2D) :
  (Vector2D.x p - Vector2D.x q) * (Vector2D.x p - Vector2D.x q)
  + (Vector2D.y p - Vector2D.y q) * (Vector2D.y p - Vector2D.y q)
  <= (Vector2D.x p' - Vector2D.x q') * (Vector2D.x p' - Vector2D.x q')
     + (Vector2D.y p' - Vector2D.y q') * (Vector2D.y p' - Vector2D.y q') ->
  Vector2D.distance p q <= Vector2D.distance p' q'.
Proof.
  intros H. unfold Vector2D.distance. cbv zeta.
  apply sqrt_le_1; [apply sum_sq_nonneg | apply sum_sq_nonneg | exact H].
Qed.

(** The squared distance to the point at parameter [t] is a quadratic in
    [t] whose vertex is the projection parameter. *)
Lemma clamp_minimises (len u t0 t : R) :
  0 < len ->
  t0 = Rmax 0 (Rmin 1 u) ->
  0 <= t <= 1 ->
  len * (t0 * t0 - 2 * u * t0) <= len * (t * t - 2 * u * t).
Proof.
  intros Hlen Ht0 Ht.
  apply Rmult_le_compat_l; [lra|].
  subst t0. unfold Rmax, Rmin.
  destruct (Rle_dec 1 u) as [H1 | H1]; destruct (Rle_dec 0 _) as [H0 | H0].
  - assert (0 <= (1 - t) * (2 * u - 1 - t)) by (apply Rmult_le_pos; lra).
    lra.
  - lra.
  - pose proof (Rle_0_sqr (t - u)) as Hsq. unfold Rsqr in Hsq. lra.
  - assert (0 <= t * (t - 2 * u)) by (apply Rmult_le_pos; lra).
    lra.
Qed.

Lemma nearest_point_bound (p a b : Vector2D) (t : R) :
  0 <= t <= 1 ->
  0 <= distance (distanceToEdge p a b) /\
  distance (distanceToEdge p a b) <= Vector2D.distance p (segmentPoint a b t).
Proof.
  intros Ht.
  pose proof (distanceToEdge_closest p a b) as H. cbv zeta in H.
  destruct H as (Hd & Heq & Hne).
  split.
  { rewrite Hd, distance_as_magnitude. apply magnitude_nonneg. }
  destruct (Req_dec_T (Vector2D.magnitudeSquared (Vector2D.subtract b a)) 0)
    as [E | E].
  - apply magnitudeSquared_zero in E. destruct (Heq E) as [_ Hda].
    rewrite Hda. subst b. apply Req_le. f_equal.
    destruct a as [ax ay].
    unfold segmentPoint, Vector2D.add, Vector2D.multiply, Vector2D.subtract;
      cbn [Vector2D.x Vector2D.y]. f_equal; ring.
  - assert (Hab : a <> b).
    { intros Hab. apply E. now apply magnitudeSquared_zero. }
    destruct (Hne Hab) as [_ Hc]. rewrite Hd, Hc. clear Hd Hc Heq Hne.
    apply distance_le_of_sq.
    unfold projectionParameter.
    set (len := Vector2D.magnitudeSquared (Vector2D.subtract b a)) in *.
    set (w := Vector2D.dot (Vector2D.subtract p a) (Vector2D.subtract b a)).
    assert (Hlen : 0 < len).
    { pose proof (magnitudeSquared_nonneg (Vector2D.subtract b a)).
      fold len in H. lra. }
    pose proof (clamp_minimises len (w / len) _ t Hlen eq_refl Ht) as Hmin.
    set (t0 := Rmax 0 (Rmin 1 (w / len))) in *. clearbody t0.
    assert (Hw : len * (w / len) = w) by (field; lra).
    assert (Hq : forall k : R,
              (Vector2D.x p - Vector2D.x (segmentPoint a b k))
              * (Vector2D.x p - Vector2D.x (segmentPoint a b k))
              + (Vector2D.y p - Vector2D.y (segmentPoint a b k))
                * (Vector2D.y p - Vector2D.y (segmentPoint a b k))
              = Vector2D.magnitudeSquared (Vector2D.subtract p a)
                + (len * (k * k) - 2 * w * k)).
    { intros k. unfold len, w, segmentPoint, Vector2D.magnitudeSquared,
        Vector2D.dot, Vector2D.add, Vector2D.multiply, Vector2D.subtract;
        cbn [Vector2D.x Vector2D.y]. ring. }
    fold (segmentPoint a b t0). rewrite (Hq t0), (Hq t).
    replace (len * (t0 * t0 - 2 * (w / len) * t0))
      with (len * (t0 * t0) - 2 * (len * (w / len)) * t0) in Hmin by ring.
    replace (len * (t * t - 2 * (w / len) * t))
      with (len * (t * t) - 2 * (len * (w / len)) * t) in Hmin by ring.
    rewrite Hw in Hmin. lra.
Qed.


(** X14. The point returned by [distanceToEdge] is a nearest point of the
    segment: the returned distance is at most the distance from the query
    point to any point [a + (b - a) t] with [0 <= t <= 1], and it is never
    negative. *)
Theorem distanceToEdge_nearest (p a b : Vector2D) (t : R) :
  0 <= t <= 1 ->
  0 <= distance (distanceToEdge p a b) /\
  distance (distanceToEdge p a b) <= Vector2D.distance p (segmentPoint a b t).
Proof. apply nearest_point_bound. Qed.

Lemma distanceToEdge_nearest_witness :
  0 <= 1 / 2 <= 1 /\
  distance (distanceToEdge (vec 3 1) (vec 0 0) (vec 1 0))
  <= Vector2D.distance (vec 3 1) (segmentPoint (vec 0 0) (vec 1 0) (1 / 2)).
Proof.
  assert (H : 0 <= 1 / 2 <= 1) by lra.
  split; [exact H|].
  exact (proj2 (distanceToEdge_nearest (vec 3 1) (vec 0 0) (vec 1 0) (1 / 2) H)).
Defined.

(** X15. A query point that lies on the segment is its own nearest point:
    [distanceToEdge] returns distance 0 and the point itself. *)
Theorem distanceToEdge_on_segment (a b : Vector2D) (t : R) :
  0 <= t <= 1 ->
  distance (distanceToEdge (segmentPoint a b t) a b) = 0 /\
  closestPoint (distanceToEdge (segmentPoint a b t) a b) = segmentPoint a b t.
Proof.
  intros Ht.
  set (p := segmentPoint a b t).
  pose proof (distanceToEdge_closest p a b) as H. cbv zeta in H.
  destruct H as (Hd & _ & _).
  destruct (nearest_point_bound p a b t Ht) as [Hge Hle].
  assert (H0 : Vector2D.distance p (segmentPoint a b t) = 0)
    by (now apply distance_zero_iff).
  assert (Hz : distance (distanceToEdge p a b) = 0) by lra.
  split; [exact Hz|].
  rewrite Hd in Hz. apply distance_zero_iff in Hz. now symmetry.
Qed.

Lemma distanceToEdge_on_segment_witness :
  0 <= 1 / 4 <= 1 /\
  distance
    (distanceToEdge (segmentPoint (vec 0 0) (vec 4 8) (1 / 4))
       (vec 0 0) (vec 4 8)) = 0.
Proof.
  assert (H : 0 <= 1 / 4 <= 1) by lra.
  split; [exact H|].
  exact (proj1 (distanceToEdge_on_segment (vec 0 0) (vec 4 8) (1 / 4) H)).
Defined.

(** ** What [circleHexagonCollision] reports *)

Lemma edgeDistance_nonneg (p : Vector2D) (e : HexagonEdge) :
  0 <= edgeDistance p e.
Proof.
  unfold edgeDistance.
  pose proof (distanceToEdge_closest p (start e) (end_ e)) as H.
  cbv zeta in H. destruct H as (Hd & _).
  rewrite Hd, distance_as_magnitude. apply magnitude_nonneg.
Qed.

(** X16. [circleHexagonCollision] never reports a collision for a negative
    radius, nor for a hexagon without edges: the result is then
    [{ isColliding: false }] with no edge, point or depth. *)
Theorem no_collision_without_reach (p : Vector2D) (rad : R) (h : Hexagon) :
  rad < 0 \/ edges h = [] ->
  circleHexagonCollision p rad h = mkCollision false None None None.
Proof.
  intros [Hneg | Hnil].
  - apply no_collision_far. intros e _.
    pose proof (edgeDistance_nonneg p e). lra.
  - apply no_collision_far. rewrite Hnil. intros e [].
Qed.

Lemma no_collision_without_reach_witness :
  circleHexagonCollision (vec 400 470) (- 1) demoHexagon
  = mkCollision false None None None.
Proof.
  apply no_collision_without_reach. left. lra.
Defined.

Lemma collision_result_cases (p : Vector2D) (rad : R) (h : Hexagon) :
  circleHexagonCollision p rad h = mkCollision false None None None \/
  exists e : HexagonEdge,
    In e (edges h) /\
    closestScan p (edges h) = recordedClosest p e /\
    edgeDistance p e <= rad /\
    circleHexagonCollision p rad h
    = mkCollision true (Some e)
        (Some (closestPoint (distanceToEdge p (start e) (end_ e))))
        (Some (rad - edgeDistance p e)).
Proof.
  destruct (list_eq_dec_nil (edges h)) as [Hnil | Hne].
  - left. apply no_collision_far. rewrite Hnil. intros e [].
  - destruct (collision_of_nearest p rad h Hne)
      as (e & Hin & _ & Hscan & Hres).
    destruct (leb (edgeDistance p e) rad) eqn:E.
    + right. exists e. apply leb_true in E. repeat split; assumption.
    + left. exact Hres.
Qed.

(** X17. Whenever [circleHexagonCollision] reports a collision, the result
    is complete and consistent: it carries an edge of the hexagon, the
    nearest point of that edge, and a penetration depth between 0 and the
    radius, and the reported point is at distance [radius - depth] from the
    circle's center. *)
Theorem collision_result_consistent (p : Vector2D) (rad : R) (h : Hexagon) :
  isColliding (circleHexagonCollision p rad h) = true ->
  exists (e : HexagonEdge) (q : Vector2D) (d : R),
    circleHexagonCollision p rad h
    = mkCollision true (Some e) (Some q) (Some d) /\
    In e (edges h) /\
    q = closestPoint (distanceToEdge p (start e) (end_ e)) /\
    0 <= d <= rad /\
    Vector2D.distance p q = rad - d.
Proof.
  intros Hcol.
  destruct (collision_result_cases p rad h)
    as [Hno | (e & Hin & _ & Hle & Hres)].
  - rewrite Hno in Hcol. discriminate.
  - exists e, (closestPoint (distanceToEdge p (start e) (end_ e))),
           (rad - edgeDistance p e).
    pose proof (edgeDistance_nonneg p e) as H0.
    repeat split; try assumption; try lra.
    pose proof (distanceToEdge_closest p (start e) (end_ e)) as H.
    cbv zeta in H. destruct H as (Hd & _).
    unfold edgeDistance. rewrite <- Hd. ring.
Qed.

Lemma collision_result_consistent_witness :
  isColliding (circleHexagonCollision (vec 400 470) 12 demoHexagon) = true /\
  exists (e : HexagonEdge) (q : Vector2D) (d : R),
    circleHexagonCollision (vec 400 470) 12 demoHexagon
    = mkCollision true (Some e) (Some q) (Some d) /\
    0 <= d <= 12.
Proof.
  assert (H : isColliding
                (circleHexagonCollision (vec 400 470) 12 demoHexagon) = true)
    by (rewrite demo_bottom_collision; reflexivity).
  split; [exact H|].
  destruct (collision_result_consistent (vec 400 470) 12 demoHexagon H)
    as (e & q & d & Hres & _ & _ & Hd & _).
  exists e, q, d. split; assumption.
Defined.

(** The scan keeps the first of the nearest edges: the edges before the
    recorded one are strictly farther, those after it at least as far. *)
Lemma scan_first_nearest (p : Vector2D) (l : list HexagonEdge) :
  forall e0 : HexagonEdge,
  exists e : HexagonEdge,
    fold_left (closestStep p) l (recordedClosest p e0) = recordedClosest p e /\
    ((e = e0 /\
      forall e' : HexagonEdge, In e' l -> edgeDistance p e0 <= edgeDistance p e')
     \/
     (edgeDistance p e < edgeDistance p e0 /\
      exists l1 l2 : list HexagonEdge,
        l = l1 ++ e :: l2 /\
        (forall e' : HexagonEdge,
           In e' l1 -> edgeDistance p e < edgeDistance p e') /\
        (forall e' : HexagonEdge,
           In e' l2 -> edgeDistance p e <= edgeDistance p e'))).
Proof.
  induction l as [|a l IH]; intros e0.
  - exists e0. split; [reflexivity|]. left. split; [reflexivity|].
    intros e' [].
  - cbn [fold_left]. rewrite closestStep_recorded.
    destruct (ltb (edgeDistance p a) (edgeDistance p e0)) eqn:E.
    + apply ltb_true in E.
      destruct (IH a) as (e & Hf & [[-> Hall] | (Hlt & l1 & l2 & -> & H1 & H2)]).
      * exists a. split; [exact Hf|]. right. split; [exact E|].
        exists [], l. split; [reflexivity|]. split; [intros e' []|exact Hall].
      * exists e. split; [exact Hf|]. right. split; [lra|].
        exists (a :: l1), l2. split; [reflexivity|]. split; [|exact H2].
        intros e' [<- | He']; [exact Hlt | now apply H1].
    + apply ltb_false in E.
      destruct (IH e0)
        as (e & Hf & [[-> Hall] | (Hlt & l1 & l2 & -> & H1 & H2)]).
      * exists e0. split; [exact Hf|]. left. split; [reflexivity|].
        intros e' [<- | He']; [exact E | now apply Hall].
      * exists e. split; [exact Hf|]. right. split; [exact Hlt|].
        exists (a :: l1), l2. split; [reflexivity|]. split; [|exact H2].
        intros e' [<- | He']; [lra | now apply H1].
Qed.

(** X18. The edge that [circleHexagonCollision] reports is the first of the
    nearest edges in the order of [hexagon.edges]: every edge before it is
    strictly farther from the circle's center, every edge after it is at
    least as far. *)
Theorem collision_reports_first_nearest
  (p : Vector2D) (rad : R) (h : Hexagon) (e : HexagonEdge) :
  collisionEdge (circleHexagonCollision p rad h) = Some e ->
  exists l1 l2 : list HexagonEdge,
    edges h = l1 ++ e :: l2 /\
    (forall e' : HexagonEdge,
       In e' l1 -> edgeDistance p e < edgeDistance p e') /\
    (forall e' : HexagonEdge,
       In e' l2 -> edgeDistance p e <= edgeDistance p e').
Proof.
  intros Hedge.
  destruct (collision_result_cases p rad h)
    as [Hno | (e1 & _ & Hscan & _ & Hres)].
  - rewrite Hno in Hedge. discriminate.
  - rewrite Hres in Hedge. injection Hedge as <-.
    unfold closestScan in Hscan.
    destruct (edges h) as [|e0 l]; [discriminate|].
    cbn [fold_left] in Hscan.
    change (closestStep p (mkClosest None Infinity None) e0)
      with (recordedClosest p e0) in Hscan.
    destruct (scan_first_nearest p l e0)
      as (e & Hf & [[-> Hall] | (Hlt & l1 & l2 & -> & H1 & H2)]);
      rewrite Hf in Hscan; injection Hscan as <- _.
    + exists [], l. split; [reflexivity|]. split; [intros e' []|exact Hall].
    + exists (e0 :: l1), l2. split; [reflexivity|]. split; [|exact H2].
      intros e' [<- | He']; [exact Hlt | now apply H1].
Qed.

Lemma collision_reports_first_nearest_witness :
  exists (e : HexagonEdge) (l1 l2 : list HexagonEdge),
    collisionEdge (circleHexagonCollision (vec 400 470) 12 demoHexagon)
    = Some e /\
    edges demoHexagon = l1 ++ e :: l2.
Proof.
  assert (H : collisionEdge
                (circleHexagonCollision (vec 400 470) 12 demoHexagon)
              = Some (mkEdge (vec 500 (300 + 100 * sqrt 3))
                        (vec 300 (300 + 100 * sqrt 3)) (vec 0 (- 1))))
    by (rewrite demo_bottom_collision; reflexivity).
  destruct (collision_reports_first_nearest _ _ _ _ H) as (l1 & l2 & Hl & _).
  exists (mkEdge (vec 500 (300 + 100 * sqrt 3))
            (vec 300 (300 + 100 * sqrt 3)) (vec 0 (- 1))), l1, l2.
  split; [exact H | exact Hl].
Defined.

(** ** The engine: construction, speed cap, rotation, accessors *)

Lemma unit_draw_range (rs : RandomSource) (n : nat) (k : R) :
  unitDraws rs ->
  0 < k ->
  - (k / 2) <= (draws rs n - 0.5) * k < k / 2.
Proof. intros Hu Hk. destruct (Hu n) as [H0 H1]. split; nra. Qed.

(** X19. With a generator that returns numbers in [[0, 1)], a new engine
    has its ball at the center of the given hexagon with zero acceleration
    and velocity components in [[-100, 100)], is Stopped, and stores the
    given config and hexagon; the velocity assigned by [reset] lies in the
    same range. *)
Theorem constructor_initial_state
  (cfg : PhysicsConfig) (h : Hexagon) (rs : RandomSource)
  (this : PhysicsEngine) :
  unitDraws rs ->
  let new := fst (PhysicsEngine.constructor cfg h rs) in
  let v0 := velocity (PhysicsEngine.ballState new) in
  let v1 := velocity (PhysicsEngine.ballState
                        (fst (PhysicsEngine.reset this rs))) in
  position (PhysicsEngine.ballState new) = center h /\
  acceleration (PhysicsEngine.ballState new) = vec 0 0 /\
  (- 100 <= Vector2D.x v0 < 100 /\ - 100 <= Vector2D.y v0 < 100) /\
  PhysicsEngine.isRunning new = false /\
  PhysicsEngine.config new = cfg /\
  PhysicsEngine.hexagon new = h /\
  (- 100 <= Vector2D.x v1 < 100 /\ - 100 <= Vector2D.y v1 < 100).
Proof.
  intros Hu. cbv zeta.
  unfold PhysicsEngine.constructor, PhysicsEngine.reset, Math_random,
    Vector2D.set.
  cbn [fst snd draws cursor PhysicsEngine.withBall PhysicsEngine.ballState
       PhysicsEngine.config PhysicsEngine.hexagon PhysicsEngine.isRunning
       position velocity acceleration Vector2D.x Vector2D.y].
  pose proof (unit_draw_range rs (cursor rs) 200 Hu ltac:(lra)) as Hx.
  pose proof (unit_draw_range rs (S (cursor rs)) 200 Hu ltac:(lra)) as Hy.
  split; [destruct (center h); reflexivity|].
  repeat split; try reflexivity; lra.
Qed.

Lemma constantRandom_unit (u : R) : 0 <= u < 1 -> unitDraws (constantRandom u).
Proof. intros Hu n. exact Hu. Qed.

Lemma constructor_initial_state_witness :
  unitDraws (constantRandom 0.75) /\
  position (PhysicsEngine.ballState
              (fst (PhysicsEngine.constructor demoConfig demoHexagon
                      (constantRandom 0.75))))
  = center demoHexagon.
Proof.
  assert (Hu : unitDraws (constantRandom 0.75))
    by (apply constantRandom_unit; lra).
  split; [exact Hu|].
  exact (proj1 (constructor_initial_state demoConfig demoHexagon
                  (constantRandom 0.75)
                  (runningEngine demoConfig (vec 400 300) (vec 0 0)) Hu)).
Defined.

Lemma update_frame (dt : R) (this : PhysicsEngine) (rs : RandomSource) :
  PhysicsEngine.isRunning this = true ->
  PhysicsEngine.config (fst (PhysicsEngine.update dt this rs))
  = PhysicsEngine.config this /\
  PhysicsEngine.hexagon (fst (PhysicsEngine.update dt this rs))
  = rotateHexagon (PhysicsEngine.hexagon this)
      (rotationSpeed (PhysicsEngine.config this) * Rmin dt 0.016).
Proof.
  intros Hrun. rewrite (update_running dt this rs Hrun).
  destruct (handleCollisions_frame (integrated dt this) rs) as (Hc & Hh & _).
  destruct (integrated_frame dt this) as (Hc' & Hh' & _).
  destruct (PhysicsEngine.handleCollisions (integrated dt this) rs)
    as [this' rs'].
  cbn [fst] in *.
  unfold PhysicsEngine.updateHexagonRotation;
    cbn [PhysicsEngine.config PhysicsEngine.hexagon].
  rewrite Hc, Hh, Hc', Hh'. split; reflexivity.
Qed.

(** X20. Every step of a Running engine, with or without a collision,
    leaves the config as it is and replaces the stored hexagon by
    [rotateHexagon] of it through [rotationSpeed * min dt 0.016]: center and
    radius are kept, the rotation advances by that angle, and the new
    hexagon has 6 vertices and 6 edges. *)
Theorem update_rotates_hexagon
  (dt : R) (this : PhysicsEngine) (rs : RandomSource) :
  PhysicsEngine.isRunning this = true ->
  let this' := fst (PhysicsEngine.update dt this rs) in
  let h := PhysicsEngine.hexagon this in
  let h' := PhysicsEngine.hexagon this' in
  PhysicsEngine.config this' = PhysicsEngine.config this /\
  h' = rotateHexagon h
         (rotationSpeed (PhysicsEngine.config this) * Rmin dt 0.016) /\
  center h' = center h /\
  radius h' = radius h /\
  rotation h'
  = rotation h + rotationSpeed (PhysicsEngine.config this) * Rmin dt 0.016 /\
  length (vertices h') = 6%nat /\
  length (edges h') = 6%nat.
Proof.
  intros Hrun. cbv zeta.
  destruct (update_frame dt this rs Hrun) as [Hc Hh].
  rewrite Hh. repeat split; exact Hc.
Qed.

Lemma update_rotates_hexagon_witness :
  let this := runningEngine demoConfig (vec 400 300) (vec 30 40) in
  PhysicsEngine.isRunning this = true /\
  rotation (PhysicsEngine.hexagon
              (fst (PhysicsEngine.update 1 this (constantRandom 0.25))))
  = 0 + 1 * Rmin 1 0.016.
Proof.
  cbv zeta. split; [reflexivity|].
  pose proof (update_rotates_hexagon 1
                (runningEngine demoConfig (vec 400 300) (vec 30 40))
                (constantRandom 0.25) eq_refl) as H.
  cbv zeta in H. destruct H as (_ & _ & _ & _ & Hrot & _).
  exact Hrot.
Defined.

Lemma Rmin_idempotent (dt : R) : Rmin (Rmin dt 0.016) 0.016 = Rmin dt 0.016.
Proof. apply Rmin_left. apply Rmin_r. Qed.

(** X21. The clamp of the timestep is idempotent: a caller that clamps
    [dt] to 0.016 itself, as the frame loop of the component does, gets
    exactly the step that the unclamped [dt] gives, and the timestep the
    frame loop computes is never above 0.016. *)
Theorem update_clamp_idempotent
  (dt currentTime lastTime : R) (this : PhysicsEngine) (rs : RandomSource) :
  PhysicsEngine.update (Rmin dt 0.016) this rs = PhysicsEngine.update dt this rs
  /\ frameDeltaTime currentTime lastTime <= 0.016
  /\ PhysicsEngine.update (frameDeltaTime currentTime lastTime) this rs
     = PhysicsEngine.update ((currentTime - lastTime) / 1000) this rs.
Proof.
  assert (H : forall d : R,
            PhysicsEngine.update (Rmin d 0.016) this rs
            = PhysicsEngine.update d this rs).
  { intros d. unfold PhysicsEngine.update. cbv zeta.
    rewrite Rmin_idempotent. reflexivity. }
  split; [apply H|]. split; [apply Rmin_r | apply H].
Qed.

Lemma reflected_speed_le (rho : R) (n v : Vector2D) :
  Vector2D.x n * Vector2D.x n + Vector2D.y n * Vector2D.y n = 1 ->
  0 <= rho <= 1 ->
  Vector2D.magnitude (PhysicsEngine.reflectedVelocity rho n v)
  <= Vector2D.magnitude v.
Proof.
  intros Hn Hrho. rewrite !magnitude_as_sqrt.
  apply sqrt_le_1; try apply magnitudeSquared_nonneg.
  rewrite (reflectedVelocity_sq rho n v Hn).
  assert (0 <= Vector2D.dot v n * Vector2D.dot v n) by nra.
  assert (0 <= rho * (1 - rho)) by nra.
  nra.
Qed.

Lemma integrated_speed_capped (dt : R) (this : PhysicsEngine) :
  0 <= maxVelocity (PhysicsEngine.config this) ->
  Vector2D.magnitude (velocity (PhysicsEngine.ballState (integrated dt this)))
  <= maxVelocity (PhysicsEngine.config this).
Proof.
  intros Hmax.
  set (u := unclampedVelocity (PhysicsEngine.config this)
              (PhysicsEngine.ballState this) (Rmin dt 0.016)).
  destruct (Rle_lt_dec (Vector2D.magnitude u)
              (maxVelocity (PhysicsEngine.config this))) as [Hle | Hgt].
  - rewrite (integrated_within_cap dt this Hle). exact Hle.
  - rewrite (integrated_over_cap dt this Hgt). fold u. cbn [velocity].
    assert (Hpos : 0 < Vector2D.magnitude u) by lra.
    rewrite magnitude_scale.
    + apply Req_le. field. lra.
    + apply Rmult_le_pos; [exact Hmax|].
      left. now apply Rinv_0_lt_compat.
Qed.

(** X22. The speed cap survives a whole step.  For a Running engine with
    [maxVelocity >= 0] and [0 <= restitution <= 1] whose stored hexagon was
    built by [createHexagon] with a positive radius, and a generator
    returning numbers in [[0, 1)], the ball leaves [update] either with a
    speed of at most [maxVelocity] or, when the anti-stall perturbation was
    applied, with both velocity components below 35 in absolute value. *)
Theorem update_speed_capped
  (dt : R) (this : PhysicsEngine) (rs : RandomSource)
  (c : Vector2D) (r theta : R) :
  PhysicsEngine.isRunning this = true ->
  0 <= maxVelocity (PhysicsEngine.config this) ->
  0 <= restitution (PhysicsEngine.config this) <= 1 ->
  PhysicsEngine.hexagon this = createHexagon c r theta ->
  0 < r ->
  unitDraws rs ->
  let v' := velocity (PhysicsEngine.ballState
                        (fst (PhysicsEngine.update dt this rs))) in
  Vector2D.magnitude v' <= maxVelocity (PhysicsEngine.config this)
  \/ (Rabs (Vector2D.x v') < 35 /\ Rabs (Vector2D.y v') < 35).
Proof.
  intros Hrun Hmax Hrho Hhex Hr Hu. cbv zeta.
  rewrite (update_running dt this rs Hrun).
  pose proof (integrated_speed_capped dt this Hmax) as Hcap.
  destruct (integrated_frame dt this) as (Hc & Hh & _).
  unfold PhysicsEngine.handleCollisions.
  destruct (collision_result_cases
              (position (PhysicsEngine.ballState (integrated dt this)))
              (ballRadius (PhysicsEngine.config (integrated dt this)))
              (PhysicsEngine.hexagon (integrated dt this)))
    as [Hno | (e & Hin & _ & _ & Hres)].
  - rewrite Hno. cbn. left. exact Hcap.
  - rewrite Hres. cbn [isColliding collisionEdge collisionPoint
                       penetrationDepth].
    rewrite Hh, Hhex in Hin.
    pose proof (normal_unit_createHexagon c r theta e Hr Hin) as Hn.
    pose proof (resolveCollision_velocity e
                  (ballRadius (PhysicsEngine.config (integrated dt this))
                   - edgeDistance
                       (position (PhysicsEngine.ballState (integrated dt this)))
                       e)
                  (integrated dt this) rs) as Hv.
    cbv zeta in Hv.
    destruct (PhysicsEngine.resolveCollision e _ (integrated dt this) rs)
      as [this' rs'].
    cbn [fst] in *.
    unfold PhysicsEngine.updateHexagonRotation;
      cbn [PhysicsEngine.ballState].
    rewrite Hv, Hc. clear Hv.
    set (w := PhysicsEngine.reflectedVelocity
                (restitution (PhysicsEngine.config this)) (normal e)
                (velocity (PhysicsEngine.ballState (integrated dt this)))).
    destruct (ltb (Rabs (Vector2D.x w)) 10) eqn:Ex;
      destruct (ltb (Rabs (Vector2D.y w)) 10) eqn:Ey; cbn [andb].
    + right. apply ltb_true in Ex. apply ltb_true in Ey.
      pose proof (unit_draw_range rs (cursor rs) 50 Hu ltac:(lra)) as Hx.
      pose proof (unit_draw_range rs (S (cursor rs)) 50 Hu ltac:(lra)) as Hy.
      cbn [Vector2D.x Vector2D.y].
      apply Rabs_def2 in Ex. apply Rabs_def2 in Ey.
      split; apply Rabs_def1; lra.
    + left. eapply Rle_trans; [|exact Hcap].
      apply reflected_speed_le; assumption.
    + left. eapply Rle_trans; [|exact Hcap].
      apply reflected_speed_le; assumption.
    + left. eapply Rle_trans; [|exact Hcap].
      apply reflected_speed_le; assumption.
Qed.

Lemma update_speed_capped_witness :
  let this := runningEngine demoConfig (vec 400 470) (vec 0 100) in
  let v' := velocity (PhysicsEngine.ballState
                        (fst (PhysicsEngine.update 0 this
                                (constantRandom 0.25)))) in
  PhysicsEngine.isRunning this = true /\
  unitDraws (constantRandom 0.25) /\
  (Vector2D.magnitude v' <= 800
   \/ (Rabs (Vector2D.x v') < 35 /\ Rabs (Vector2D.y v') < 35)).
Proof.
  cbv zeta. split; [reflexivity|].
  assert (Hu : unitDraws (constantRandom 0.25))
    by (apply constantRandom_unit; lra).
  split; [exact Hu|].
  apply (update_speed_capped 0
           (runningEngine demoConfig (vec 400 470) (vec 0 100))
           (constantRandom 0.25) (vec 400 300) 200 0).
  - reflexivity.
  - cbn. lra.
  - cbn. lra.
  - reflexivity.
  - lra.
  - exact Hu.
Defined.

(** X23. [updateConfig] merges field by field: a field present in the
    partial config replaces the stored one and an absent field keeps it, so
    the empty partial config changes nothing, a complete one replaces the
    config, and applying the same partial config twice is the same as
    applying it once; ball state, hexagon and run state are untouched. *)
Theorem updateConfig_merges (partial : PartialConfig) (this : PhysicsEngine) :
  let this' := PhysicsEngine.updateConfig partial this in
  PhysicsEngine.ballState this' = PhysicsEngine.ballState this /\
  PhysicsEngine.hexagon this' = PhysicsEngine.hexagon this /\
  PhysicsEngine.isRunning this' = PhysicsEngine.isRunning this /\
  PhysicsEngine.updateConfig partial this' = this' /\
  PhysicsEngine.updateConfig
    (mkPartialConfig None None None None None None) this = this /\
  (forall cfg : PhysicsConfig,
     PhysicsEngine.getConfig
       (PhysicsEngine.updateConfig
          (mkPartialConfig (Some (gravity cfg)) (Some (friction cfg))
             (Some (restitution cfg)) (Some (rotationSpeed cfg))
             (Some (ballRadius cfg)) (Some (maxVelocity cfg))) this)
     = cfg) /\
  (forall g : R,
     PhysicsEngine.getConfig
       (PhysicsEngine.updateConfig
          (mkPartialConfig (Some g) None None None None None) this)
     = mkConfig g (friction (PhysicsEngine.config this))
         (restitution (PhysicsEngine.config this))
         (rotationSpeed (PhysicsEngine.config this))
         (ballRadius (PhysicsEngine.config this))
         (maxVelocity (PhysicsEngine.config this))).
Proof.
  cbv zeta. destruct this as [[g f rr rot br mv] b h run].
  repeat split.
  - destruct partial as [[?|] [?|] [?|] [?|] [?|] [?|]]; reflexivity.
  - intros [g' f' rr' rot' br' mv']. reflexivity.
Qed.

(** X24. [getKineticEnergy] is half the squared speed that [getVelocity]
    returns; it is never negative, and it is zero exactly when the ball is
    at rest. *)
Theorem kinetic_energy_of_speed (this : PhysicsEngine) :
  PhysicsEngine.getKineticEnergy this
  = 0.5 * (PhysicsEngine.getVelocity this * PhysicsEngine.getVelocity this) /\
  PhysicsEngine.getKineticEnergy this
  = 0.5 * Vector2D.magnitudeSquared (velocity (PhysicsEngine.ballState this))
  /\
  0 <= PhysicsEngine.getKineticEnergy this /\
  (PhysicsEngine.getKineticEnergy this = 0
   <-> velocity (PhysicsEngine.ballState this) = vec 0 0).
Proof.
  unfold PhysicsEngine.getKineticEnergy, PhysicsEngine.getVelocity.
  cbv zeta.
  set (v := velocity (PhysicsEngine.ballState this)).
  pose proof (magnitude_sq v) as Hsq.
  pose proof (magnitudeSquared_nonneg v) as H0.
  split; [ring|]. split; [rewrite <- Hsq; ring|]. split; [nra|].
  split.
  - intros Hz. apply magnitude_zero_iff.
    assert (Hm : Vector2D.magnitude v * Vector2D.magnitude v = 0) by lra.
    destruct (Rmult_integral _ _ Hm); assumption.
  - intros ->. assert (Hm : Vector2D.magnitude (vec 0 0) = 0)
      by (now apply magnitude_zero_iff).
    rewrite Hm. ring.
Qed.

(** ** The positional correction of [resolveCollision] *)

(** For a unit normal perpendicular to the segment, and a projection that
    falls within the segment, the distance [distanceToEdge] returns is the
    distance to the segment's line. *)
Lemma perpendicular_distance (p a b n : Vector2D) :
  a <> b ->
  Vector2D.x n * Vector2D.x n + Vector2D.y n * Vector2D.y n = 1 ->
  Vector2D.dot n (Vector2D.subtract b a) = 0 ->
  0 <= projectionParameter p a b <= 1 ->
  distance (distanceToEdge p a b)
  = Rabs (Vector2D.dot n (Vector2D.subtract p a)).
Proof.
  intros Hab Hn Hperp Hu.
  pose proof (distanceToEdge_closest p a b) as H. cbv zeta in H.
  destruct H as (Hd & _ & Hne). destruct (Hne Hab) as [_ Hc]. clear Hne.
  rewrite Hd, Hc. clear Hd Hc.
  replace (Rmax 0 (Rmin 1 (projectionParameter p a b)))
    with (projectionParameter p a b).
  2:{ unfold Rmax, Rmin.
      destruct (Rle_dec 1 (projectionParameter p a b));
        destruct (Rle_dec 0 _); lra. }
  assert (HL : Vector2D.magnitudeSquared (Vector2D.subtract b a) <> 0).
  { intros E. apply magnitudeSquared_zero in E. contradiction. }
  unfold projectionParameter in *.
  destruct p as [px py], a as [ax ay], b as [bx by_], n as [nx ny].
  unfold Vector2D.distance, Vector2D.dot, Vector2D.magnitudeSquared,
    Vector2D.add, Vector2D.multiply, Vector2D.subtract in *;
    cbn [Vector2D.x Vector2D.y] in *. cbv zeta.
  set (ex := bx - ax) in *. set (ey := by_ - ay) in *.
  set (wx := px - ax). set (wy := py - ay).
  set (lam := ey * nx - ex * ny).
  assert (Hpx : nx * (nx * ex + ny * ey) = 0) by (rewrite Hperp; ring).
  assert (Hpy : ny * (nx * ex + ny * ey) = 0) by (rewrite Hperp; ring).
  assert (Hnx : ex * (nx * nx + ny * ny) = ex) by (rewrite Hn; ring).
  assert (Hny : ey * (nx * nx + ny * ny) = ey) by (rewrite Hn; ring).
  assert (Hex : ex = - lam * ny) by (unfold lam; nra).
  assert (Hey : ey = lam * nx) by (unfold lam; nra).
  clear Hpx Hpy Hnx Hny.
  assert (Hlam : ex * ex + ey * ey = lam * lam).
  { replace (ex * ex + ey * ey)
      with (- lam * ny * (- lam * ny) + lam * nx * (lam * nx))
      by (rewrite <- Hex, <- Hey; ring).
    replace (- lam * ny * (- lam * ny) + lam * nx * (lam * nx))
      with (lam * lam * (nx * nx + ny * ny)) by ring.
    rewrite Hn. ring. }
  assert (Hl0 : lam <> 0).
  { intros E. apply HL. rewrite Hlam, E. ring. }
  assert (Hsplit : forall N : R,
            nx * N * (nx * N) + ny * N * (ny * N) = N * N).
  { intros N.
    replace (nx * N * (nx * N) + ny * N * (ny * N))
      with (N * N * (nx * nx + ny * ny)) by ring.
    rewrite Hn. ring. }
  rewrite <- sqrt_Rsqr_abs. f_equal. unfold Rsqr.
  rewrite <- (Hsplit (nx * wx + ny * wy)).
  rewrite Hlam.
  assert (Hcx : px - (ax + ex * ((wx * ex + wy * ey) / (lam * lam)))
                = nx * (nx * wx + ny * wy)).
  { replace (nx * (nx * wx + ny * wy))
      with (nx * (nx * wx + ny * wy) + wx * (1 - (nx * nx + ny * ny)))
      by (rewrite Hn; ring).
    rewrite Hex, Hey. unfold wx. field. exact Hl0. }
  assert (Hcy : py - (ay + ey * ((wx * ex + wy * ey) / (lam * lam)))
                = ny * (nx * wx + ny * wy)).
  { replace (ny * (nx * wx + ny * wy))
      with (ny * (nx * wx + ny * wy) + wy * (1 - (nx * nx + ny * ny)))
      by (rewrite Hn; ring).
    rewrite Hex, Hey. unfold wy. field. exact Hl0. }
  rewrite Hcx, Hcy. reflexivity.
Qed.

Lemma edgeNormal_perpendicular (c : Vector2D) (r theta : R) (i : nat) :
  (i < 6)%nat ->
  Vector2D.dot (edgeNormal theta i)
    (Vector2D.subtract (hexVertex c r theta ((i + 1) mod 6))
       (hexVertex c r theta i)) = 0.
Proof.
  intros Hi. rewrite (next_vertex c r theta i Hi).
  unfold hexVertex, edgeNormal. fold (vertexAngle theta i).
  rewrite cos_shift, sin_shift.
  unfold Vector2D.dot, Vector2D.subtract; cbn [Vector2D.x Vector2D.y].
  field.
Qed.

Lemma resolveCollision_position (e : HexagonEdge) (d : R)
  (this : PhysicsEngine) (rs : RandomSource) :
  position (PhysicsEngine.ballState
              (fst (PhysicsEngine.resolveCollision e d this rs)))
  = Vector2D.add (position (PhysicsEngine.ballState this))
      (Vector2D.multiply (normal e) d).
Proof.
  unfold PhysicsEngine.resolveCollision, Math_random.
  destruct (_ && _); reflexivity.
Qed.

(** X25. The positional correction resolves the overlap in one pass when
    the contact is on the inside of an edge: for an edge of a hexagon built
    by [createHexagon] with a positive radius, a ball of non-negative radius
    whose center is on the inner side of the edge and projects within the
    edge, [resolveCollision] with the penetration depth
    [ballRadius - distance] moves the center along the edge normal to
    exactly [ballRadius] from the edge. *)
Theorem correction_touches_edge
  (this : PhysicsEngine) (rs : RandomSource)
  (c : Vector2D) (r theta : R) (e : HexagonEdge) :
  0 < r ->
  In e (edges (createHexagon c r theta)) ->
  let p := position (PhysicsEngine.ballState this) in
  let rad := ballRadius (PhysicsEngine.config this) in
  0 <= rad ->
  0 <= projectionParameter p (start e) (end_ e) <= 1 ->
  0 <= Vector2D.dot (normal e) (Vector2D.subtract p (start e)) ->
  let this' :=
    fst (PhysicsEngine.resolveCollision e (rad - edgeDistance p e) this rs) in
  position (PhysicsEngine.ballState this')
  = Vector2D.add p (Vector2D.multiply (normal e) (rad - edgeDistance p e)) /\
  edgeDistance (position (PhysicsEngine.ballState this')) e = rad.
Proof.
  intros Hr Hin p rad Hrad Hproj Hside this'.
  subst this'. rewrite resolveCollision_position. fold p.
  split; [reflexivity|].
  destruct (In_edges_createHexagon c r theta Hr e Hin) as (i & Hi & He).
  pose proof (normal_unit_createHexagon c r theta e Hr Hin) as Hn.
  assert (Hab : start e <> end_ e).
  { rewrite He. cbn [hexEdgeAt start end_].
    now apply hexEdgeAt_ends_differ. }
  assert (Hperp : Vector2D.dot (normal e)
                    (Vector2D.subtract (end_ e) (start e)) = 0).
  { rewrite He. cbn [hexEdgeAt start end_ normal].
    now apply edgeNormal_perpendicular. }
  clear He Hin.
  assert (Hdist : edgeDistance p e
                  = Vector2D.dot (normal e) (Vector2D.subtract p (start e))).
  { unfold edgeDistance.
    rewrite (perpendicular_distance p (start e) (end_ e) (normal e)
               Hab Hn Hperp Hproj).
    apply Rabs_right. lra. }
  set (d := rad - edgeDistance p e) in *.
  set (p' := Vector2D.add p (Vector2D.multiply (normal e) d)).
  assert (Hdot : Vector2D.dot (normal e) (Vector2D.subtract p' (start e))
                 = rad).
  { unfold p', Vector2D.dot, Vector2D.subtract, Vector2D.add,
      Vector2D.multiply in *; cbn [Vector2D.x Vector2D.y] in *.
    replace (Vector2D.x (normal e)
             * (Vector2D.x p + Vector2D.x (normal e) * d
                - Vector2D.x (start e))
             + Vector2D.y (normal e)
               * (Vector2D.y p + Vector2D.y (normal e) * d
                  - Vector2D.y (start e)))
      with (Vector2D.x (normal e) * (Vector2D.x p - Vector2D.x (start e))
            + Vector2D.y (normal e) * (Vector2D.y p - Vector2D.y (start e))
            + d * (Vector2D.x (normal e) * Vector2D.x (normal e)
                   + Vector2D.y (normal e) * Vector2D.y (normal e)))
      by ring.
    rewrite Hn. unfold d. lra. }
  assert (Hproj' : projectionParameter p' (start e) (end_ e)
                   = projectionParameter p (start e) (end_ e)).
  { unfold projectionParameter. f_equal.
    unfold p', Vector2D.dot, Vector2D.subtract, Vector2D.add,
      Vector2D.multiply in *; cbn [Vector2D.x Vector2D.y] in *.
    replace ((Vector2D.x p + Vector2D.x (normal e) * d - Vector2D.x (start e))
             * (Vector2D.x (end_ e) - Vector2D.x (start e))
             + (Vector2D.y p + Vector2D.y (normal e) * d
                - Vector2D.y (start e))
               * (Vector2D.y (end_ e) - Vector2D.y (start e)))
      with ((Vector2D.x p - Vector2D.x (start e))
            * (Vector2D.x (end_ e) - Vector2D.x (start e))
            + (Vector2D.y p - Vector2D.y (start e))
              * (Vector2D.y (end_ e) - Vector2D.y (start e))
            + d * (Vector2D.x (normal e)
                   * (Vector2D.x (end_ e) - Vector2D.x (start e))
                   + Vector2D.y (normal e)
                     * (Vector2D.y (end_ e) - Vector2D.y (start e))))
      by ring.
    rewrite Hperp. ring. }
  unfold edgeDistance.
  rewrite (perpendicular_distance p' (start e) (end_ e) (normal e) Hab Hn Hperp)
    by (rewrite Hproj'; exact Hproj).
  rewrite Hdot. apply Rabs_right. lra.
Qed.

Lemma demo_bottom_projection :
  projectionParameter (vec 400 470) (vec 500 (300 + 100 * sqrt 3))
    (vec 300 (300 + 100 * sqrt 3)) = 1 / 2.
Proof.
  unfold projectionParameter, Vector2D.dot, Vector2D.magnitudeSquared,
    Vector2D.subtract; cbn [Vector2D.x Vector2D.y].
  match goal with
  | |- ?n / ?d = _ =>
      replace d with 40000 by ring; replace n with 20000 by ring
  end.
  lra.
Qed.

(** The demo ball 170 below the center, 3.2 from the bottom edge: after the
    correction it is at 12 from that edge. *)
Lemma correction_touches_edge_witness :
  let this := runningEngine demoConfig (vec 400 470) (vec 0 100) in
  let e := hexEdgeAt (vec 400 300) 200 0 1 in
  let p := position (PhysicsEngine.ballState this) in
  0 <= projectionParameter p (start e) (end_ e) <= 1 /\
  0 <= Vector2D.dot (normal e) (Vector2D.subtract p (start e)) /\
  edgeDistance
    (position
       (PhysicsEngine.ballState
          (fst (PhysicsEngine.resolveCollision e (12 - edgeDistance p e)
                  this (constantRandom 0.25))))) e = 12.
Proof.
  cbv zeta. pose proof sqrt3_bounds as Hs.
  set (this := runningEngine demoConfig (vec 400 470) (vec 0 100)).
  change (position (PhysicsEngine.ballState this)) with (vec 400 470).
  assert (Hr : 0 < 200) by lra.
  assert (Hin : In (hexEdgeAt (vec 400 300) 200 0 1)
                  (edges (createHexagon (vec 400 300) 200 0)))
    by (apply hexEdgeAt_In; [exact Hr | lia]).
  assert (Hproj : 0 <= projectionParameter (vec 400 470)
                         (start (hexEdgeAt (vec 400 300) 200 0 1))
                         (end_ (hexEdgeAt (vec 400 300) 200 0 1)) <= 1).
  { rewrite demo_bottom_edge. cbn [start end_].
    rewrite demo_bottom_projection. lra. }
  assert (Hside : 0 <= Vector2D.dot
                         (normal (hexEdgeAt (vec 400 300) 200 0 1))
                         (Vector2D.subtract (vec 400 470)
                            (start (hexEdgeAt (vec 400 300) 200 0 1)))).
  { rewrite demo_bottom_edge. cbn [start normal].
    unfold Vector2D.dot, Vector2D.subtract; cbn [Vector2D.x Vector2D.y].
    lra. }
  split; [exact Hproj|]. split; [exact Hside|].
  assert (Hrad : 0 <= ballRadius (PhysicsEngine.config this))
    by (cbn; lra).
  exact (proj2 (correction_touches_edge this (constantRandom 0.25)
                  (vec 400 300) 200 0 (hexEdgeAt (vec 400 300) 200 0 1)
                  Hr Hin Hrad Hproj Hside)).
Defined.

(** ** The frame loop of the component: trail and particles *)

(** X26. The trail never holds more than 50 positions: after
    [updateTrails] it has [min (length prev + 1) 50] entries, they are the
    last entries of [prev] followed by the new position, which is always
    kept as the last one. *)
Theorem updateTrails_bounded (prev : list Vector2D) (position : Vector2D) :
  length (updateTrails prev position)
  = Nat.min (length prev + 1) maxTrails /\
  (exists dropped : list Vector2D,
     prev ++ [position] = dropped ++ updateTrails prev position /\
     length dropped = (length prev + 1 - maxTrails)%nat) /\
  (exists kept : list Vector2D,
     updateTrails prev position = kept ++ [position]).
Proof.
  unfold updateTrails. cbv zeta.
  assert (Hclone : Vector2D.clone position = position)
    by (destruct position; reflexivity).
  rewrite Hclone.
  assert (Hlen : length (prev ++ [position]) = (length prev + 1)%nat)
    by (rewrite length_app; reflexivity).
  rewrite Hlen.
  set (n := (length prev + 1 - maxTrails)%nat).
  assert (Hn : (n <= length prev)%nat) by (unfold n, maxTrails; lia).
  split; [|split].
  - rewrite length_skipn, Hlen. unfold n, maxTrails. lia.
  - exists (firstn n (prev ++ [position])). split.
    + symmetry. apply firstn_skipn.
    + rewrite length_firstn, Hlen. lia.
  - exists (skipn n prev). rewrite skipn_app.
    replace (n - length prev)%nat with 0%nat by lia. reflexivity.
Qed.

Lemma filter_map_swap {A B : Type} (f : B -> bool) (g : A -> B) (l : list A) :
  filter f (map g l) = map g (filter (fun a => f (g a)) l).
Proof.
  induction l as [|a l IH]; [reflexivity|].
  cbn [map filter]. destruct (f (g a)); cbn [map]; now rewrite IH.
Qed.

(** X27. [updateParticles] removes exactly the particles whose remaining
    life is at most the timestep and advances the others: each survivor has
    moved by [velocity * dt], kept 0.98 of its velocity and lost [dt] of its
    life; every particle left has a positive life, and the number of
    particles never grows. *)
Theorem updateParticles_survivors (dt : R) (prev : list Particle.t) :
  updateParticles dt prev
  = map (particleStep dt)
      (filter (fun particle => gtb (Particle.life particle) dt) prev) /\
  (forall particle : Particle.t,
     In particle (updateParticles dt prev) -> 0 < Particle.life particle) /\
  (length (updateParticles dt prev) <= length prev)%nat.
Proof.
  assert (Heq : updateParticles dt prev
                = map (particleStep dt)
                    (filter (fun particle => gtb (Particle.life particle) dt)
                       prev)).
  { unfold updateParticles. rewrite filter_map_swap. f_equal.
    apply filter_ext. intros a. cbn [particleStep Particle.life].
    destruct (gtb (Particle.life a) dt) eqn:E.
    - apply gtb_true in E. apply gtb_true. lra.
    - apply gtb_false in E. apply gtb_false. lra. }
  split; [exact Heq|]. split.
  - intros particle Hin. unfold updateParticles in Hin.
    apply filter_In in Hin. destruct Hin as [_ Hlife].
    now apply gtb_true in Hlife.
  - rewrite Heq, length_map. apply filter_length_le.
Qed.

(** ** Degenerate radii of [createHexagon] *)

Lemma createHexagon_same_vertices (c : Vector2D) (r r' theta theta' : R) :
  (forall i : nat, hexVertex c r theta i = hexVertex c r' theta' i) ->
  vertices (createHexagon c r theta) = vertices (createHexagon c r' theta') /\
  edges (createHexagon c r theta) = edges (createHexagon c r' theta').
Proof.
  intros H.
  assert (Hv : vertices (createHexagon c r theta)
               = vertices (createHexagon c r' theta')).
  { unfold createHexagon; cbn [vertices]. apply map_ext. exact H. }
  split; [exact Hv|].
  unfold createHexagon in *; cbn [vertices edges] in *. now rewrite Hv.
Qed.

(** X28. The radius is not validated, and the construction degrades
    gracefully: a negative radius gives the vertices and edges of the
    hexagon of the opposite radius turned by 180 degrees, and a zero radius
    gives six copies of the center joined by zero-length edges whose normal
    is [(0, 0)] (the guard of [normalize]), each at the distance of the
    center from any query point. *)
Theorem createHexagon_degenerate_radius (c : Vector2D) (r theta : R) :
  (vertices (createHexagon c (- r) theta)
   = vertices (createHexagon c r (theta + PI)) /\
   edges (createHexagon c (- r) theta)
   = edges (createHexagon c r (theta + PI))) /\
  (forall v : Vector2D, In v (vertices (createHexagon c 0 theta)) -> v = c) /\
  (forall e : HexagonEdge,
     In e (edges (createHexagon c 0 theta)) ->
     e = mkEdge c c (vec 0 0) /\
     forall p : Vector2D, edgeDistance p e = Vector2D.distance p c).
Proof.
  assert (Hzero : forall i : nat, hexVertex c 0 theta i = c).
  { intros i. unfold hexVertex. destruct c as [cx cy].
    cbn [Vector2D.x Vector2D.y]. f_equal; ring. }
  split; [|split].
  - apply createHexagon_same_vertices. intros i. unfold hexVertex.
    replace (INR i * PI / 3 + (theta + PI))
      with (INR i * PI / 3 + theta + PI) by ring.
    rewrite neg_cos, neg_sin. f_equal; ring.
  - intros v Hv. unfold createHexagon in Hv; cbn [vertices] in Hv.
    apply in_map_iff in Hv. destruct Hv as (i & <- & _). apply Hzero.
  - intros e He.
    assert (Hedge : e = mkEdge c c (vec 0 0)).
    { unfold createHexagon in He; cbn [edges] in He.
      apply in_map_iff in He. destruct He as (i & <- & Hi).
      apply in_seq in Hi.
      unfold hexEdge.
      change (map (hexVertex c 0 theta) (seq 0 6))
        with (vertices (createHexagon c 0 theta)).
      rewrite (vertices_createHexagon c 0 theta i) by lia.
      rewrite (vertices_createHexagon c 0 theta ((i + 1) mod 6))
        by (apply Nat.mod_upper_bound; lia).
      rewrite !Hzero. f_equal.
      unfold Vector2D.subtract, Vector2D.normalize; cbn [Vector2D.x Vector2D.y].
      replace (eqb _ 0) with true; [reflexivity|].
      symmetry. apply eqb_true. apply magnitude_zero_iff. f_equal; ring. }
    split; [exact Hedge|]. intros p. rewrite Hedge.
    unfold edgeDistance; cbn [start end_].
    pose proof (distanceToEdge_closest p c c) as H. cbv zeta in H.
    destruct H as (_ & Heq & _). exact (proj2 (Heq eq_refl)).
Qed.

(** ** A step without gravity never speeds the ball up *)

Lemma unclamped_speed_damped (cfg : PhysicsConfig) (b : BallState) (dt : R) :
  gravity cfg = 0 ->
  acceleration b = vec 0 0 ->
  0 <= friction cfg * dt <= 1 ->
  Vector2D.magnitude (unclampedVelocity cfg b dt)
  <= Vector2D.magnitude (velocity b).
Proof.
  intros Hg Ha Hf. unfold unclampedVelocity. rewrite Hg, Ha.
  cbn [Vector2D.x Vector2D.y].
  replace (Vector2D.x (velocity b) * (1 - friction cfg * dt) + 0 * dt)
    with (Vector2D.x (velocity b) * (1 - friction cfg * dt)) by ring.
  replace (Vector2D.y (velocity b) * (1 - friction cfg * dt) + (0 + 0) * dt)
    with (Vector2D.y (velocity b) * (1 - friction cfg * dt)) by ring.
  rewrite magnitude_scale by lra.
  pose proof (magnitude_nonneg (velocity b)). nra.
Qed.

Lemma integrated_speed_damped (dt : R) (this : PhysicsEngine) :
  gravity (PhysicsEngine.config this) = 0 ->
  acceleration (PhysicsEngine.ballState this) = vec 0 0 ->
  0 <= friction (PhysicsEngine.config this) * Rmin dt 0.016 <= 1 ->
  0 <= maxVelocity (PhysicsEngine.config this) ->
  Vector2D.magnitude (velocity (PhysicsEngine.ballState (integrated dt this)))
  <= Vector2D.magnitude (velocity (PhysicsEngine.ballState this)).
Proof.
  intros Hg Ha Hf Hmax.
  pose proof (unclamped_speed_damped (PhysicsEngine.config this)
                (PhysicsEngine.ballState this) (Rmin dt 0.016) Hg Ha Hf) as Hu.
  set (u := unclampedVelocity (PhysicsEngine.config this)
              (PhysicsEngine.ballState this) (Rmin dt 0.016)) in *.
  destruct (Rle_lt_dec (Vector2D.magnitude u)
              (maxVelocity (PhysicsEngine.config this))) as [Hle | Hgt].
  - rewrite (integrated_within_cap dt this Hle). exact Hu.
  - pose proof (integrated_speed_capped dt this Hmax) as Hcap. lra.
Qed.

(** X29. Without gravity a step never speeds the ball up.  For a Running
    engine with [gravity = 0], zero stored acceleration, a drag factor
    [friction * min dt 0.016] between 0 and 1, [maxVelocity >= 0] and
    [0 <= restitution <= 1], whose stored hexagon was built by
    [createHexagon] with a positive radius, and a generator returning
    numbers in [[0, 1)], the speed after [update] is at most the speed
    before, unless the anti-stall perturbation was applied, in which case
    both velocity components are below 35 in absolute value. *)
Theorem update_dissipates
  (dt : R) (this : PhysicsEngine) (rs : RandomSource)
  (c : Vector2D) (r theta : R) :
  PhysicsEngine.isRunning this = true ->
  gravity (PhysicsEngine.config this) = 0 ->
  acceleration (PhysicsEngine.ballState this) = vec 0 0 ->
  0 <= friction (PhysicsEngine.config this) * Rmin dt 0.016 <= 1 ->
  0 <= maxVelocity (PhysicsEngine.config this) ->
  0 <= restitution (PhysicsEngine.config this) <= 1 ->
  PhysicsEngine.hexagon this = createHexagon c r theta ->
  0 < r ->
  unitDraws rs ->
  let v' := velocity (PhysicsEngine.ballState
                        (fst (PhysicsEngine.update dt this rs))) in
  Vector2D.magnitude v'
  <= Vector2D.magnitude (velocity (PhysicsEngine.ballState this))
  \/ (Rabs (Vector2D.x v') < 35 /\ Rabs (Vector2D.y v') < 35).
Proof.
  intros Hrun Hg Ha Hf Hmax Hrho Hhex Hr Hu. cbv zeta.
  rewrite (update_running dt this rs Hrun).
  pose proof (integrated_speed_damped dt this Hg Ha Hf Hmax) as Hcap.
  destruct (integrated_frame dt this) as (Hc & Hh & _).
  unfold PhysicsEngine.handleCollisions.
  destruct (collision_result_cases
              (position (PhysicsEngine.ballState (integrated dt this)))
              (ballRadius (PhysicsEngine.config (integrated dt this)))
              (PhysicsEngine.hexagon (integrated dt this)))
    as [Hno | (e & Hin & _ & _ & Hres)].
  - rewrite Hno. cbn. left. exact Hcap.
  - rewrite Hres. cbn [isColliding collisionEdge collisionPoint
                       penetrationDepth].
    rewrite Hh, Hhex in Hin.
    pose proof (normal_unit_createHexagon c r theta e Hr Hin) as Hn.
    pose proof (resolveCollision_velocity e
                  (ballRadius (PhysicsEngine.config (integrated dt this))
                   - edgeDistance
                       (position (PhysicsEngine.ballState (integrated dt this)))
                       e)
                  (integrated dt this) rs) as Hv.
    cbv zeta in Hv.
    destruct (PhysicsEngine.resolveCollision e _ (integrated dt this) rs)
      as [this' rs'].
    cbn [fst] in *.
    unfold PhysicsEngine.updateHexagonRotation;
      cbn [PhysicsEngine.ballState].
    rewrite Hv, Hc. clear Hv.
    set (w := PhysicsEngine.reflectedVelocity
                (restitution (PhysicsEngine.config this)) (normal e)
                (velocity (PhysicsEngine.ballState (integrated dt this)))).
    destruct (ltb (Rabs (Vector2D.x w)) 10) eqn:Ex;
      destruct (ltb (Rabs (Vector2D.y w)) 10) eqn:Ey; cbn [andb].
    + right. apply ltb_true in Ex. apply ltb_true in Ey.
      pose proof (unit_draw_range rs (cursor rs) 50 Hu ltac:(lra)) as Hx.
      pose proof (unit_draw_range rs (S (cursor rs)) 50 Hu ltac:(lra)) as Hy.
      cbn [Vector2D.x Vector2D.y].
      apply Rabs_def2 in Ex. apply Rabs_def2 in Ey.
      split; apply Rabs_def1; lra.
    + left. eapply Rle_trans; [|exact Hcap].
      apply reflected_speed_le; assumption.
    + left. eapply Rle_trans; [|exact Hcap].
      apply reflected_speed_le; assumption.
    + left. eapply Rle_trans; [|exact Hcap].
      apply reflected_speed_le; assumption.
Qed.

Lemma update_dissipates_witness :
  let this :=
    runningEngine (mkConfig 0 0.02 0.8 1 12 800) (vec 400 470) (vec 0 100) in
  let v' := velocity (PhysicsEngine.ballState
                        (fst (PhysicsEngine.update 0.01 this
                                (constantRandom 0.25)))) in
  PhysicsEngine.isRunning this = true /\
  0 <= 0.02 * Rmin 0.01 0.016 <= 1 /\
  (Vector2D.magnitude v' <= Vector2D.magnitude (vec 0 100)
   \/ (Rabs (Vector2D.x v') < 35 /\ Rabs (Vector2D.y v') < 35)).
Proof.
  cbv zeta. split; [reflexivity|].
  assert (Hf : 0 <= 0.02 * Rmin 0.01 0.016 <= 1)
    by (rewrite Rmin_unclamped by lra; lra).
  split; [exact Hf|].
  apply (update_dissipates 0.01
           (runningEngine (mkConfig 0 0.02 0.8 1 12 800) (vec 400 470)
              (vec 0 100))
           (constantRandom 0.25) (vec 400 300) 200 0).
  - reflexivity.
  - reflexivity.
  - reflexivity.
  - exact Hf.
  - cbn. lra.
  - cbn. lra.
  - reflexivity.
  - lra.
  - apply constantRandom_unit. lra.
Defined.
